(** * Orchestra: workflow graph engine and expression dispatch

    A shallow embedding of [orchestra/graphing.py] (class [WorkflowGraph])
    and of [orchestra/expressions/base.py] (functions [validate] and
    [evaluate]), with the properties of the engine proved over it.

    Python values are embedded as the inductive [value]; dictionaries with
    string keys (attribute bags, keyword arguments) are [gmap string value];
    the networkx [MultiDiGraph] is a record of its three stores; an
    operation of the class is a function from the graph to an outcome and
    the graph it leaves behind, so that what a raised exception leaves in
    the graph can be stated. *)

From Stdlib Require Import ZArith String List Sorting.Sorted Sorting.Permutation.
From stdpp Require Import gmap strings list fin_maps.

Local Set Warnings "-register-all,-clear-no-such-hyp".
Local Open Scope string_scope.
Local Open Scope list_scope.
Local Open Scope Z_scope.

(** ** Python values *)

(** The values the engine stores and passes around: [None], booleans,
    integers, strings, lists, and dictionaries (an association list in
    iteration order). *)
Inductive value : Type :=
| VNone
| VBool (b : bool)
| VInt (z : Z)
| VStr (s : string)
| VList (l : list value)
| VDict (kv : list (value * value)).

(** Python's [==] on these values.  A boolean is an integer ([True == 1]);
    lists compare element by element; dictionaries compare as sets of
    items, whatever their iteration order. *)
Fixpoint py_eq (a b : value) {struct a} : bool :=
  match a, b with
  | VNone, VNone => true
  | VBool x, VBool y => Bool.eqb x y
  | VBool x, VInt y => Z.eqb (Z.b2z x) y
  | VInt x, VBool y => Z.eqb x (Z.b2z y)
  | VInt x, VInt y => Z.eqb x y
  | VStr x, VStr y => String.eqb x y
  | VList x, VList y =>
      (fix go (x : list value) (y : list value) {struct x} : bool :=
         match x, y with
         | [], [] => true
         | a' :: x', b' :: y' => py_eq a' b' && go x' y'
         | _, _ => false
         end) x y
  | VDict x, VDict y =>
      Nat.eqb (length x) (length y) &&
      (fix go (x : list (value * value)) {struct x} : bool :=
         match x with
         | [] => true
         | (k, v) :: x' =>
             existsb (fun kv' => py_eq k (fst kv') && py_eq v (snd kv')) y
             && go x'
         end) x
  | _, _ => false
  end.

(** Python's truth value: [bool(v)]. *)
Definition truthy (v : value) : bool :=
  match v with
  | VNone => false
  | VBool b => b
  | VInt z => negb (Z.eqb z 0)
  | VStr s => negb (String.eqb s "")
  | VList l => negb (Nat.eqb (length l) 0)
  | VDict kv => negb (Nat.eqb (length kv) 0)
  end.

(** [v in l] for a list [l]. *)
Definition py_in (v : value) (l : list value) : bool :=
  existsb (py_eq v) l.

(** [all(l)]. *)
Definition py_all (l : list value) : bool := forallb truthy l.

(** ** Exceptions and outcomes *)

(** The exceptions the two modules raise, named after what the code
    raises.  [TaskDoesNotExist] is [Exception('Task "%s" does not exist.')],
    [StateNotValid] is [ValueError('State "%s" is not valid.')],
    [TransitionDoesNotExist] and [MoreThanOneTransition] are the two
    plain exceptions of [get_transition]; [KeyError], [IndexError] and
    [TypeError] are the interpreter's; [EvaluatorError] is whatever an evaluator plug-in
    raises. *)
Inductive exn : Type :=
| TaskDoesNotExist (task_id : string)
| StateNotValid (v : value)
| InvalidStateTransition (old_state new_state : value)
| TransitionDoesNotExist
| MoreThanOneTransition
| KeyError (k : string)
| IndexError
| TypeError
| EvaluatorError (msg : string).

Inductive result (A : Type) : Type :=
| Ok (a : A)
| Raise (e : exn).
Arguments Ok {A} a.
Arguments Raise {A} e.

Definition rbind {A B} (r : result A) (f : A → result B) : result B :=
  match r with
  | Ok a => f a
  | Raise e => Raise e
  end.

Fixpoint rmap {A B} (f : A → result B) (l : list A) : result (list B) :=
  match l with
  | [] => Ok []
  | x :: l' =>
      rbind (f x) (fun y => rbind (rmap f l') (fun ys => Ok (y :: ys)))
  end.

(** [d[k]] on a dictionary with string keys. *)
Definition getitem (d : gmap string value) (k : string) : result value :=
  match d !! k with
  | Some v => Ok v
  | None => Raise (KeyError k)
  end.

(** [d.get(k, default)]. *)
Definition dict_get (d : gmap string value) (k : string) (default : value) : value :=
  match d !! k with
  | Some v => v
  | None => default
  end.

(** [for x in v]: the elements of a list, the characters of a string, the
    keys of a dictionary; anything else is not iterable. *)
Fixpoint chars (s : string) : list value :=
  match s with
  | EmptyString => []
  | String c s' => VStr (String c EmptyString) :: chars s'
  end.

Definition py_iter (v : value) : result (list value) :=
  match v with
  | VList l => Ok l
  | VStr s => Ok (chars s)
  | VDict kv => Ok (map fst kv)
  | _ => Raise TypeError
  end.

(** ** Expression dispatch ([orchestra/expressions/base.py]) *)

Module Expressions.

(** The capability contract of class [Evaluator], as far as [validate] and
    [evaluate] use it.  A plug-in's [evaluate] may raise. *)
Record Evaluator : Type := {
  get_type : string;
  has_expressions : string → bool;
  ev_validate : string → list value;
  ev_evaluate : string → value → result value
}.

(** The dictionary [{'errors': errors}] that [validate] returns. *)
Record validation : Type := { errors : list value }.

Section Dispatch.

(** [get_evaluators()]: the registry, name to evaluator, in the
    iteration order of the dictionary. *)
Variable get_evaluators : list (string * Evaluator).

(** [utils.format_error(expr_type, expression, message)]; the module
    [orchestra/expressions/utils.py] is not among the sources. *)
Variable format_error : value → value → string → value.

(** The evaluators whose detection predicate matches the statement. *)
Definition matching (statement : string) : list Evaluator :=
  map snd (filter (fun ne => has_expressions (snd ne) statement) get_evaluators).

Definition validate_string (statement : string) : list value :=
  match matching statement with
  | [] => []
  | [ev] => ev_validate ev statement
  | _ :: _ :: _ =>
      [format_error VNone (VStr statement)
         "Expression with multiple types is not supported."]
  end.

Fixpoint validate (statement : value) : validation :=
  match statement with
  | VDict kv =>
      {| errors :=
           flat_map (fun p => errors (validate (fst p)) ++ errors (validate (snd p))) kv |}
  | VList l =>
      {| errors := flat_map (fun item => errors (validate item)) l |}
  | VStr s => {| errors := validate_string s |}
  | _ => {| errors := [] |}
  end.

(** A dictionary key must be hashable. *)
Definition hashable (v : value) : bool :=
  match v with
  | VList _ | VDict _ => false
  | _ => true
  end.

(** [d[k] = v] on an association list: an equal key keeps its place and
    takes the new value, a new key goes last. *)
Fixpoint dict_set (d : list (value * value)) (k v : value) : list (value * value) :=
  match d with
  | [] => [(k, v)]
  | (k', v') :: d' =>
      if py_eq k' k then (k', v) :: d' else (k', v') :: dict_set d' k v
  end.

Definition evaluate_string (statement : string) (data : value) : result value :=
  match matching statement with
  | [] => Ok (VStr statement)
  | ev :: _ => ev_evaluate ev statement data
  end.

(** In the dictionary comprehension the key is evaluated before the
    value, as Python 3.8 and later do. *)
Fixpoint evaluate (statement : value) (data : value) : result value :=
  match statement with
  | VDict kv =>
      rbind
        ((fix items (kv : list (value * value)) (acc : list (value * value))
            : result (list (value * value)) :=
            match kv with
            | [] => Ok acc
            | (k, v) :: kv' =>
                rbind (evaluate k data) (fun k' =>
                rbind (evaluate v data) (fun v' =>
                if hashable k' then items kv' (dict_set acc k' v')
                else Raise TypeError))
            end) kv [])
        (fun d => Ok (VDict d))
  | VList l =>
      rbind
        ((fix items (l : list value) : result (list value) :=
            match l with
            | [] => Ok []
            | item :: l' =>
                rbind (evaluate item data) (fun x =>
                rbind (items l') (fun xs => Ok (x :: xs)))
            end) l)
        (fun xs => Ok (VList xs))
  | VStr s => evaluate_string s data
  | _ => Ok statement
  end.

End Dispatch.

End Expressions.

(** ** The state machine ([orchestra/states.py])

    The module [orchestra/states.py] is not among the sources; the graph
    uses three names of it, taken here as the fields of an interface:
    the declared states, the completed states, and the validity relation
    between an old and a new state (either may be [None]). *)
Class States : Type := {
  ALL_STATES : list value;
  COMPLETED_STATES : list value;
  is_transition_valid : value → value → bool
}.

(** ** The networkx multigraph

    [networkx.MultiDiGraph] keeps a dictionary of graph attributes
    ([G.graph]), a dictionary from node to its attribute dictionary
    ([G.node]) and the adjacency of keyed edges, each with one attribute
    dictionary shared by the successor and the predecessor view.  An edge
    is the tuple [(u, v, key, data)] that [edges(data=True, keys=True)]
    yields: [edge[0]] is [e_u], [edge[1]] is [e_v], [edge[2]] is [e_key]
    and [edge[3]] is [e_data].  The list [edges] stands for the adjacency
    in the order the dictionaries iterate. *)
Record edge : Type := Edge {
  e_u : string;
  e_v : string;
  e_key : Z;
  e_data : gmap string value
}.

Record MultiDiGraph : Type := Graph {
  graph : gmap string value;
  node : gmap string (gmap string value);
  edges : list edge
}.

(** [nx.MultiDiGraph()] *)
Definition empty_graph : MultiDiGraph :=
  {| graph := ∅; node := ∅; edges := [] |}.

Definition has_node (g : MultiDiGraph) (n : string) : bool :=
  bool_decide (is_Some (node g !! n)).

Definition same_edge (u v : string) (k : Z) (e : edge) : bool :=
  String.eqb (e_u e) u && String.eqb (e_v e) v && Z.eqb (e_key e) k.

(** [G.add_node(n, **attr)]: a new node takes [attr], an existing one is
    updated with it. *)
Definition add_node (g : MultiDiGraph) (n : string) (attr : gmap string value)
  : MultiDiGraph :=
  {| graph := graph g;
     node := <[n := attr ∪ default ∅ (node g !! n)]> (node g);
     edges := edges g |}.

(** The key networkx gives a new parallel edge: the number of edges
    between the pair, increased while it is taken. *)
Fixpoint fresh_key (taken : list Z) (k : Z) (fuel : nat) : Z :=
  match fuel with
  | O => k
  | S fuel' =>
      if existsb (Z.eqb k) taken then fresh_key taken (k + 1) fuel' else k
  end.

Definition keys_between (g : MultiDiGraph) (u v : string) : list Z :=
  map e_key (filter (fun e => String.eqb (e_u e) u && String.eqb (e_v e) v) (edges g)).

Definition touch_node (g : MultiDiGraph) (n : string) : MultiDiGraph :=
  if has_node g n then g else add_node g n ∅.

(** [G[u][v][key].update(attr)] on every stored edge [(u, v, key)]. *)
Definition update_edge_data (u v : string) (k : Z) (attr : gmap string value)
    (es : list edge) : list edge :=
  map (fun e => if same_edge u v k e
                then {| e_u := e_u e; e_v := e_v e; e_key := e_key e;
                        e_data := attr ∪ e_data e |}
                else e) es.

(** [G.add_edge(u, v, key=key, **attr)]. *)
Definition add_edge (g : MultiDiGraph) (u v : string) (key : option Z)
    (attr : gmap string value) : MultiDiGraph :=
  let g := touch_node (touch_node g u) v in
  let taken := keys_between g u v in
  let k := match key with
           | Some k => k
           | None => fresh_key taken (Z.of_nat (length taken)) (length taken)
           end in
  {| graph := graph g;
     node := node g;
     edges := if existsb (same_edge u v k) (edges g)
              then update_edge_data u v k attr (edges g)
              else edges g ++ [{| e_u := u; e_v := v; e_key := k; e_data := attr |}] |}.

(** [G.out_edges([n], data=True, keys=True)] and [G.in_edges(...)]; a node
    that is not in the graph contributes nothing. *)
Definition out_edges (g : MultiDiGraph) (n : string) : list edge :=
  if has_node g n then filter (fun e => String.eqb (e_u e) n) (edges g) else [].

Definition in_edges (g : MultiDiGraph) (n : string) : list edge :=
  if has_node g n then filter (fun e => String.eqb (e_v e) n) (edges g) else [].

(** [G.in_degree()]: for every node, the number of edges into it, a
    loop and every parallel edge counted. *)
Definition in_degree (g : MultiDiGraph) : list (string * nat) :=
  map (fun p => (fst p, length (filter (fun e => String.eqb (e_v e) (fst p)) (edges g))))
      (map_to_list (node g)).

(** [sorted(l, key=...)] with a string key: a stable sort. *)
Fixpoint insert_sorted {A} (key : A → string) (x : A) (l : list A) : list A :=
  match l with
  | [] => [x]
  | y :: l' =>
      if String.ltb (key y) (key x) then y :: insert_sorted key x l'
      else x :: y :: l'
  end.

Definition sorted {A} (l : list A) (key : A → string) : list A :=
  foldr (insert_sorted key) [] l.

(** The order that [sorted] establishes between neighbours. *)
Definition key_le {A} (key : A → string) (a b : A) : Prop :=
  String.leb (key a) (key b) = true.

(** Python 3's [<] between two values: numbers with numbers, strings with
    strings; other pairs raise [TypeError] (the order of lists is not
    modelled: names and barriers are scalars). *)
Definition py_lt (a b : value) : result bool :=
  match a, b with
  | VInt x, VInt y => Ok (Z.ltb x y)
  | VInt x, VBool y => Ok (Z.ltb x (Z.b2z y))
  | VBool x, VInt y => Ok (Z.ltb (Z.b2z x) y)
  | VBool x, VBool y => Ok (Z.ltb (Z.b2z x) (Z.b2z y))
  | VStr x, VStr y => Ok (String.ltb x y)
  | _, _ => Raise TypeError
  end.

(** [sorted(l, key=...)] with a key of any value: stable, and raising as
    soon as a comparison does. *)
Fixpoint py_insert {A} (key : A → value) (x : A) (l : list A) : result (list A) :=
  match l with
  | [] => Ok [x]
  | y :: l' =>
      rbind (py_lt (key y) (key x)) (fun b =>
      if b then rbind (py_insert key x l') (fun r => Ok (y :: r))
      else Ok (x :: y :: l'))
  end.

Fixpoint py_sorted {A} (l : list A) (key : A → value) : result (list A) :=
  match l with
  | [] => Ok []
  | x :: l' => rbind (py_sorted l' key) (py_insert key x)
  end.

(** ** The adjacency document ([networkx.readwrite.json_graph])

    [adjacency_data] and [adjacency_graph] are networkx's, written here
    after the library: the document lists the graph attributes as items,
    one dictionary per node (its attributes, then ['id']) and, in the same
    order, one list per node of dictionaries of its outgoing edges (the
    attributes, then ['id'] for the neighbour and ['key']).  The two flags
    [directed] and [multigraph], both [True] for a [MultiDiGraph], are
    left out.  Node ids are strings and edge keys integers in this model;
    a document with another id or key raises [TypeError] here. *)
Module json_graph.

Record adjacency : Type := {
  d_graph : list (string * value);
  d_nodes : list (gmap string value);
  d_adjacency : list (list (gmap string value))
}.

Definition adjacency_data (g : MultiDiGraph) : adjacency :=
  {| d_graph := map_to_list (graph g);
     d_nodes := map (fun p => <["id" := VStr (fst p)]> (snd p)) (map_to_list (node g));
     d_adjacency :=
       map (fun p =>
              map (fun e => <["key" := VInt (e_key e)]>
                              (<["id" := VStr (e_v e)]> (e_data e)))
                  (filter (fun e => String.eqb (e_u e) (fst p)) (edges g)))
           (map_to_list (node g)) |}.

(** [dict(items)]: a later item overrides an earlier one. *)
Definition dict_of_items (items : list (string * value)) : gmap string value :=
  foldl (fun d kv => <[fst kv := snd kv]> d) ∅ items.

(** The first loop of [adjacency_graph]: the nodes, and the list
    [mapping] of their ids. *)
Fixpoint load_nodes (ds : list (gmap string value)) (mapping : list string)
    (g : MultiDiGraph) : result (list string * MultiDiGraph) :=
  match ds with
  | [] => Ok (mapping, g)
  | d :: ds' =>
      match d !! "id" with
      | None => Raise (KeyError "id")
      | Some (VStr n) =>
          load_nodes ds' (mapping ++ [n]) (add_node g n (delete "id" d))
      | Some _ => Raise TypeError
      end
  end.

(** The edges out of one node. *)
Fixpoint load_targets (source : string) (d : list (gmap string value))
    (g : MultiDiGraph) : result MultiDiGraph :=
  match d with
  | [] => Ok g
  | tgt_data :: d' =>
      match tgt_data !! "id" with
      | None => Raise (KeyError "id")
      | Some (VStr target) =>
          let target_data := delete "id" tgt_data in
          match target_data !! "key" with
          | None =>
              load_targets source d' (add_edge g source target None target_data)
          | Some VNone =>
              load_targets source d'
                (add_edge g source target None (delete "key" target_data))
          | Some (VInt ky) =>
              load_targets source d'
                (add_edge g source target (Some ky) (delete "key" target_data))
          | Some _ => Raise TypeError
          end
      | Some _ => Raise TypeError
      end
  end.

(** The second loop: [for i, d in enumerate(data['adjacency'])]. *)
Fixpoint load_adjacency (mapping : list string) (i : nat)
    (adj : list (list (gmap string value))) (g : MultiDiGraph)
    : result MultiDiGraph :=
  match adj with
  | [] => Ok g
  | d :: adj' =>
      match mapping !! i with
      | None => Raise IndexError
      | Some source =>
          rbind (load_targets source d g) (load_adjacency mapping (S i) adj')
      end
  end.

Definition adjacency_graph (data : adjacency) : result MultiDiGraph :=
  let g := {| graph := dict_of_items (d_graph data); node := ∅; edges := [] |} in
  rbind (load_nodes (d_nodes data) [] g) (fun r =>
  load_adjacency (fst r) 0 (d_adjacency data) (snd r)).

End json_graph.

(** ** Operations on the graph: outcome and graph left behind *)

(** A method of [WorkflowGraph] runs on the graph it holds ([self._graph])
    and either returns or raises; what it wrote before raising stays. *)
Definition M (A : Type) : Type := MultiDiGraph → result A * MultiDiGraph.

Definition ret {A} (a : A) : M A := fun g => (Ok a, g).
Definition raise {A} (e : exn) : M A := fun g => (Raise e, g).
Definition bind {A B} (m : M A) (f : A → M B) : M B :=
  fun g => match m g with
           | (Ok a, g') => f a g'
           | (Raise e, g') => (Raise e, g')
           end.
Definition get : M MultiDiGraph := fun g => (Ok g, g).
Definition put (g : MultiDiGraph) : M unit := fun _ => (Ok tt, g).
Definition lift {A} (r : result A) : M A := fun g => (r, g).

Notation "'let*' x ':=' m 'in' k" := (bind m (fun x => k))
  (at level 10, x name, m at level 100, k at level 200).

(** A transition is marked satisfied: [s[3].get('satisfied')] is true. *)
Definition marked (s : edge) : bool :=
  truthy (dict_get (e_data s) "satisfied" VNone).

(** A task as [get_next_tasks] returns it: [{'id': ..., 'name': ...}]. *)
Record task_ref : Type := TaskRef { t_id : string; t_name : value }.

(** ** The workflow graph ([orchestra/graphing.py]) *)

Module WorkflowGraph.

Section Graphing.

Context `{St : States}.

(** [dict_utils.merge_dicts(left, right, overwrite)]; the module
    [orchestra/utils/dictionary.py] is not among the sources. *)
Variable merge_dicts : value → value → bool → value.

(** The registry of evaluators that [expressions.evaluate] consults. *)
Variable get_evaluators : list (string * Expressions.Evaluator).

(** [WorkflowGraph(graph=None)]: [graph if graph else nx.MultiDiGraph()].
    The truth value of a networkx graph is that of its length, the
    number of its nodes. *)
Definition init (g : option MultiDiGraph) : MultiDiGraph :=
  match g with
  | Some g => if negb (Nat.eqb (size (node g)) 0) then g else empty_graph
  | None => empty_graph
  end.

Definition serialize (g : MultiDiGraph) : json_graph.adjacency :=
  json_graph.adjacency_data g.

Definition deserialize (data : json_graph.adjacency) : result MultiDiGraph :=
  rbind (json_graph.adjacency_graph data) (fun g => Ok (init (Some g))).

(** The property [state]. *)
Definition state (g : MultiDiGraph) : value :=
  dict_get (graph g) "state" VNone.

(** The setter of [state]. *)
Definition set_state (v : value) : M unit :=
  let* g := get in
  if negb (py_in v ALL_STATES) then raise (StateNotValid v)
  else if negb (is_transition_valid (state g) v)
       then raise (InvalidStateTransition (state g) v)
       else put {| graph := <["state" := v]> (graph g);
                   node := node g; edges := edges g |}.

Definition has_task (g : MultiDiGraph) (task_id : string) : bool :=
  has_node g task_id.

(** [get_task]: the node's attributes under ['id']; an attribute named
    ['id'] overrides it. *)
Definition get_task (task_id : string) : M (gmap string value) :=
  let* g := get in
  match node g !! task_id with
  | None => raise (TaskDoesNotExist task_id)
  | Some attrs => ret (attrs ∪ {["id" := VStr task_id]})
  end.

(** [nx.get_node_attributes(G, attribute)] merged over [{n: None}]. *)
Definition get_task_attributes (g : MultiDiGraph) (attribute : string) : value :=
  merge_dicts
    (VDict (map (fun p => (VStr (fst p), VNone)) (map_to_list (node g))))
    (VDict (omap (fun p => match snd p !! attribute with
                           | Some v => Some (VStr (fst p), v)
                           | None => None
                           end) (map_to_list (node g))))
    true.

Definition update_task (task_id : string) (kwargs : gmap string value) : M unit :=
  let* g := get in
  match node g !! task_id with
  | None => raise (TaskDoesNotExist task_id)
  | Some attrs =>
      let old_state := dict_get attrs "state" VNone in
      let new_state := dict_get kwargs "state" VNone in
      if negb (is_transition_valid old_state new_state)
      then raise (InvalidStateTransition old_state new_state)
      else put {| graph := graph g;
                  node := <[task_id := kwargs ∪ attrs]> (node g);
                  edges := edges g |}
  end.

Definition add_task (task_id : string) (kwargs : gmap string value) : M unit :=
  let* g := get in
  if negb (has_task g task_id) then put (add_node g task_id kwargs)
  else update_task task_id kwargs.

Definition reset_task (task_id : string) : M unit :=
  let* g := get in
  match node g !! task_id with
  | None => raise (TaskDoesNotExist task_id)
  | Some attrs =>
      let task_attrs : gmap string value := ∅ in
      let task_attrs :=
        match attrs !! "name" with
        | Some v => <["name" := v]> task_attrs
        | None => task_attrs
        end in
      let task_attrs :=
        match attrs !! "barrier" with
        | Some v => <["barrier" := v]> task_attrs
        | None => task_attrs
        end in
      put {| graph := graph g;
             node := <[task_id := task_attrs]> (node g);
             edges := edges g |}
  end.

(** [get_start_tasks]: the tasks of in-degree 0, each under its ['name']
    attribute or, without one, under its id, sorted by that name. *)
Definition get_start_tasks (g : MultiDiGraph) : result (list task_ref) :=
  py_sorted
    (map (fun nd => {| t_id := fst nd;
                       t_name := dict_get (default ∅ (node g !! fst nd)) "name"
                                   (VStr (fst nd)) |})
         (filter (fun nd => Nat.eqb (snd nd) 0) (in_degree g)))
    t_name.

Definition get_next_transitions (g : MultiDiGraph) (task_id : string) : list edge :=
  sorted (out_edges g task_id) e_v.

Definition get_prev_transitions (g : MultiDiGraph) (task_id : string) : list edge :=
  sorted (in_edges g task_id) e_v.

(** [edge[2] == key], where [key] may be [None]. *)
Definition key_eq (k : Z) (key : option Z) : bool :=
  match key with
  | Some k' => Z.eqb k k'
  | None => false
  end.

Definition has_transition (g : MultiDiGraph) (source destination : string)
    (criteria : value) : list edge :=
  filter (fun e => String.eqb (e_u e) source && String.eqb (e_v e) destination &&
                   py_eq (dict_get (e_data e) "criteria" VNone) criteria)
         (edges g).

(** The test of [get_transition] on one edge. *)
Definition transition_matches (source destination : string) (key : option Z)
    (criteria : value) (e : edge) : bool :=
  String.eqb (e_u e) source && String.eqb (e_v e) destination &&
  (py_eq (dict_get (e_data e) "criteria" VNone) criteria || key_eq (e_key e) key).

Definition get_transition (source destination : string) (key : option Z)
    (criteria : value) : M edge :=
  let* g := get in
  match filter (transition_matches source destination key criteria) (edges g) with
  | [] => raise TransitionDoesNotExist
  | [seq] => ret seq
  | _ :: _ :: _ => raise MoreThanOneTransition
  end.

Definition update_transition (source destination : string) (key : option Z)
    (kwargs : gmap string value) : M unit :=
  let* seq := get_transition source destination key VNone in
  let* g := get in
  put {| graph := graph g; node := node g;
         edges := update_edge_data source destination (e_key seq) kwargs (edges g) |}.

Definition add_transition (source destination : string) (criteria : value) : M unit :=
  let* g := get in
  let* _ := (if negb (has_task g source) then add_task source ∅ else ret tt) in
  let* g := get in
  let* _ := (if negb (has_task g destination) then add_task destination ∅ else ret tt) in
  let* g := get in
  match has_transition g source destination criteria with
  | _ :: _ :: _ => raise MoreThanOneTransition
  | [] => put (add_edge g source destination None {["criteria" := criteria]})
  | [seq] =>
      update_transition source destination (Some (e_key seq)) {["criteria" := criteria]}
  end.

Definition set_barrier (task_id : string) (v : value) : M unit :=
  update_task task_id {["barrier" := v]}.

Definition get_barrier (task_id : string) : M value :=
  let* task := get_task task_id in
  ret (dict_get task "barrier" VNone).

Definition has_barrier (task_id : string) : M bool :=
  let* b := get_barrier task_id in
  ret (negb (py_eq b VNone) && negb (py_eq b (VStr ""))).

(** The first loop of [get_next_tasks]: the outgoing transitions all
    of whose criteria evaluate to a true value. *)
Definition fires (context : value) (seq : edge) : result bool :=
  rbind (getitem (e_data seq) "criteria") (fun criteria =>
  rbind (py_iter criteria) (fun criteria =>
  rbind (rmap (fun criterion =>
                 Expressions.evaluate get_evaluators criterion context) criteria)
        (fun evaluated_criteria => Ok (py_all evaluated_criteria)))).

Fixpoint select_outbounds (context : value) (seqs : list edge) : result (list edge) :=
  match seqs with
  | [] => Ok []
  | seq :: seqs' =>
      rbind (fires context seq) (fun b =>
      rbind (select_outbounds context seqs') (fun outbounds =>
      Ok (if b then seq :: outbounds else outbounds)))
  end.

(** The attribute dictionary of a yielded edge is the stored one, not a
    copy: reading [seq[3]] later reads the graph as it is then. *)
Definition live_data (g : MultiDiGraph) (seq : edge) : gmap string value :=
  match filter (same_edge (e_u seq) (e_v seq) (e_key seq)) (edges g) with
  | e :: _ => e_data e
  | [] => e_data seq
  end.

(** The inbound transitions marked satisfied. *)
Definition satisfied_inbounds (g : MultiDiGraph) (task_id : string) : list edge :=
  filter marked (get_prev_transitions g task_id).

(** The barrier test of the second loop: [true] when the destination is
    skipped. *)
Definition below_barrier (next_task_id : string) : M bool :=
  let* hb := has_barrier next_task_id in
  if hb then
    let* barrier := get_barrier next_task_id in
    let* g := get in
    let inbounds := get_prev_transitions g next_task_id in
    let satisfied := satisfied_inbounds g next_task_id in
    let barrier := if py_eq barrier (VStr "*")
                   then VInt (Z.of_nat (length inbounds)) else barrier in
    lift (py_lt (VInt (Z.of_nat (length satisfied))) barrier)
  else ret false.

(** The second loop of [get_next_tasks], over the fired transitions. *)
Fixpoint collect (task_id : string) (outbounds : list edge) (tasks : list task_ref)
    : M (list task_ref) :=
  match outbounds with
  | [] => ret tasks
  | seq :: outbounds' =>
      let next_task_id := e_v seq in
      let seq_key := e_key seq in
      let* g := get in
      let attrs := live_data g seq in
      let* _ := (if negb (truthy (dict_get attrs "satisfied" (VBool false)))
                 then update_transition task_id next_task_id (Some seq_key)
                        {["satisfied" := VBool true]}
                 else ret tt) in
      let* skip := below_barrier next_task_id in
      if skip then collect task_id outbounds' tasks
      else
        let* next_task := get_task next_task_id in
        let* name := lift (getitem next_task "name") in
        collect task_id outbounds'
          (tasks ++ [{| t_id := next_task_id; t_name := name |}])
  end.

(** The context the criteria are evaluated in: the caller's, or [{}],
    with the state of every task under ['__task_states']. *)
Definition task_context (g : MultiDiGraph) (context : value) : value :=
  merge_dicts (if truthy context then context else VDict [])
              (VDict [(VStr "__task_states", get_task_attributes g "state")])
              true.

Definition get_next_tasks (task_id : string) (context : value) : M (list task_ref) :=
  let* task := get_task task_id in
  let* st := lift (getitem task "state") in
  if negb (py_in st COMPLETED_STATES) then ret []
  else
    let* g := get in
    let context := task_context g context in
    let* outbounds := lift (select_outbounds context (get_next_transitions g task_id)) in
    let* tasks := collect task_id outbounds [] in
    lift (py_sorted tasks t_name).

End Graphing.

End WorkflowGraph.

(** ** A sample instance

    A small state machine in the shape the engine expects (from no state
    into the states a task can start in, from running into the completed
    states, every state into itself), two evaluators that detect their
    own delimiters, and stand-ins for the two helper functions.  The
    concrete runs below are made on it. *)
Module Sample.

Definition valid (old_state new_state : value) : bool :=
  match old_state, new_state with
  | VNone, VStr "requested" => true
  | VNone, VStr "running" => true
  | VStr "requested", VStr "running" => true
  | VStr "running", VStr "succeeded" => true
  | VStr "running", VStr "failed" => true
  | _, _ => py_eq old_state new_state
  end.

#[global] Instance states : States := {|
  ALL_STATES := [VStr "requested"; VStr "running"; VStr "succeeded"; VStr "failed"];
  COMPLETED_STATES := [VStr "succeeded"; VStr "failed"];
  is_transition_valid := valid
|}.

Definition contains (sub s : string) : bool :=
  match String.index 0 sub s with
  | Some _ => true
  | None => false
  end.

Definition error_of (kind : string) (statement : string) : value :=
  VDict [(VStr "type", VStr kind); (VStr "expression", VStr statement)].

(** An evaluator for [<% ... %>] that reports every statement it is given
    and evaluates it to the truth of "it is not the text <% false %>". *)
Definition angle : Expressions.Evaluator := {|
  Expressions.get_type := "angle";
  Expressions.has_expressions := contains "<%";
  Expressions.ev_validate := fun s => [error_of "angle" s];
  Expressions.ev_evaluate := fun s _ => Ok (VBool (negb (String.eqb s "<% false %>")))
|}.

(** An evaluator for [{{ ... }}] that accepts everything. *)
Definition curly : Expressions.Evaluator := {|
  Expressions.get_type := "curly";
  Expressions.has_expressions := contains "{{";
  Expressions.ev_validate := fun _ => [];
  Expressions.ev_evaluate := fun s _ => Ok (VStr s)
|}.

Definition evaluators : list (string * Expressions.Evaluator) :=
  [("angle", angle); ("curly", curly)].

Definition format_error (expr_type expression : value) (message : string) : value :=
  VDict [(VStr "type", expr_type); (VStr "expression", expression);
         (VStr "message", VStr message)].

(** Right over left, one level. *)
Definition merge_dicts (left right : value) (overwrite : bool) : value :=
  match left, right with
  | VDict l, VDict r =>
      VDict (foldl (fun d kv => Expressions.dict_set d (fst kv) (snd kv)) l r)
  | _, _ => right
  end.

(** Run a sequence of operations from a graph, keeping the graph. *)
Definition run {A} (m : M A) (g : MultiDiGraph) : MultiDiGraph := snd (m g).

(** Tasks [t1] (running, with a name, a barrier and a note) and [t2]
    (never started). *)
Definition two_tasks : MultiDiGraph :=
  {| graph := {["state" := VStr "running"]};
     node := {[ "t1" := {["name" := VStr "first"; "state" := VStr "running";
                           "barrier" := VInt 2; "note" := VStr "x"]};
                "t2" := {["name" := VStr "second"]} ]};
     edges := [ {| e_u := "t1"; e_v := "t2"; e_key := 0;
                   e_data := {["criteria" := VList []; "satisfied" := VBool true]} |} ] |}.


(** Two transitions into [d], the one from [b] added before the one
    from [a]. *)
Definition fan_in : MultiDiGraph :=
  run (let* _ := WorkflowGraph.add_transition "b" "d" (VList []) in
       WorkflowGraph.add_transition "a" "d" (VList []))
      empty_graph.

(** Three transitions out of [a], added to [z], [x] and [y] in this
    order. *)
Definition fan_out : MultiDiGraph :=
  run (let* _ := WorkflowGraph.add_transition "a" "z" (VList []) in
       let* _ := WorkflowGraph.add_transition "a" "x" (VList []) in
       WorkflowGraph.add_transition "a" "y" (VList []))
      empty_graph.

(** A workflow that is running and has no task yet. *)
Definition started : MultiDiGraph :=
  run (WorkflowGraph.set_state (VStr "running")) empty_graph.

(** The diamond [A -> B], [A -> C], [B -> D], [C -> D] with the barrier
    ['*'] on [D], every task named after its id, [A] and [B] succeeded and
    [C] running, after the next tasks of [A] have been asked for. *)
Definition named (task_id : string) : M unit :=
  WorkflowGraph.add_task task_id {["name" := VStr task_id]}.

Definition diamond : MultiDiGraph :=
  run (let* _ := named "A" in
       let* _ := named "B" in
       let* _ := named "C" in
       let* _ := named "D" in
       let* _ := WorkflowGraph.add_transition "A" "B" (VList []) in
       let* _ := WorkflowGraph.add_transition "A" "C" (VList []) in
       let* _ := WorkflowGraph.add_transition "B" "D" (VList []) in
       let* _ := WorkflowGraph.add_transition "C" "D" (VList [VStr "<% ok %>"]) in
       let* _ := WorkflowGraph.set_barrier "D" (VStr "*") in
       let* _ := WorkflowGraph.update_task "A" {["state" := VStr "running"]} in
       let* _ := WorkflowGraph.update_task "A" {["state" := VStr "succeeded"]} in
       let* _ := WorkflowGraph.get_next_tasks merge_dicts evaluators "A" VNone in
       let* _ := WorkflowGraph.update_task "B" {["state" := VStr "running"]} in
       let* _ := WorkflowGraph.update_task "C" {["state" := VStr "running"]} in
       WorkflowGraph.update_task "B" {["state" := VStr "succeeded"]})
      empty_graph.

(** One task with an attribute of its own named ['id']. *)
Definition tagged : MultiDiGraph :=
  run (WorkflowGraph.add_task "t" {["id" := VStr "x"; "name" := VStr "t"]})
      empty_graph.

(** Three transitions into [d], which waits for two of them: [a] has
    succeeded and its next tasks have been asked for, [b] has succeeded,
    [c] is not started. *)
Definition join2 : MultiDiGraph :=
  run (let* _ := named "a" in
       let* _ := named "b" in
       let* _ := named "c" in
       let* _ := named "d" in
       let* _ := WorkflowGraph.add_transition "a" "d" (VList []) in
       let* _ := WorkflowGraph.add_transition "b" "d" (VList [VStr "<% ok %>"]) in
       let* _ := WorkflowGraph.add_transition "c" "d" (VList []) in
       let* _ := WorkflowGraph.set_barrier "d" (VInt 2) in
       let* _ := WorkflowGraph.update_task "a" {["state" := VStr "running"]} in
       let* _ := WorkflowGraph.update_task "a" {["state" := VStr "succeeded"]} in
       let* _ := WorkflowGraph.get_next_tasks merge_dicts evaluators "a" VNone in
       let* _ := WorkflowGraph.update_task "b" {["state" := VStr "running"]} in
       WorkflowGraph.update_task "b" {["state" := VStr "succeeded"]})
      empty_graph.


(** A transition between two tasks that [add_transition] made: they
    have no name.  The source has succeeded. *)
Definition unnamed : MultiDiGraph :=
  run (let* _ := WorkflowGraph.add_transition "b" "d" (VList []) in
       let* _ := WorkflowGraph.update_task "b" {["state" := VStr "running"]} in
       WorkflowGraph.update_task "b" {["state" := VStr "succeeded"]})
      empty_graph.

End Sample.

(** ** Notions used to state the properties *)

(** What the barrier test of [get_next_tasks] computes for a destination
    on a given graph, as a function of the graph: [Ok true] when the
    destination is skipped. *)
Definition barrier_check (g : MultiDiGraph) (next_task_id : string) : result bool :=
  match node g !! next_task_id with
  | None => Raise (TaskDoesNotExist next_task_id)
  | Some attrs =>
      let b := dict_get attrs "barrier" VNone in
      if negb (py_eq b VNone) && negb (py_eq b (VStr "")) then
        py_lt (VInt (Z.of_nat (length (WorkflowGraph.satisfied_inbounds g next_task_id))))
              (if py_eq b (VStr "*")
               then VInt (Z.of_nat (length (WorkflowGraph.get_prev_transitions g next_task_id)))
               else b)
      else Ok false
  end.

(** The graph [g'] comes from [g] by writing into the attributes of
    transitions whose destination is in [D], without unmarking any: what
    the second loop of [get_next_tasks] does to the graph. *)
Definition evolves (D : string → Prop) (g g' : MultiDiGraph) : Prop :=
  node g' = node g ∧ graph g' = graph g ∧
  ∃ f : edge → edge,
    edges g' = map f (edges g) ∧
    (∀ e, e_u (f e) = e_u e ∧ e_v (f e) = e_v e ∧ e_key (f e) = e_key e) ∧
    (∀ e, marked e = true → marked (f e) = true) ∧
    (∀ e, ¬ D (e_v e) → f e = e).


(** The identity of an edge in the multigraph, and its record in the
    document. *)
Definition edge_id (e : edge) : string * string * Z := (e_u e, e_v e, e_key e).



(** The strings of a value, in the order the dispatch functions go
    through it: a key of a dictionary before its value. *)
Fixpoint strings_of (v : value) : list string :=
  match v with
  | VStr s => [s]
  | VList l => flat_map strings_of l
  | VDict kv => flat_map (fun p => strings_of (fst p) ++ strings_of (snd p)) kv
  | _ => []
  end.

(** No key of the list equals, by [==], a key before it. *)
Fixpoint distinct_keys (ks : list value) : bool :=
  match ks with
  | [] => true
  | k :: ks' => forallb (fun k' => negb (py_eq k k')) ks' && distinct_keys ks'
  end.

(** A value that Python can hold: the keys of every dictionary in it are
    hashable and pairwise different. *)
Fixpoint python_value (v : value) : bool :=
  match v with
  | VList l => forallb python_value l
  | VDict kv =>
      forallb (fun p => python_value (fst p) && python_value (snd p)
                        && Expressions.hashable (fst p)) kv
      && distinct_keys (map fst kv)
  | _ => true
  end.

(** What networkx keeps true of a multigraph: an edge lies between two
    nodes, and no two edges have the same source, destination and key. *)
Definition endpoints_exist (g : MultiDiGraph) : Prop :=
  ∀ e, e ∈ edges g → is_Some (node g !! e_u e) ∧ is_Some (node g !! e_v e).

Definition keys_unique (g : MultiDiGraph) : Prop :=
  NoDup (map edge_id (edges g)).

Definition well_formed (g : MultiDiGraph) : Prop :=
  endpoints_exist g ∧ keys_unique g.

(** An operation keeps the multigraph well formed, whether it returns
    or raises. *)
Definition keeps_well_formed {A} (m : M A) : Prop :=
  ∀ g r g', m g = (r, g') → well_formed g → well_formed g'.

(** A barrier that the test of [get_next_tasks] can compare with a
    count: none, the empty string, the wildcard, or a number. *)
Definition barrier_comparable (b : value) : Prop :=
  match b with
  | VNone | VInt _ | VBool _ => True
  | VStr s => s = "" ∨ s = "*"
  | _ => False
  end.

(** The edge with its [satisfied] attribute set, as [get_next_tasks]
    writes it. *)
Definition mark (e : edge) : edge :=
  {| e_u := e_u e; e_v := e_v e; e_key := e_key e;
     e_data := {["satisfied" := VBool true]} ∪ e_data e |}.

(** The graph [g'] is [g] with some transitions marked and nothing else
    changed. *)
Definition only_marks (g g' : MultiDiGraph) : Prop :=
  node g' = node g ∧ graph g' = graph g ∧
  Forall2 (fun e e' => e' = e ∨ e' = mark e) (edges g) (edges g').

(** The order [sorted] leaves between an element and the next one: the
    key of the second is not less than the key of the first. *)
Definition name_le {A} (key : A → value) (a b : A) : Prop :=
  py_lt (key b) (key a) = Ok false.

(** The entry of a fired transition in the result of [get_next_tasks]:
    its destination under the name the destination has. *)
Definition next_entry (g : MultiDiGraph) (seq : edge) : task_ref :=
  {| t_id := e_v seq;
     t_name := dict_get (default ∅ (node g !! e_v seq)) "name" VNone |}.

(** * Properties *)

Import WorkflowGraph.

(** ** The guard of [get_next_tasks] *)

Section NextTasksGuard.

Context `{St : States}.
Variable merge_dicts : value → value → bool → value.
Variable get_evaluators : list (string * Expressions.Evaluator).

Lemma get_task_item (g : MultiDiGraph) (task_id : string)
    (attrs : gmap string value) (k : string) :
  node g !! task_id = Some attrs → k ≠ "id" →
  ∃ task, get_task task_id g = (Ok task, g) ∧ task !! k = attrs !! k.
Proof.
  intros Hn Hk. unfold get_task, bind, get, ret. cbn. rewrite Hn.
  eexists; split; [reflexivity|].
  rewrite lookup_union, lookup_singleton_ne by congruence.
  by destruct (attrs !! k).
Qed.

(** C2: a task that has a state outside the completed states has no next
    tasks, whatever its outgoing transitions and their criteria are, and
    the call leaves the whole graph, hence every [satisfied] flag, as it
    was. *)
Theorem get_next_tasks_not_completed (g : MultiDiGraph) (task_id : string)
    (context : value) (attrs : gmap string value) (st : value) :
  node g !! task_id = Some attrs →
  attrs !! "state" = Some st →
  py_in st COMPLETED_STATES = false →
  get_next_tasks merge_dicts get_evaluators task_id context g = (Ok [], g).
Proof.
  intros Hn Hs Hc.
  destruct (get_task_item g task_id attrs "state" Hn) as (task & Ht & Hk);
    [discriminate|].
  unfold get_next_tasks, bind. rewrite Ht. cbn.
  unfold lift, getitem. rewrite Hk, Hs, Hc. reflexivity.
Qed.

(** C9: [get_next_tasks] raises instead of returning the empty sequence
    when the task is not there (the task-does-not-exist exception of
    [get_task]) and when the task has no [state] attribute (the
    [KeyError] of [task['state']]). *)
Theorem get_next_tasks_raises (g : MultiDiGraph) (task_id : string) (context : value) :
  (node g !! task_id = None →
   get_next_tasks merge_dicts get_evaluators task_id context g
     = (Raise (TaskDoesNotExist task_id), g)) ∧
  (∀ attrs, node g !! task_id = Some attrs → attrs !! "state" = None →
   get_next_tasks merge_dicts get_evaluators task_id context g
     = (Raise (KeyError "state"), g)).
Proof.
  split.
  - intros Hn. unfold get_next_tasks, bind, get_task, get, raise. cbn.
    by rewrite Hn.
  - intros attrs Hn Hs.
    destruct (get_task_item g task_id attrs "state" Hn) as (task & Ht & Hk);
      [discriminate|].
    unfold get_next_tasks, bind. rewrite Ht. cbn.
    unfold lift, getitem. by rewrite Hk, Hs.
Qed.

End NextTasksGuard.

(** C2 on the sample graph: [t1] is running, and its transition to [t2],
    whose criteria are empty, is not looked at. *)
Lemma get_next_tasks_not_completed_witness :
  get_next_tasks Sample.merge_dicts Sample.evaluators "t1" VNone Sample.two_tasks
  = (Ok [], Sample.two_tasks).
Proof.
  apply (get_next_tasks_not_completed Sample.merge_dicts Sample.evaluators
           Sample.two_tasks "t1" VNone
           {["name" := VStr "first"; "state" := VStr "running";
             "barrier" := VInt 2; "note" := VStr "x"]} (VStr "running"));
    reflexivity.
Defined.

(** C9 on the sample graph: [t3] is not a task, [t2] has no state. *)
Lemma get_next_tasks_raises_witness :
  get_next_tasks Sample.merge_dicts Sample.evaluators "t3" VNone Sample.two_tasks
    = (Raise (TaskDoesNotExist "t3"), Sample.two_tasks) ∧
  get_next_tasks Sample.merge_dicts Sample.evaluators "t2" VNone Sample.two_tasks
    = (Raise (KeyError "state"), Sample.two_tasks).
Proof.
  split.
  - apply (get_next_tasks_raises Sample.merge_dicts Sample.evaluators
             Sample.two_tasks "t3" VNone). reflexivity.
  - apply (get_next_tasks_raises Sample.merge_dicts Sample.evaluators
             Sample.two_tasks "t2" VNone) with (attrs := {["name" := VStr "second"]});
      reflexivity.
Defined.

(** ** Updating and resetting a task *)

Section TaskUpdates.

Context `{St : States}.

(** What [update_task] does, case by case: it always asks the state
    machine about the pair (state of the task, [kwargs.get('state')]),
    with [None] for a state that is absent on either side. *)
Lemma update_task_cases (g : MultiDiGraph) (task_id : string)
    (kwargs : gmap string value) :
  update_task task_id kwargs g =
  match node g !! task_id with
  | None => (Raise (TaskDoesNotExist task_id), g)
  | Some attrs =>
      let old_state := dict_get attrs "state" VNone in
      let new_state := dict_get kwargs "state" VNone in
      if is_transition_valid old_state new_state
      then (Ok tt, {| graph := graph g;
                      node := <[task_id := kwargs ∪ attrs]> (node g);
                      edges := edges g |})
      else (Raise (InvalidStateTransition old_state new_state), g)
  end.
Proof.
  unfold update_task, bind, get, raise, put. cbn.
  destruct (node g !! task_id) as [attrs|]; [|reflexivity].
  by destruct (is_transition_valid _ _).
Qed.

(** C3, as the code has it: on a task that is not there [update_task]
    raises the task-does-not-exist exception; on an existing task it
    validates the pair (current state, [state] of the given attributes,
    [None] when they have no [state]) against the state machine on every
    call, raising [InvalidStateTransition] with both states and leaving
    the graph as it was when the pair is invalid, and otherwise merging
    every given attribute into the task, the given value winning per
    key, with the other tasks, the transitions and the graph attributes
    untouched. *)
Theorem update_task_validates_then_merges (g : MultiDiGraph) (task_id : string)
    (kwargs : gmap string value) :
  (node g !! task_id = None →
   update_task task_id kwargs g = (Raise (TaskDoesNotExist task_id), g)) ∧
  (∀ attrs, node g !! task_id = Some attrs →
     let old_state := dict_get attrs "state" VNone in
     let new_state := dict_get kwargs "state" VNone in
     (is_transition_valid old_state new_state = false →
      update_task task_id kwargs g
        = (Raise (InvalidStateTransition old_state new_state), g)) ∧
     (is_transition_valid old_state new_state = true →
      ∃ g' attrs',
        update_task task_id kwargs g = (Ok tt, g') ∧
        graph g' = graph g ∧ edges g' = edges g ∧
        (∀ other, other ≠ task_id → node g' !! other = node g !! other) ∧
        node g' !! task_id = Some attrs' ∧
        ∀ k, attrs' !! k = match kwargs !! k with
                           | Some v => Some v
                           | None => attrs !! k
                           end)).
Proof.
  split.
  - intros Hn. by rewrite update_task_cases, Hn.
  - intros attrs Hn old_state new_state. split; intros Hv.
    + rewrite update_task_cases, Hn. cbn. fold old_state new_state.
      by rewrite Hv.
    + eexists _, (kwargs ∪ attrs). split.
      { rewrite update_task_cases, Hn. cbn. fold old_state new_state.
        rewrite Hv. reflexivity. }
      cbn. repeat split.
      * intros other Hne. by rewrite lookup_insert_ne.
      * by rewrite lookup_insert_eq.
      * intros k. rewrite lookup_union. by destruct (kwargs !! k), (attrs !! k).
Qed.

(** [update_task] has no test against the declared states: it never
    raises the not-valid-state exception that the setter of the graph's
    state raises. *)
Lemma update_task_never_state_not_valid (g : MultiDiGraph) (task_id : string)
    (kwargs : gmap string value) (v : value) :
  fst (update_task task_id kwargs g) ≠ Raise (StateNotValid v).
Proof.
  rewrite update_task_cases.
  destruct (node g !! task_id); cbn; [|discriminate].
  destruct (is_transition_valid _ _); discriminate.
Qed.

(** The setter of the graph's state: a value outside the declared states
    raises the not-valid-state exception, a declared value that the state
    machine rejects raises [InvalidStateTransition] with both states, and
    in both cases the graph is as it was. *)
Lemma set_state_rejects (g : MultiDiGraph) (v : value) :
  (py_in v ALL_STATES = false →
   set_state v g = (Raise (StateNotValid v), g)) ∧
  (py_in v ALL_STATES = true → is_transition_valid (state g) v = false →
   set_state v g = (Raise (InvalidStateTransition (state g) v), g)).
Proof.
  unfold set_state, bind, get, raise. cbn. split.
  - intros ->. reflexivity.
  - intros -> ->. reflexivity.
Qed.

Lemma set_state_accepts (g : MultiDiGraph) (v : value) :
  py_in v ALL_STATES = true → is_transition_valid (state g) v = true →
  ∃ g', set_state v g = (Ok tt, g') ∧ state g' = v ∧
        node g' = node g ∧ edges g' = edges g.
Proof.
  intros Hin Hv. unfold set_state, bind, get, put. cbn. rewrite Hin, Hv. cbn.
  eexists; split; [reflexivity|]. cbn. repeat split.
  unfold state, dict_get. cbn. by rewrite lookup_insert_eq.
Qed.

(** C6: [reset_task] on an existing task leaves it with exactly its
    earlier [name] and [barrier] entries, each only if it was there, and
    nothing else, so that [state] is gone; the transitions with their
    [satisfied] flags, the other tasks and the graph attributes are
    unchanged.  On a task that is not there it raises the
    task-does-not-exist exception. *)
Theorem reset_task_keeps_name_and_barrier (g : MultiDiGraph) (task_id : string) :
  (∀ attrs, node g !! task_id = Some attrs →
     ∃ g' attrs',
       reset_task task_id g = (Ok tt, g') ∧
       node g' !! task_id = Some attrs' ∧
       (∀ k, attrs' !! k =
             if bool_decide (k = "name" ∨ k = "barrier") then attrs !! k else None) ∧
       attrs' !! "state" = None ∧
       edges g' = edges g ∧
       graph g' = graph g ∧
       (∀ other, other ≠ task_id → node g' !! other = node g !! other)) ∧
  (node g !! task_id = None →
   reset_task task_id g = (Raise (TaskDoesNotExist task_id), g)).
Proof.
  split.
  - intros attrs Hn. unfold reset_task, bind, get, put, raise. cbn. rewrite Hn.
    set (kept := match attrs !! "barrier" with
                 | Some v => <["barrier":=v]> _
                 | None => _
                 end).
    assert (Hk : ∀ k, kept !! k
      = if bool_decide (k = "name" ∨ k = "barrier") then attrs !! k else None).
    { intros k. subst kept.
      destruct (attrs !! "barrier") as [b|] eqn:Hb,
               (attrs !! "name") as [n|] eqn:Hnm;
        case_bool_decide as Hd;
        try (destruct Hd as [-> | ->]);
        simplify_map_eq; try done;
        repeat (rewrite lookup_insert_ne by (intros ->; tauto));
        by rewrite ?lookup_empty. }
    exists {| graph := graph g; node := <[task_id := kept]> (node g);
              edges := edges g |}, kept.
    cbn. split; [reflexivity|]. split; [by rewrite lookup_insert_eq|].
    split; [exact Hk|]. split.
    { rewrite Hk. by case_bool_decide as Hd; [destruct Hd|]. }
    repeat split. intros other Hne. by rewrite lookup_insert_ne.
  - intros Hn. unfold reset_task, bind, get, raise. cbn. by rewrite Hn.
Qed.

End TaskUpdates.

(** C3 on the sample graph: [t3] is not a task; [t1], running, may not go
    to [requested]; it may go to [succeeded], and a note given with the
    new state is merged in. *)
Lemma update_task_validates_then_merges_witness :
  update_task "t3" {["note" := VStr "y"]} Sample.two_tasks
    = (Raise (TaskDoesNotExist "t3"), Sample.two_tasks) ∧
  update_task "t1" {["state" := VStr "requested"]} Sample.two_tasks
    = (Raise (InvalidStateTransition (VStr "running") (VStr "requested")),
       Sample.two_tasks) ∧
  ∃ g' attrs',
    update_task "t1" {["state" := VStr "succeeded"; "note" := VStr "y"]} Sample.two_tasks
      = (Ok tt, g') ∧
    node g' !! "t1" = Some attrs' ∧
    attrs' !! "state" = Some (VStr "succeeded") ∧
    attrs' !! "note" = Some (VStr "y") ∧
    attrs' !! "name" = Some (VStr "first").
Proof.
  split; [|split].
  - apply (update_task_validates_then_merges Sample.two_tasks "t3"
             {["note" := VStr "y"]}). reflexivity.
  - refine (proj1 (proj2 (update_task_validates_then_merges Sample.two_tasks "t1"
                             {["state" := VStr "requested"]})
                     {["name" := VStr "first"; "state" := VStr "running";
                       "barrier" := VInt 2; "note" := VStr "x"]} _) _);
      reflexivity.
  - destruct (update_task_validates_then_merges Sample.two_tasks "t1"
                {["state" := VStr "succeeded"; "note" := VStr "y"]}) as [_ H].
    destruct (H {["name" := VStr "first"; "state" := VStr "running";
                  "barrier" := VInt 2; "note" := VStr "x"]} eq_refl) as [_ H'].
    destruct (H' eq_refl) as (g' & attrs' & Hrun & _ & _ & _ & Hn & Hk).
    exists g', attrs'. rewrite !Hk. repeat split; assumption.
Defined.

(** C3 fails as stated: a call that gives no [state] is validated all the
    same.  On the sample machine, which has no transition from [running]
    to no state, giving only a note to the running task [t1] raises
    [InvalidStateTransition] and merges nothing. *)
Lemma update_task_without_state_is_validated :
  ({["note" := VStr "y"]} : gmap string value) !! "state" = None ∧
  update_task "t1" {["note" := VStr "y"]} Sample.two_tasks
    = (Raise (InvalidStateTransition (VStr "running") VNone), Sample.two_tasks).
Proof. split; reflexivity. Qed.


(** C6 on the sample graph: after the reset [t1] has its name and its
    barrier, and neither its state nor its note; the transition into [t2]
    is still marked satisfied. *)
Lemma reset_task_keeps_name_and_barrier_witness :
  (∃ g' attrs',
     reset_task "t1" Sample.two_tasks = (Ok tt, g') ∧
     node g' !! "t1" = Some attrs' ∧
     attrs' !! "name" = Some (VStr "first") ∧
     attrs' !! "barrier" = Some (VInt 2) ∧
     attrs' !! "state" = None ∧
     attrs' !! "note" = None ∧
     edges g' = edges Sample.two_tasks) ∧
  reset_task "t3" Sample.two_tasks = (Raise (TaskDoesNotExist "t3"), Sample.two_tasks).
Proof.
  destruct (reset_task_keeps_name_and_barrier Sample.two_tasks "t1") as [H _].
  destruct (H {["name" := VStr "first"; "state" := VStr "running";
                "barrier" := VInt 2; "note" := VStr "x"]} eq_refl)
    as (g' & attrs' & Hrun & Hn & Hk & Hs & He & _).
  split.
  - exists g', attrs'. rewrite !Hk. repeat split; assumption.
  - apply (reset_task_keeps_name_and_barrier Sample.two_tasks "t3"). reflexivity.
Defined.

(** ** Looking a transition up *)

Section Transitions.

Context `{St : States}.

Lemma transition_matches_spec (source destination : string) (key : option Z)
    (criteria : value) (e : edge) :
  transition_matches source destination key criteria e = true ↔
  e_u e = source ∧ e_v e = destination ∧
  (py_eq (dict_get (e_data e) "criteria" VNone) criteria = true ∨
   key = Some (e_key e)).
Proof.
  unfold transition_matches, key_eq.
  rewrite !andb_true_iff, orb_true_iff, !String.eqb_eq.
  destruct key as [k|].
  - rewrite Z.eqb_eq. intuition congruence.
  - intuition congruence.
Qed.

Lemma get_transition_cases (source destination : string) (key : option Z)
    (criteria : value) (g : MultiDiGraph) :
  get_transition source destination key criteria g =
  match filter (transition_matches source destination key criteria) (edges g) with
  | [] => (Raise TransitionDoesNotExist, g)
  | [seq] => (Ok seq, g)
  | _ :: _ :: _ => (Raise MoreThanOneTransition, g)
  end.
Proof.
  unfold get_transition, bind, get, raise, ret. cbn.
  by destruct (filter _ _) as [|? [|? ?]].
Qed.

End Transitions.



(** ** Validation through the registry *)

Section Validation.

Variable get_evaluators : list (string * Expressions.Evaluator).
Variable format_error : value → value → string → value.

Let validate := Expressions.validate get_evaluators format_error.
Let matching := Expressions.matching get_evaluators.

(** An evaluator is among the matching ones exactly when it is
    registered and its detection predicate accepts the statement. *)
Lemma matching_spec (statement : string) (ev : Expressions.Evaluator) :
  ev ∈ matching statement ↔
  ∃ name, (name, ev) ∈ get_evaluators ∧
          Expressions.has_expressions ev statement = true.
Proof.
  unfold matching, Expressions.matching.
  rewrite list_elem_of_fmap. split.
  - intros ([name ev'] & -> & Hin). apply list_elem_of_filter in Hin as [Hp Hin].
    exists name. split; [exact Hin|]. cbn in Hp. by destruct (Expressions.has_expressions _ _).
  - intros (name & Hin & Hp). exists (name, ev). split; [reflexivity|].
    apply list_elem_of_filter. split; [|exact Hin]. cbn. by rewrite Hp.
Qed.

(** C4: on a string, [validate] reports nothing when no registered
    evaluator detects an expression in it, reports what the evaluator
    reports when exactly one does, and reports one single error, the
    multiple-types one, when more than one does; on a mapping it
    concatenates the errors of each key and each value, on a sequence
    those of each element, in iteration order. *)
Theorem validate_dispatch :
  (∀ s, matching s = [] → Expressions.errors (validate (VStr s)) = []) ∧
  (∀ s ev, matching s = [ev] →
     Expressions.errors (validate (VStr s)) = Expressions.ev_validate ev s) ∧
  (∀ s, (1 < length (matching s))%nat →
     Expressions.errors (validate (VStr s))
     = [format_error VNone (VStr s)
          "Expression with multiple types is not supported."]) ∧
  (∀ kv, Expressions.errors (validate (VDict kv))
         = concat (map (fun p => Expressions.errors (validate (fst p)) ++
                                 Expressions.errors (validate (snd p))) kv)) ∧
  (∀ l, Expressions.errors (validate (VList l))
        = concat (map (fun item => Expressions.errors (validate item)) l)).
Proof.
  unfold validate, matching. repeat split.
  - intros s Hm. cbn. unfold Expressions.validate_string. by rewrite Hm.
  - intros s ev Hm. cbn. unfold Expressions.validate_string. by rewrite Hm.
  - intros s Hm. cbn. unfold Expressions.validate_string.
    destruct (Expressions.matching get_evaluators s) as [|? [|? ?]];
      cbn in Hm; [lia|lia|reflexivity].
  - intros kv. cbn. by rewrite flat_map_concat_map.
  - intros l. cbn. by rewrite flat_map_concat_map.
Qed.

End Validation.

(** C4 on the sample registry: plain text, a statement only the [angle]
    evaluator detects, and a statement both evaluators detect. *)
Lemma validate_dispatch_witness :
  Expressions.errors (Expressions.validate Sample.evaluators Sample.format_error
                        (VStr "plain")) = [] ∧
  Expressions.errors (Expressions.validate Sample.evaluators Sample.format_error
                        (VStr "<% x %>"))
    = [Sample.error_of "angle" "<% x %>"] ∧
  Expressions.errors (Expressions.validate Sample.evaluators Sample.format_error
                        (VStr "<% x %> {{ y }}"))
    = [Sample.format_error VNone (VStr "<% x %> {{ y }}")
         "Expression with multiple types is not supported."].
Proof.
  destruct (validate_dispatch Sample.evaluators Sample.format_error)
    as (H0 & H1 & H2 & _).
  split; [|split].
  - apply H0. reflexivity.
  - apply (H1 "<% x %>" Sample.angle). reflexivity.
  - apply H2. vm_compute. lia.
Defined.

(** ** The order of the transitions *)

Section Sorting.

Context {A : Type} (key : A → string).

Lemma ltb_false_leb (s1 s2 : string) :
  String.ltb s1 s2 = false → String.leb s2 s1 = true.
Proof.
  unfold String.ltb, String.leb. rewrite (String.compare_antisym s1 s2).
  by destruct (String.compare s2 s1).
Qed.

Lemma ltb_true_leb (s1 s2 : string) :
  String.ltb s1 s2 = true → String.leb s1 s2 = true.
Proof.
  unfold String.ltb, String.leb. by destruct (String.compare s1 s2).
Qed.

Lemma ltb_irrefl (s : string) : String.ltb s s = false.
Proof.
  unfold String.ltb. pose proof (String.compare_antisym s s) as H.
  by destruct (String.compare s s).
Qed.

Lemma insert_sorted_perm (x : A) (l : list A) :
  insert_sorted key x l ≡ₚ x :: l.
Proof.
  induction l as [|y l IH]; cbn; [done|].
  destruct (String.ltb (key y) (key x)); [|done].
  rewrite IH. apply Permutation_swap.
Qed.

Lemma sorted_perm (l : list A) : sorted l key ≡ₚ l.
Proof.
  induction l as [|x l IH]; cbn; [done|].
  fold (sorted l key). by rewrite insert_sorted_perm, IH.
Qed.

Lemma insert_sorted_hd (x y : A) (l : list A) :
  key_le key y x → HdRel (key_le key) y l → HdRel (key_le key) y (insert_sorted key x l).
Proof.
  intros Hyx Hl. destruct l as [|z l]; cbn.
  - by constructor.
  - destruct (String.ltb (key z) (key x)); constructor; [|done].
    by inversion Hl.
Qed.

Lemma insert_sorted_Sorted (x : A) (l : list A) :
  Sorted (key_le key) l → Sorted (key_le key) (insert_sorted key x l).
Proof.
  induction 1 as [|y l Hs IH Hhd]; cbn.
  - by repeat constructor.
  - destruct (String.ltb (key y) (key x)) eqn:Hlt.
    + constructor; [exact IH|].
      apply insert_sorted_hd; [|exact Hhd]. by apply ltb_true_leb.
    + constructor; [by constructor|]. constructor. by apply ltb_false_leb.
Qed.

Lemma sorted_Sorted (l : list A) : Sorted (key_le key) (sorted l key).
Proof.
  induction l as [|x l IH]; cbn; [constructor|].
  by apply insert_sorted_Sorted.
Qed.

(** Sorting on a key that is the same for every element changes
    nothing. *)
Lemma sorted_constant_key (k : string) (l : list A) :
  Forall (fun a => key a = k) l → sorted l key = l.
Proof.
  induction 1 as [|x l Hx Hl IH]; cbn; [done|].
  fold (sorted l key). rewrite IH.
  destruct Hl as [|y l Hy Hl]; cbn; [done|].
  by rewrite Hx, Hy, ltb_irrefl.
Qed.

End Sorting.

Section TransitionOrder.

Context `{St : States}.

(** The outgoing transitions come sorted by destination: each one's
    destination is at most the next one's, and they are the edges out of
    the task, no more and no less. *)
Lemma get_next_transitions_sorted (g : MultiDiGraph) (task_id : string) :
  Sorted (key_le e_v) (get_next_transitions g task_id) ∧
  get_next_transitions g task_id ≡ₚ out_edges g task_id ∧
  Forall (fun e => e_u e = task_id) (get_next_transitions g task_id).
Proof.
  unfold get_next_transitions. split; [apply sorted_Sorted|].
  split; [apply sorted_perm|].
  rewrite sorted_perm. unfold out_edges.
  destruct (has_node g task_id); [|constructor].
  apply Forall_forall. intros e He.
  apply list_elem_of_filter in He as [He _].
  apply String.eqb_eq. by destruct (String.eqb (e_u e) task_id).
Qed.

(** The incoming transitions are sorted on [x[1]] too, which for an
    incoming edge is the task itself: the sort moves nothing and the
    result is the order in which the graph yields them. *)
Lemma get_prev_transitions_unsorted (g : MultiDiGraph) (task_id : string) :
  get_prev_transitions g task_id = in_edges g task_id.
Proof.
  unfold get_prev_transitions. apply (sorted_constant_key e_v task_id).
  unfold in_edges. destruct (has_node g task_id); [|constructor].
  apply Forall_forall. intros e He.
  apply list_elem_of_filter in He as [He _].
  apply String.eqb_eq. by destruct (String.eqb (e_v e) task_id).
Qed.

End TransitionOrder.

(** C7 at its failing input: on the graph where the transition from [b]
    into [d] was added before the one from [a], [get_prev_transitions]
    returns them with the sources in the order [b], [a], which is not
    sorted by the neighbouring task; [get_next_transitions] on three
    transitions added to [z], [x], [y] returns them in the order [x],
    [y], [z]. *)
Theorem get_prev_transitions_not_sorted_by_source :
  map e_u (get_prev_transitions Sample.fan_in "d") = ["b"; "a"] ∧
  ¬ Sorted (key_le e_u) (get_prev_transitions Sample.fan_in "d") ∧
  map e_v (get_next_transitions Sample.fan_out "a") = ["x"; "y"; "z"].
Proof.
  split; [vm_compute; reflexivity|]. split; [|vm_compute; reflexivity].
  intros Hs.
  assert (Hg : ∃ e1 e2, get_prev_transitions Sample.fan_in "d" = [e1; e2] ∧
                        e_u e1 = "b" ∧ e_u e2 = "a").
  { eexists _, _. split; [vm_compute; reflexivity|]. split; reflexivity. }
  destruct Hg as (e1 & e2 & Hg & H1 & H2). rewrite Hg in Hs.
  inversion Hs as [|? ? _ Hhd]; subst. inversion Hhd as [|? ? Hle]; subst.
  unfold key_le in Hle. rewrite H1, H2 in Hle. discriminate Hle.
Qed.

(** ** Serialization *)

(** C5 at its failing input: a workflow that has been set running and has
    no task yet.  networkx's document and its reader give the graph back
    with its state, but [deserialize] hands the graph to the constructor,
    which tests [graph if graph else nx.MultiDiGraph()]: a graph without
    nodes counts as false there and a fresh graph takes its place, so the
    state [running] comes back as no state. *)
Theorem deserialize_serialize_drops_state :
  state Sample.started = VStr "running" ∧
  json_graph.adjacency_graph (serialize Sample.started) = Ok Sample.started ∧
  deserialize (serialize Sample.started) = Ok empty_graph ∧
  state empty_graph = VNone.
Proof. repeat split; vm_compute; reflexivity. Qed.

(** ** The barrier in [get_next_tasks] *)

Section BarrierJoin.

Context `{St : States}.
Variable merge_dicts : value → value → bool → value.
Variable get_evaluators : list (string * Expressions.Evaluator).

Lemma below_barrier_check (next_task_id : string) (g : MultiDiGraph) :
  below_barrier next_task_id g = (barrier_check g next_task_id, g).
Proof.
  unfold below_barrier, has_barrier, get_barrier, get_task, barrier_check,
    bind, get, ret, raise, lift, satisfied_inbounds. cbn.
  destruct (node g !! next_task_id) as [attrs|] eqn:Hn; [|reflexivity]. cbn.
  assert (Hb : dict_get (attrs ∪ {["id" := VStr next_task_id]}) "barrier" VNone
               = dict_get attrs "barrier" VNone).
  { unfold dict_get. rewrite lookup_union, lookup_singleton_ne by discriminate.
    by destruct (attrs !! "barrier"). }
  rewrite Hb.
  destruct (negb (py_eq _ VNone) && negb (py_eq _ (VStr ""))); [|reflexivity].
  cbn. rewrite Hn. cbn. rewrite Hb. reflexivity.
Qed.

Lemma evolves_refl (D : string → Prop) (g : MultiDiGraph) : evolves D g g.
Proof.
  repeat split. exists (fun e => e). by rewrite map_id.
Qed.

Lemma evolves_weaken (D D' : string → Prop) (g g' : MultiDiGraph) :
  (∀ d, D d → D' d) → evolves D g g' → evolves D' g g'.
Proof.
  intros HD (Hn & Hg & f & He & Hf & Hm & Hid).
  repeat split; [done..|]. exists f. repeat split; try done; try apply Hf.
  intros e He'. apply Hid. intros Hd. by apply He', HD.
Qed.

Lemma evolves_trans (D : string → Prop) (g1 g2 g3 : MultiDiGraph) :
  evolves D g1 g2 → evolves D g2 g3 → evolves D g1 g3.
Proof.
  intros (Hn & Hg & f & He & Hf & Hm & Hid) (Hn' & Hg' & f' & He' & Hf' & Hm' & Hid').
  repeat split; [congruence..|]. exists (fun e => f' (f e)). repeat split.
  - by rewrite He', He, map_map.
  - destruct (Hf' (f e)) as (-> & _), (Hf e) as (-> & _). done.
  - destruct (Hf' (f e)) as (_ & -> & _), (Hf e) as (_ & -> & _). done.
  - destruct (Hf' (f e)) as (_ & _ & ->), (Hf e) as (_ & _ & ->). done.
  - intros e H. by apply Hm', Hm.
  - intros e H. rewrite (Hid e H). by apply Hid'.
Qed.

Lemma in_edges_map (f : edge → edge) (d : string) (l : list edge) :
  (∀ e, e_v (f e) = e_v e) →
  filter (fun e => String.eqb (e_v e) d) (map f l)
  = map f (filter (fun e => String.eqb (e_v e) d) l).
Proof.
  intros Hf. induction l as [|e l IH]; [done|].
  change (map f (e :: l)) with (f e :: map f l).
  rewrite !filter_cons, Hf, IH.
  by destruct (decide _).
Qed.

Lemma evolves_prev (D : string → Prop) (g g' : MultiDiGraph) (d : string) :
  evolves D g g' →
  ∃ f, get_prev_transitions g' d = map f (get_prev_transitions g d) ∧
       (∀ e, marked e = true → marked (f e) = true) ∧
       (¬ D d → get_prev_transitions g' d = get_prev_transitions g d).
Proof.
  intros (Hn & Hg & f & He & Hf & Hm & Hid). exists f.
  rewrite !get_prev_transitions_unsorted. unfold in_edges, has_node.
  rewrite Hn, He.
  destruct (bool_decide (is_Some (node g !! d))); [|by repeat split].
  rewrite in_edges_map by (intros e; apply Hf).
  repeat split; [done|]. intros HD. clear He.
  induction (edges g) as [|e l IH]; [done|]. rewrite filter_cons.
  destruct (decide _) as [Hd|Hd]; [|exact IH].
  change (map f (e :: filter (fun e => String.eqb (e_v e) d) l))
    with (f e :: map f (filter (fun e => String.eqb (e_v e) d) l)).
  rewrite IH. f_equal.
  apply Hid. intros HDe. apply HD.
  assert (e_v e = d) as <-; [|done].
  apply String.eqb_eq. by destruct (String.eqb (e_v e) d).
Qed.

Lemma marked_count_map (f : edge → edge) (l : list edge) :
  (∀ e, marked e = true → marked (f e) = true) →
  (length (filter marked l) ≤ length (filter marked (map f l)))%nat.
Proof.
  intros Hm. induction l as [|e l IH]; [done|].
  change (map f (e :: l)) with (f e :: map f l). rewrite !filter_cons.
  destruct (decide (marked e)) as [He|He].
  - assert (marked (f e) = true) as Hfe
      by (apply Hm; by destruct (marked e)).
    rewrite decide_True by (by rewrite Hfe). cbn. lia.
  - destruct (decide (marked (f e))); cbn; lia.
Qed.

(** Once a destination passes the barrier test it keeps passing it while
    the graph evolves, and the test does not change for a destination
    whose inbound transitions are not written. *)
Lemma barrier_check_stable (D : string → Prop) (g g' : MultiDiGraph) (d : string) :
  evolves D g g' → barrier_check g d = Ok false → barrier_check g' d = Ok false.
Proof.
  intros Hev. destruct (evolves_prev D g g' d Hev) as (f & Hp & Hm & _).
  destruct Hev as (Hn & _). unfold barrier_check, satisfied_inbounds.
  rewrite Hn, Hp, length_map.
  destruct (node g !! d) as [attrs|]; [|done].
  cbn. destruct (negb _ && negb _); [|done].
  pose proof (marked_count_map f (get_prev_transitions g d) Hm) as Hc.
  destruct (py_eq _ (VStr "*")).
  - cbn. intros [= Hlt]. f_equal. lia.
  - destruct (dict_get attrs "barrier" VNone); cbn; try done.
    + intros [= Hlt]. f_equal. lia.
    + intros [= Hlt]. f_equal. lia.
Qed.

Lemma barrier_check_frame (D : string → Prop) (g g' : MultiDiGraph) (d : string) :
  evolves D g g' → ¬ D d → barrier_check g' d = barrier_check g d.
Proof.
  intros Hev HD. destruct (evolves_prev D g g' d Hev) as (f & _ & _ & Hp).
  destruct Hev as (Hn & _). unfold barrier_check, satisfied_inbounds.
  by rewrite Hn, (Hp HD).
Qed.

(** Marking a transition into [v] writes only transitions into [v]. *)
Lemma update_transition_evolves (u v : string) (key : option Z)
    (g g1 : MultiDiGraph) :
  update_transition u v key {["satisfied" := VBool true]} g = (Ok tt, g1) →
  evolves (fun d => d = v) g g1.
Proof.
  unfold update_transition, bind. rewrite get_transition_cases.
  destruct (filter _ _) as [|seq [|? ?]]; [done| |done].
  cbn. intros [= <-]. repeat split. eexists. split; [reflexivity|].
  repeat split; try (by destruct (same_edge _ _ _ _)).
  - intros e He. destruct (same_edge _ _ _ _); [|done].
    unfold marked, dict_get. cbn.
    by rewrite lookup_union, lookup_singleton_eq, union_Some_l.
  - intros e He. unfold same_edge.
    destruct (String.eqb_spec (e_v e) v) as [Heq|_]; [by destruct He|].
    by rewrite andb_false_r.
Qed.

(** One turn of the second loop of [get_next_tasks]. *)
Lemma collect_cons (task_id : string) (seq : edge) (outbounds : list edge)
    (tasks : list task_ref) (g : MultiDiGraph) :
  collect task_id (seq :: outbounds) tasks g =
  match (if negb (truthy (dict_get (live_data g seq) "satisfied" (VBool false)))
         then update_transition task_id (e_v seq) (Some (e_key seq))
                {["satisfied" := VBool true]} g
         else (Ok tt, g)) with
  | (Raise e, g1) => (Raise e, g1)
  | (Ok _, g1) =>
      match barrier_check g1 (e_v seq) with
      | Raise e => (Raise e, g1)
      | Ok true => collect task_id outbounds tasks g1
      | Ok false =>
          match node g1 !! e_v seq with
          | None => (Raise (TaskDoesNotExist (e_v seq)), g1)
          | Some attrs =>
              match getitem (attrs ∪ {["id" := VStr (e_v seq)]}) "name" with
              | Raise e => (Raise e, g1)
              | Ok name =>
                  collect task_id outbounds
                    (tasks ++ [{| t_id := e_v seq; t_name := name |}]) g1
              end
          end
      end
  end.
Proof.
  cbn [collect]. unfold bind at 1. unfold get at 1. unfold bind at 1.
  destruct (negb _).
  - destruct (update_transition _ _ _ _ g) as [[[]|e] g1]; [|reflexivity].
    unfold bind at 1. rewrite below_barrier_check.
    destruct (barrier_check g1 (e_v seq)) as [[|]|e]; [reflexivity| |reflexivity].
    unfold bind, get_task, get, ret, raise, lift. cbn.
    destruct (node g1 !! e_v seq); [|reflexivity].
    by destruct (getitem _ _).
  - unfold ret at 1. unfold bind at 1. rewrite below_barrier_check.
    destruct (barrier_check g (e_v seq)) as [[|]|e]; [reflexivity| |reflexivity].
    unfold bind, get_task, get, ret, raise, lift. cbn.
    destruct (node g !! e_v seq); [|reflexivity].
    by destruct (getitem _ _).
Qed.

(** The second loop as a whole: it writes only transitions into the
    destinations it goes through, it appends tasks for such destinations
    only, and a destination it goes through is among the appended tasks
    exactly when it passes the barrier test on the graph the loop leaves
    behind. *)
Lemma collect_spec (task_id : string) (outbounds : list edge) :
  ∀ (g : MultiDiGraph) (tasks : list task_ref) (g' : MultiDiGraph)
    (tasks' : list task_ref),
    collect task_id outbounds tasks g = (Ok tasks', g') →
    evolves (fun d => d ∈ map e_v outbounds) g g' ∧
    ∃ new, tasks' = tasks ++ new ∧
           (∀ d, d ∈ map t_id new → d ∈ map e_v outbounds) ∧
           (∀ d, d ∈ map e_v outbounds →
                 (d ∈ map t_id new ↔ barrier_check g' d = Ok false)).
Proof.
  induction outbounds as [|seq outbounds IH]; intros g tasks g' tasks' Hrun.
  - cbn in Hrun. injection Hrun as <- <-. split; [apply evolves_refl|].
    exists []. rewrite app_nil_r. repeat split; cbn; intros; by set_solver.
  - rewrite collect_cons in Hrun.
    set (step := if negb _ then _ else _) in Hrun.
    assert (Hstep : ∀ u g1, step = (Ok u, g1) → evolves (fun d => d = e_v seq) g g1).
    { subst step. intros [] g1. destruct (negb _).
      - apply update_transition_evolves.
      - intros [= <-]. apply evolves_refl. }
    destruct step as [[[]|e] g1]; [|done]. specialize (Hstep tt g1 eq_refl).
    assert (Hw1 : evolves (fun d => d ∈ map e_v (seq :: outbounds)) g g1).
    { eapply evolves_weaken; [|exact Hstep]. intros d ->. cbn. set_solver. }
    destruct (barrier_check g1 (e_v seq)) as [[|]|e] eqn:Hchk; [| |done].
    + (* the destination is skipped on this turn *)
      destruct (IH _ _ _ _ Hrun) as (Hev & new & -> & Hsub & Hiff).
      split.
      { eapply evolves_trans; [exact Hw1|].
        eapply evolves_weaken; [|exact Hev]. intros d Hd. cbn. set_solver. }
      exists new. split; [done|]. split.
      { intros d Hd. cbn. apply Hsub in Hd. set_solver. }
      intros d Hd.
      destruct (decide (d ∈ map e_v outbounds)) as [Hin|Hout]; [by apply Hiff|].
      assert (d = e_v seq) as -> by (cbn in Hd; set_solver).
      rewrite (barrier_check_frame _ _ _ _ Hev Hout), Hchk.
      split; [|done]. intros Hd'. by apply Hsub in Hd'.
    + (* the destination is appended on this turn *)
      destruct (node g1 !! e_v seq) as [attrs|]; [|done].
      destruct (getitem _ _) as [name|e]; [|done].
      destruct (IH _ _ _ _ Hrun) as (Hev & new & -> & Hsub & Hiff).
      split.
      { eapply evolves_trans; [exact Hw1|].
        eapply evolves_weaken; [|exact Hev]. intros d Hd. cbn. set_solver. }
      exists ({| t_id := e_v seq; t_name := name |} :: new).
      split; [by rewrite <- app_assoc|]. split.
      { intros d Hd. cbn in Hd |- *. apply elem_of_cons in Hd as [->|Hd].
        - set_solver.
        - apply Hsub in Hd. set_solver. }
      intros d Hd. cbn [map t_id].
      destruct (decide (d = e_v seq)) as [->|Hne].
      * split; [|intros _; set_solver]. intros _.
        by apply (barrier_check_stable _ _ _ _ Hev).
      * assert (d ∈ map e_v outbounds) as Hin by (cbn in Hd; set_solver).
        rewrite <- (Hiff d Hin). set_solver.
Qed.

(** The first loop keeps exactly the transitions that fire. *)
Lemma select_outbounds_spec (context : value) (seqs outbounds : list edge) :
  select_outbounds get_evaluators context seqs = Ok outbounds →
  ∀ seq, seq ∈ outbounds ↔
         seq ∈ seqs ∧ fires get_evaluators context seq = Ok true.
Proof.
  revert outbounds. induction seqs as [|s seqs IH]; intros outbounds Hsel seq.
  - injection Hsel as <-. set_solver.
  - cbn in Hsel. destruct (fires get_evaluators context s) as [b|] eqn:Hf; [|done].
    cbn in Hsel.
    destruct (select_outbounds get_evaluators context seqs) as [rest|]; [|done].
    cbn in Hsel. injection Hsel as <-. specialize (IH rest eq_refl seq).
    destruct b.
    + rewrite !elem_of_cons, IH. split.
      * intros [->|[? ?]]; split; auto.
      * intros [[->|?] ?]; auto.
    + rewrite elem_of_cons, IH. split.
      * intros [? ?]; auto.
      * intros [[->|?] Hs]; [congruence|auto].
Qed.

Lemma py_insert_perm {A} (key : A → value) (x : A) (l l' : list A) :
  py_insert key x l = Ok l' → l' ≡ₚ x :: l.
Proof.
  revert l'. induction l as [|y l IH]; intros l' Hi; cbn in Hi.
  - by injection Hi as <-.
  - destruct (py_lt _ _) as [[|]|]; cbn in Hi; [| |done].
    + destruct (py_insert key x l) as [r|]; [|done]. cbn in Hi.
      injection Hi as <-. rewrite (IH r eq_refl). apply Permutation_swap.
    + by injection Hi as <-.
Qed.

Lemma py_sorted_perm {A} (key : A → value) (l l' : list A) :
  py_sorted l key = Ok l' → l' ≡ₚ l.
Proof.
  revert l'. induction l as [|x l IH]; intros l' Hs; cbn in Hs.
  - by injection Hs as <-.
  - destruct (py_sorted l key) as [r|]; [|done]. cbn in Hs.
    rewrite (py_insert_perm _ _ _ _ Hs). by rewrite (IH r eq_refl).
Qed.

Lemma filter_all_length {A} (P : A → bool) (l : list A) :
  (length l ≤ length (filter P l))%nat ↔ Forall (fun x => P x = true) l.
Proof.
  induction l as [|x l IH]; [by split; [constructor|]|].
  rewrite filter_cons. pose proof (length_filter P l) as Hle.
  destruct (decide (P x)) as [Hx|Hx]; cbn.
  - rewrite Forall_cons, <- IH. destruct (P x); [|done]. split; [|intros [_ ?]]; lia.
  - split; [lia|]. intros HF. apply Forall_cons in HF as [Hx' _].
    by rewrite Hx' in Hx.
Qed.

(** The barrier test in the three configurations of the destination. *)
Lemma barrier_check_int (g : MultiDiGraph) (d : string)
    (attrs : gmap string value) (n : Z) :
  node g !! d = Some attrs → attrs !! "barrier" = Some (VInt n) →
  barrier_check g d = Ok false ↔
  n ≤ Z.of_nat (length (satisfied_inbounds g d)).
Proof.
  intros Hn Hb. unfold barrier_check, dict_get. rewrite Hn, Hb. cbn.
  split.
  - intros [= Hlt]. lia.
  - intros Hle. f_equal. lia.
Qed.

Lemma barrier_check_star (g : MultiDiGraph) (d : string)
    (attrs : gmap string value) :
  node g !! d = Some attrs → attrs !! "barrier" = Some (VStr "*") →
  barrier_check g d = Ok false ↔
  Forall (fun s => marked s = true) (get_prev_transitions g d).
Proof.
  intros Hn Hb. unfold barrier_check, dict_get, satisfied_inbounds.
  rewrite Hn, Hb. cbn. rewrite <- filter_all_length. split.
  - intros [= Hlt]. lia.
  - intros Hle. f_equal. lia.
Qed.

Lemma barrier_check_none (g : MultiDiGraph) (d : string)
    (attrs : gmap string value) :
  node g !! d = Some attrs → attrs !! "barrier" = None →
  barrier_check g d = Ok false.
Proof.
  intros Hn Hb. unfold barrier_check, dict_get. by rewrite Hn, Hb.
Qed.

(** What a successful call on a completed task went through. *)
Lemma get_next_tasks_completed (g g' : MultiDiGraph) (task_id : string)
    (context : value) (tasks : list task_ref)
    (tattrs : gmap string value) (st : value) :
  node g !! task_id = Some tattrs → tattrs !! "state" = Some st →
  py_in st COMPLETED_STATES = true →
  get_next_tasks merge_dicts get_evaluators task_id context g = (Ok tasks, g') →
  ∃ outbounds collected,
    select_outbounds get_evaluators (task_context merge_dicts g context)
      (get_next_transitions g task_id) = Ok outbounds ∧
    collect task_id outbounds [] g = (Ok collected, g') ∧
    py_sorted collected t_name = Ok tasks.
Proof.
  intros Hn Hs Hc.
  destruct (get_task_item g task_id tattrs "state" Hn) as (task & Ht & Hk);
    [discriminate|].
  unfold get_next_tasks, bind. rewrite Ht. cbn.
  unfold lift at 1, getitem at 1. rewrite Hk, Hs, Hc. cbn.
  destruct (select_outbounds _ _ _) as [outbounds|]; [|done]. cbn.
  destruct (collect task_id outbounds [] g) as [[collected|] g1] eqn:Hcol; [|done].
  unfold lift. intros [= Hsort <-]. by exists outbounds, collected.
Qed.

(** C1: when [get_next_tasks] returns for a completed task, take a
    transition out of the task that fired and the destination it leads
    to.  If the destination's barrier is an integer [n], the destination
    is in the result exactly when at least [n] of its inbound transitions
    are marked satisfied; if it is the wildcard ['*'], exactly when all of
    them are; if it has no barrier, it is in the result.  The marks are
    those the graph has when the call returns, the fired transitions of
    this call included. *)
Theorem get_next_tasks_barrier (g g' : MultiDiGraph) (task_id : string)
    (context : value) (tasks : list task_ref)
    (tattrs : gmap string value) (st : value) :
  node g !! task_id = Some tattrs → tattrs !! "state" = Some st →
  py_in st COMPLETED_STATES = true →
  get_next_tasks merge_dicts get_evaluators task_id context g = (Ok tasks, g') →
  ∀ (seq : edge) (attrs : gmap string value),
    seq ∈ get_next_transitions g task_id →
    fires get_evaluators (task_context merge_dicts g context) seq = Ok true →
    node g !! e_v seq = Some attrs →
    (∀ n, attrs !! "barrier" = Some (VInt n) →
          e_v seq ∈ map t_id tasks ↔
          n ≤ Z.of_nat (length (satisfied_inbounds g' (e_v seq)))) ∧
    (attrs !! "barrier" = Some (VStr "*") →
          e_v seq ∈ map t_id tasks ↔
          Forall (fun s => marked s = true) (get_prev_transitions g' (e_v seq))) ∧
    (attrs !! "barrier" = None → e_v seq ∈ map t_id tasks).
Proof.
  intros Hn Hs Hc Hrun seq attrs Hseq Hfire Hd.
  destruct (get_next_tasks_completed _ _ _ _ _ _ _ Hn Hs Hc Hrun)
    as (outbounds & collected & Hsel & Hcol & Hsort).
  destruct (collect_spec _ _ _ _ _ _ Hcol) as (Hev & new & Hnew & _ & Hiff).
  cbn in Hnew. subst new.
  assert (Hout : e_v seq ∈ map e_v outbounds).
  { apply list_elem_of_fmap. exists seq. split; [done|].
    by apply (select_outbounds_spec _ _ _ Hsel). }
  assert (Hin : e_v seq ∈ map t_id tasks ↔ barrier_check g' (e_v seq) = Ok false).
  { rewrite <- (Hiff _ Hout). by rewrite (py_sorted_perm _ _ _ Hsort). }
  assert (Hd' : node g' !! e_v seq = Some attrs) by (by destruct Hev as (-> & _)).
  split; [|split].
  - intros n Hb. rewrite Hin. by apply barrier_check_int with attrs.
  - intros Hb. rewrite Hin. by apply barrier_check_star with attrs.
  - intros Hb. apply Hin. by apply barrier_check_none with attrs.
Qed.

End BarrierJoin.

(** C1 on the sample graphs.  In the diamond, [B] has succeeded and [C]
    has not: [D], which waits for all its inbound transitions, is not
    among the next tasks of [B], and not all of them are marked.  In the
    three-way join, [d] waits for two transitions: after [a], the call
    for [b] marks the second one and returns [d]. *)
Lemma get_next_tasks_barrier_witness :
  ("D" ∈ map t_id ([] : list task_ref) ↔
   Forall (fun s => marked s = true)
     (get_prev_transitions
        (Sample.run (get_next_tasks Sample.merge_dicts Sample.evaluators "B" VNone)
           Sample.diamond) "D")) ∧
  ("d" ∈ map t_id [{| t_id := "d"; t_name := VStr "d" |}] ↔
   2 ≤ Z.of_nat (length (satisfied_inbounds
        (Sample.run (get_next_tasks Sample.merge_dicts Sample.evaluators "b" VNone)
           Sample.join2) "d"))).
Proof.
  split.
  - refine (proj1 (proj2
      (get_next_tasks_barrier Sample.merge_dicts Sample.evaluators
         Sample.diamond _ "B" VNone []
         {["name" := VStr "B"; "state" := VStr "succeeded"]} (VStr "succeeded")
         _ _ _ _
         {| e_u := "B"; e_v := "D"; e_key := 0;
            e_data := {["criteria" := VList []]} |}
         {["name" := VStr "D"; "barrier" := VStr "*"]} _ _ _)) _);
      try (vm_compute; reflexivity).
    apply list_elem_of_In. vm_compute. left. reflexivity.
  - refine (proj1
      (get_next_tasks_barrier Sample.merge_dicts Sample.evaluators
         Sample.join2 _ "b" VNone [{| t_id := "d"; t_name := VStr "d" |}]
         {["name" := VStr "b"; "state" := VStr "succeeded"]} (VStr "succeeded")
         _ _ _ _
         {| e_u := "b"; e_v := "d"; e_key := 0;
            e_data := {["criteria" := VList [VStr "<% ok %>"]]} |}
         {["name" := VStr "d"; "barrier" := VInt 2]} _ _ _) 2 _);
      try (vm_compute; reflexivity).
    apply list_elem_of_In. vm_compute. left. reflexivity.
Defined.

(** ** The round trip through the adjacency document *)

Section RoundTrip.

Context `{St : States}.




Lemma same_edge_id (u v : string) (k : Z) (e : edge) :
  same_edge u v k e = true ↔ edge_id e = (u, v, k).
Proof.
  unfold same_edge, edge_id.
  rewrite !andb_true_iff, !String.eqb_eq, Z.eqb_eq. split.
  - by intros [[-> ->] ->].
  - by intros [= -> -> ->].
Qed.







End RoundTrip.

(** The condition on the attribute names is needed: the document keeps
    the id of a node under ['id'], so a task attribute of that name does
    not come back. *)
Lemma deserialize_serialize_id_attribute :
  ∃ g', deserialize (serialize Sample.tagged) = Ok g' ∧
        node Sample.tagged !! "t" = Some {["id" := VStr "x"; "name" := VStr "t"]} ∧
        node g' !! "t" = Some {["name" := VStr "t"]}.
Proof. eexists. repeat split; vm_compute; reflexivity. Qed.

(** ** Induction on values *)

Lemma value_nested_ind (P : value → Prop) :
  P VNone → (∀ b, P (VBool b)) → (∀ z, P (VInt z)) → (∀ s, P (VStr s)) →
  (∀ l, Forall P l → P (VList l)) →
  (∀ kv, Forall (fun p => P (fst p) ∧ P (snd p)) kv → P (VDict kv)) →
  ∀ v, P v.
Proof.
  intros HN HB HI HS HL HD. fix IH 1. intros [ |b|z|s|l|kv].
  - exact HN.
  - apply HB.
  - apply HI.
  - apply HS.
  - apply HL. revert l. fix IHl 1. intros [|x l]; constructor.
    + apply IH.
    + apply IHl.
  - apply HD. revert kv. fix IHkv 1. intros [|[k v] kv]; constructor.
    + split; apply IH.
    + apply IHkv.
Qed.

(** ** The workflow state, adding a task, barriers *)

Section TaskLaws.

Context `{St : States}.

(** X1: the setter of [state] raises the value error for a value outside
    [ALL_STATES], before it looks at the transition, and
    [InvalidStateTransition] for a declared state that the state machine
    does not allow from the current one; in both cases the graph is
    untouched.  Otherwise it stores the value: the state read back is the
    value, and the tasks, the transitions and the other graph attributes
    are as before. *)
Theorem set_state_outcomes (g : MultiDiGraph) (v : value) :
  (py_in v ALL_STATES = false →
   set_state v g = (Raise (StateNotValid v), g)) ∧
  (py_in v ALL_STATES = true → is_transition_valid (state g) v = false →
   set_state v g = (Raise (InvalidStateTransition (state g) v), g)) ∧
  (py_in v ALL_STATES = true → is_transition_valid (state g) v = true →
   ∃ g', set_state v g = (Ok tt, g') ∧ state g' = v ∧
         node g' = node g ∧ edges g' = edges g ∧
         ∀ k, k ≠ "state" → graph g' !! k = graph g !! k).
Proof.
  split; [|split].
  - apply set_state_rejects.
  - apply set_state_rejects.
  - intros Hin Hv. unfold set_state, bind, get, put. cbn. rewrite Hin, Hv. cbn.
    eexists; split; [reflexivity|]. cbn. repeat split.
    + unfold state, dict_get. cbn. by rewrite lookup_insert_eq.
    + intros k Hk. by rewrite lookup_insert_ne.
Qed.


Lemma get_barrier_cases (g : MultiDiGraph) (task_id : string) :
  get_barrier task_id g =
  match node g !! task_id with
  | None => (Raise (TaskDoesNotExist task_id), g)
  | Some attrs => (Ok (dict_get attrs "barrier" VNone), g)
  end.
Proof.
  unfold get_barrier, get_task, bind, get, ret, raise. cbn.
  destruct (node g !! task_id) as [attrs|]; [|done]. cbn.
  unfold dict_get. rewrite lookup_union, lookup_singleton_ne by discriminate.
  by destruct (attrs !! "barrier").
Qed.

Lemma set_barrier_then_get (g g' : MultiDiGraph) (task_id : string) (v : value) :
  set_barrier task_id v g = (Ok tt, g') →
  get_barrier task_id g' = (Ok v, g') ∧
  has_barrier task_id g'
  = (Ok (negb (py_eq v VNone) && negb (py_eq v (VStr ""))), g') ∧
  edges g' = edges g ∧ graph g' = graph g ∧
  ∀ other, other ≠ task_id → get_barrier other g' = (fst (get_barrier other g), g').
Proof.
  unfold set_barrier. rewrite update_task_cases.
  destruct (node g !! task_id) as [attrs|] eqn:Hn; [|done].
  cbn. destruct (is_transition_valid _ _); [|done]. intros [= <-].
  assert (Hg : get_barrier task_id
                 {| graph := graph g;
                    node := <[task_id := {["barrier" := v]} ∪ attrs]> (node g);
                    edges := edges g |}
               = (Ok v, {| graph := graph g;
                    node := <[task_id := {["barrier" := v]} ∪ attrs]> (node g);
                    edges := edges g |})).
  { rewrite get_barrier_cases. cbn. rewrite lookup_insert_eq.
    unfold dict_get. by rewrite lookup_union, lookup_singleton_eq, union_Some_l. }
  split; [exact Hg|]. split.
  { unfold has_barrier, bind. rewrite Hg. reflexivity. }
  repeat split. intros other Hne. rewrite !get_barrier_cases. cbn.
  rewrite lookup_insert_ne by done. by destruct (node g !! other).
Qed.

(** X3: when [set_barrier] returns, [get_barrier] returns the value it
    stored, [has_barrier] holds unless that value is [None] or the empty
    string, and the barriers of the other tasks, the transitions and the
    graph attributes are unchanged.  On a task that does not exist it
    raises and leaves the graph; and since it goes through [update_task]
    without a state, it raises [InvalidStateTransition] when the state
    machine does not allow the state of the task to go to [None]. *)
Theorem set_barrier_outcomes (g : MultiDiGraph) (task_id : string) (v : value) :
  (∀ g', set_barrier task_id v g = (Ok tt, g') →
     get_barrier task_id g' = (Ok v, g') ∧
     has_barrier task_id g'
     = (Ok (negb (py_eq v VNone) && negb (py_eq v (VStr ""))), g') ∧
     edges g' = edges g ∧ graph g' = graph g ∧
     ∀ other, other ≠ task_id →
              get_barrier other g' = (fst (get_barrier other g), g')) ∧
  (node g !! task_id = None →
   set_barrier task_id v g = (Raise (TaskDoesNotExist task_id), g)) ∧
  (∀ attrs, node g !! task_id = Some attrs →
     is_transition_valid (dict_get attrs "state" VNone) VNone = false →
     set_barrier task_id v g
     = (Raise (InvalidStateTransition (dict_get attrs "state" VNone) VNone), g)).
Proof.
  split; [intros g'; apply set_barrier_then_get|].
  unfold set_barrier. rewrite update_task_cases. split.
  - by intros ->.
  - intros attrs -> Hv. cbn.
    assert (Hd : dict_get ({["barrier" := v]} : gmap string value) "state" VNone = VNone)
      by (unfold dict_get; by rewrite lookup_singleton_ne).
    by rewrite Hd, Hv.
Qed.

End TaskLaws.

(** X1 on the empty graph: a workflow without a state goes to running. *)
Lemma set_state_outcomes_witness :
  ∃ g', set_state (VStr "running") empty_graph = (Ok tt, g') ∧
        state g' = VStr "running" ∧
        node g' = node empty_graph ∧ edges g' = edges empty_graph ∧
        ∀ k, k ≠ "state" → graph g' !! k = graph empty_graph !! k.
Proof.
  apply (proj2 (proj2 (set_state_outcomes empty_graph (VStr "running"))));
    reflexivity.
Defined.


(** X3 on the sample graph: the barrier of [t2] is read back, and there
    is no task [t9]. *)
Lemma set_barrier_outcomes_witness :
  get_barrier "t2" (Sample.run (set_barrier "t2" (VStr "*")) Sample.two_tasks)
  = (Ok (VStr "*"), Sample.run (set_barrier "t2" (VStr "*")) Sample.two_tasks) ∧
  set_barrier "t9" (VStr "*") Sample.two_tasks
  = (Raise (TaskDoesNotExist "t9"), Sample.two_tasks).
Proof.
  split.
  - refine (proj1 (proj1 (set_barrier_outcomes Sample.two_tasks "t2" (VStr "*")) _ _)).
    vm_compute. reflexivity.
  - refine (proj1 (proj2 (set_barrier_outcomes Sample.two_tasks "t9" (VStr "*"))) _).
    vm_compute. reflexivity.
Defined.

(** ** Resetting a task *)

Section ResetLaws.

Context `{St : States}.
Variable merge_dicts : value → value → bool → value.
Variable get_evaluators : list (string * Expressions.Evaluator).

(** The attributes [reset_task] keeps. *)
Lemma reset_task_cases (g : MultiDiGraph) (task_id : string) :
  reset_task task_id g =
  match node g !! task_id with
  | None => (Raise (TaskDoesNotExist task_id), g)
  | Some attrs =>
      (Ok tt, {| graph := graph g;
                 node := <[task_id := filter (fun kv => fst kv = "name" ∨ fst kv = "barrier") attrs]>
                           (node g);
                 edges := edges g |})
  end.
Proof.
  unfold reset_task, bind, get, put, raise. cbn.
  destruct (node g !! task_id) as [attrs|]; [|done]. do 3 f_equal.
  apply map_eq. intros k. rewrite map_lookup_filter.
  destruct (decide (k = "barrier")) as [->|Hkb].
  { destruct (attrs !! "barrier") as [b|] eqn:Hb; cbn.
    - rewrite lookup_insert_eq. by rewrite option_guard_True by auto.
    - by destruct (attrs !! "name"); simplify_map_eq. }
  destruct (decide (k = "name")) as [->|Hkn].
  { destruct (attrs !! "name") as [n|] eqn:Hnm; cbn.
    - rewrite option_guard_True by auto.
      by destruct (attrs !! "barrier"); simplify_map_eq.
    - by destruct (attrs !! "barrier"); simplify_map_eq. }
  transitivity (@None value).
  - by destruct (attrs !! "barrier"), (attrs !! "name"); simplify_map_eq.
  - destruct (attrs !! k); cbn; [|done].
    by rewrite option_guard_False by (intros [?|?]; done).
Qed.

(** X4: resetting a task changes nothing that a join looks at: for every
    task, the barrier, the inbound transitions, those of them marked
    satisfied and the outcome of the barrier test are the same after the
    reset as before it.  In particular the marks on the transitions into
    the task that was reset stay. *)
Theorem reset_task_keeps_join (g g' : MultiDiGraph) (task_id : string) :
  reset_task task_id g = (Ok tt, g') →
  ∀ d, fst (get_barrier d g') = fst (get_barrier d g) ∧
       get_prev_transitions g' d = get_prev_transitions g d ∧
       satisfied_inbounds g' d = satisfied_inbounds g d ∧
       fst (below_barrier d g') = fst (below_barrier d g).
Proof.
  rewrite reset_task_cases.
  destruct (node g !! task_id) as [attrs|] eqn:Hn; [|done]. intros [= <-] d.
  set (g' := {| graph := graph g; node := _; edges := edges g |}).
  assert (Hb : fst (get_barrier d g') = fst (get_barrier d g)).
  { rewrite !get_barrier_cases. subst g'. cbn.
    destruct (decide (d = task_id)) as [->|Hne].
    - rewrite lookup_insert_eq, Hn. cbn. f_equal. unfold dict_get.
      rewrite map_lookup_filter. destruct (attrs !! "barrier"); cbn; [|done].
      by rewrite option_guard_True by auto.
    - rewrite lookup_insert_ne by done. by destruct (node g !! d). }
  assert (Hp : get_prev_transitions g' d = get_prev_transitions g d).
  { unfold get_prev_transitions, in_edges, has_node. subst g'. cbn.
    destruct (decide (d = task_id)) as [->|Hne].
    - rewrite lookup_insert_eq, Hn.
      by rewrite !bool_decide_eq_true_2 by eauto.
    - by rewrite lookup_insert_ne. }
  assert (Hs : satisfied_inbounds g' d = satisfied_inbounds g d)
    by (unfold satisfied_inbounds; by rewrite Hp).
  repeat split; try done.
  rewrite !below_barrier_check. cbn. unfold barrier_check.
  rewrite !get_barrier_cases in Hb. rewrite Hs, Hp.
  destruct (node g' !! d), (node g !! d); cbn in Hb; try done.
  by injection Hb as ->.
Qed.

(** X5: resetting a task a second time changes nothing, and a task that
    was reset has no state: asking for its next tasks raises
    [KeyError('state')] and leaves the graph. *)
Theorem reset_task_then (g g' : MultiDiGraph) (task_id : string) (context : value) :
  reset_task task_id g = (Ok tt, g') →
  reset_task task_id g' = (Ok tt, g') ∧
  get_next_tasks merge_dicts get_evaluators task_id context g'
  = (Raise (KeyError "state"), g').
Proof.
  rewrite reset_task_cases.
  destruct (node g !! task_id) as [attrs|] eqn:Hn; [|done]. intros [= <-]. split.
  - rewrite reset_task_cases. cbn [node graph edges].
    rewrite lookup_insert_eq, insert_insert_eq. do 3 f_equal.
    apply map_filter_id.
    intros k v Hk. by apply map_lookup_filter_Some in Hk as [_ ?].
  - set (kept := filter _ attrs).
    set (g' := {| graph := graph g; node := _; edges := edges g |}).
    destruct (get_task_item g' task_id kept "state") as (task & Ht & Hk);
      [apply lookup_insert_eq|discriminate|].
    unfold get_next_tasks, bind. rewrite Ht. cbn.
    unfold lift, getitem. rewrite Hk. subst kept.
    rewrite map_lookup_filter. destruct (attrs !! "state"); cbn; [|done].
    by rewrite option_guard_False by (intros [?|?]; done).
Qed.

End ResetLaws.

(** X4 on the diamond: resetting [D] keeps its barrier and the
    transitions into it. *)
Lemma reset_task_keeps_join_witness :
  fst (get_barrier "D" (Sample.run (reset_task "D") Sample.diamond))
  = fst (get_barrier "D" Sample.diamond) ∧
  get_prev_transitions (Sample.run (reset_task "D") Sample.diamond) "D"
  = get_prev_transitions Sample.diamond "D" ∧
  satisfied_inbounds (Sample.run (reset_task "D") Sample.diamond) "D"
  = satisfied_inbounds Sample.diamond "D" ∧
  fst (below_barrier "D" (Sample.run (reset_task "D") Sample.diamond))
  = fst (below_barrier "D" Sample.diamond).
Proof.
  apply (reset_task_keeps_join Sample.diamond _ "D").
  vm_compute. reflexivity.
Defined.

(** X5 on the diamond, for the task [A]. *)
Lemma reset_task_then_witness :
  reset_task "A" (Sample.run (reset_task "A") Sample.diamond)
  = (Ok tt, Sample.run (reset_task "A") Sample.diamond) ∧
  get_next_tasks Sample.merge_dicts Sample.evaluators "A" VNone
    (Sample.run (reset_task "A") Sample.diamond)
  = (Raise (KeyError "state"), Sample.run (reset_task "A") Sample.diamond).
Proof.
  apply (reset_task_then Sample.merge_dicts Sample.evaluators Sample.diamond _ "A" VNone).
  vm_compute. reflexivity.
Defined.

(** ** Adding and updating a transition *)

Section KeyLaws.

Lemma count_from_le (taken : list Z) (k : Z) :
  (length (filter (fun x : Z => (k + 1 ≤ x)%Z) taken) ≤ length (filter (fun x : Z => (k ≤ x)%Z) taken))%nat.
Proof.
  induction taken as [|x l IH]; [done|]. rewrite !filter_cons.
  destruct (decide (k + 1 ≤ x)), (decide (k ≤ x)); cbn; lia.
Qed.

Lemma count_from_lt (taken : list Z) (k : Z) :
  k ∈ taken →
  (length (filter (fun x : Z => (k + 1 ≤ x)%Z) taken) < length (filter (fun x : Z => (k ≤ x)%Z) taken))%nat.
Proof.
  induction taken as [|x l IH]; intros Hin; [by apply not_elem_of_nil in Hin|].
  rewrite !filter_cons. pose proof (count_from_le l k) as Hle.
  apply elem_of_cons in Hin as [<-|Hin].
  - rewrite decide_False by lia. rewrite decide_True by lia. cbn. lia.
  - specialize (IH Hin).
    destruct (decide (k + 1 ≤ x)), (decide (k ≤ x)); cbn; lia.
Qed.

(** The key that [add_edge] picks for a new parallel edge is not taken. *)
Lemma fresh_key_free (taken : list Z) (fuel : nat) :
  ∀ k, (length (filter (fun x : Z => (k ≤ x)%Z) taken) ≤ fuel)%nat →
       fresh_key taken k fuel ∉ taken.
Proof.
  induction fuel as [|fuel IH]; intros k Hc; cbn.
  - intros Hin. assert (k ∈ filter (fun x : Z => (k ≤ x)%Z) taken) as Hf
      by (apply list_elem_of_filter; split; [lia|done]).
    destruct (filter _ taken); [by apply not_elem_of_nil in Hf|cbn in Hc; lia].
  - destruct (existsb (Z.eqb k) taken) eqn:Hex.
    + apply IH. apply existsb_exists in Hex as (x & Hx & Heq).
      apply Z.eqb_eq in Heq as <-. apply list_elem_of_In in Hx.
      pose proof (count_from_lt taken k Hx). lia.
    + intros Hin. apply list_elem_of_In in Hin.
      assert (existsb (Z.eqb k) taken = true) as Ht; [|congruence].
      apply existsb_exists. exists k. split; [done|apply Z.eqb_refl].
Qed.

Lemma fresh_key_start_free (taken : list Z) :
  fresh_key taken (Z.of_nat (length taken)) (length taken) ∉ taken.
Proof. apply fresh_key_free, length_filter. Qed.

End KeyLaws.

Lemma py_eq_refl (v : value) : py_eq v v = true.
Proof.
  induction v as [ |b|z|s|l IH|kv IH] using value_nested_ind; cbn.
  - done.
  - by destruct b.
  - apply Z.eqb_refl.
  - apply String.eqb_refl.
  - induction IH as [|x l Hx _ IHl]; [done|]. by rewrite Hx, IHl.
  - rewrite Nat.eqb_refl. cbn.
    assert (Hgo : ∀ kv' : list (value * value),
      (∀ p, p ∈ kv' → p ∈ kv) →
      (fix go (x : list (value * value)) : bool :=
         match x with
         | [] => true
         | (k, v) :: x' =>
             existsb (fun kv' => py_eq k (fst kv') && py_eq v (snd kv')) kv && go x'
         end) kv' = true).
    { induction kv' as [|[k v] kv' IHkv]; intros Hsub; [done|].
      rewrite IHkv by (intros p Hp; apply Hsub; by right).
      rewrite andb_true_r. apply existsb_exists. exists (k, v).
      assert ((k, v) ∈ kv) as Hin by (apply Hsub; by left). split.
      - by apply list_elem_of_In.
      - cbn. apply andb_true_iff.
        rewrite Forall_forall in IH. by destruct (IH _ Hin). }
    by apply Hgo.
Qed.

Section TransitionLaws.

Context `{St : States}.

Lemma add_edge_new (g : MultiDiGraph) (u v : string) (attr : gmap string value) :
  is_Some (node g !! u) → is_Some (node g !! v) →
  ∃ k, add_edge g u v None attr
       = {| graph := graph g; node := node g;
            edges := edges g ++ [{| e_u := u; e_v := v; e_key := k; e_data := attr |}] |} ∧
       (u, v, k) ∉ map edge_id (edges g).
Proof.
  intros Hu Hv. unfold add_edge, touch_node.
  assert (Hhu : has_node g u = true) by (by apply bool_decide_eq_true).
  assert (Hhv : has_node g v = true) by (by apply bool_decide_eq_true).
  rewrite Hhu, Hhv. cbn zeta.
  set (k := fresh_key _ _ _).
  assert (Hk : (u, v, k) ∉ map edge_id (edges g)).
  { intros Hin. apply list_elem_of_fmap in Hin as (e & Heq & He).
    apply (fresh_key_start_free (keys_between g u v)). fold k.
    unfold keys_between. apply list_elem_of_fmap. exists e.
    injection Heq as Hu' Hv' Hk'. split; [done|].
    apply list_elem_of_filter. split; [|done].
    rewrite <- Hu', <- Hv', !String.eqb_refl. done. }
  exists k. split; [|done].
  destruct (existsb _ (edges g)) eqn:Hex; [|done].
  apply existsb_exists in Hex as (x & Hx & Hsame).
  apply same_edge_id in Hsame. destruct Hk.
  apply list_elem_of_fmap. exists x. split; [done|]. by apply list_elem_of_In.
Qed.

Lemma touch_node_spec (g : MultiDiGraph) (n : string) :
  graph (touch_node g n) = graph g ∧ edges (touch_node g n) = edges g ∧
  is_Some (node (touch_node g n) !! n) ∧
  (∀ m attrs, node g !! m = Some attrs → node (touch_node g n) !! m = Some attrs) ∧
  (∀ m, m ≠ n → node (touch_node g n) !! m = node g !! m).
Proof.
  unfold touch_node, has_node. case_bool_decide as Hn.
  - by repeat split.
  - assert (node g !! n = None) as Hnone
      by (destruct (node g !! n) eqn:E; [destruct Hn; eauto|done]).
    unfold add_node. cbn. rewrite Hnone. cbn. repeat split.
    + rewrite lookup_insert_eq. eauto.
    + intros m attrs Hm. rewrite lookup_insert_ne; [done|]. congruence.
    + intros m Hm. by rewrite lookup_insert_ne.
Qed.

Lemma add_transition_cases (source destination : string) (criteria : value)
    (g : MultiDiGraph) :
  add_transition source destination criteria g =
  let g2 := touch_node (touch_node g source) destination in
  match has_transition g source destination criteria with
  | [] => (Ok tt, add_edge g2 source destination None {["criteria" := criteria]})
  | [seq] =>
      update_transition source destination (Some (e_key seq))
        {["criteria" := criteria]} g2
  | _ :: _ :: _ => (Raise MoreThanOneTransition, g2)
  end.
Proof.
  assert (Hadd : ∀ g n, (if negb (has_task g n) then add_task n ∅ else ret tt) g
                        = (Ok tt, touch_node g n)).
  { intros g0 n. unfold touch_node, has_task.
    destruct (has_node g0 n) eqn:E; [done|]. cbn.
    unfold add_task, bind, get, put, has_task. cbn. by rewrite E. }
  unfold add_transition. unfold bind at 1. unfold get at 1.
  unfold bind at 1. rewrite Hadd.
  unfold bind at 1. unfold get at 1. unfold bind at 1. rewrite Hadd.
  unfold bind at 1. unfold get at 1. cbn zeta.
  assert (Hh : has_transition (touch_node (touch_node g source) destination)
                 source destination criteria
               = has_transition g source destination criteria).
  { unfold has_transition.
    destruct (touch_node_spec (touch_node g source) destination) as (_ & -> & _).
    by destruct (touch_node_spec g source) as (_ & -> & _). }
  rewrite Hh. by destruct (has_transition g source destination criteria) as [|? [|? ?]].
Qed.

Lemma update_edge_data_ids (u v : string) (k : Z) (kw : gmap string value)
    (es : list edge) :
  map edge_id (update_edge_data u v k kw es) = map edge_id es.
Proof.
  unfold update_edge_data. rewrite map_map. apply map_ext.
  intros e. by destruct (same_edge u v k e).
Qed.

Lemma update_transition_cases (source destination : string) (key : option Z)
    (kwargs : gmap string value) (g : MultiDiGraph) :
  update_transition source destination key kwargs g =
  match filter (transition_matches source destination key VNone) (edges g) with
  | [] => (Raise TransitionDoesNotExist, g)
  | [seq] =>
      (Ok tt, {| graph := graph g; node := node g;
                 edges := update_edge_data source destination (e_key seq) kwargs
                            (edges g) |})
  | _ :: _ :: _ => (Raise MoreThanOneTransition, g)
  end.
Proof.
  unfold update_transition, bind. rewrite get_transition_cases.
  by destruct (filter _ _) as [|? [|? ?]].
Qed.

Lemma unique_edge (g : MultiDiGraph) (e1 e2 : edge) :
  keys_unique g → e1 ∈ edges g → e2 ∈ edges g → edge_id e1 = edge_id e2 → e1 = e2.
Proof.
  unfold keys_unique. induction (edges g) as [|x l IH]; intros Hnd H1 H2 Hid.
  - by apply not_elem_of_nil in H1.
  - rewrite fmap_cons in Hnd. apply NoDup_cons in Hnd as [Hx Hnd].
    apply elem_of_cons in H1 as [->|H1], H2 as [->|H2]; auto.
    + destruct Hx. rewrite Hid. apply list_elem_of_fmap. by exists e2.
    + destruct Hx. rewrite <- Hid. apply list_elem_of_fmap. by exists e1.
Qed.

Lemma filter_none {A} (P : A → bool) (l : list A) :
  (∀ y, y ∈ l → P y = false) → filter P l = [].
Proof.
  induction l as [|y l IH]; intros Hall; [done|]. rewrite filter_cons.
  assert (Hy : P y = false) by (apply Hall; by left).
  rewrite decide_False by (rewrite Hy; intros []).
  apply IH. intros z Hz. apply Hall. by right.
Qed.

Lemma filter_only {A} (P : A → bool) (l : list A) (x : A) :
  NoDup l → x ∈ l → P x = true → (∀ y, y ∈ l → P y = true → y = x) →
  filter P l = [x].
Proof.
  induction l as [|y l IH]; intros Hnd Hx HP Hall.
  - by apply not_elem_of_nil in Hx.
  - apply NoDup_cons in Hnd as [Hy Hnd]. rewrite filter_cons.
    apply elem_of_cons in Hx as [->|Hx].
    + rewrite decide_True by (by rewrite HP). f_equal.
      apply filter_none. intros z Hz. destruct (P z) eqn:Hz'; [|done].
      destruct Hy. rewrite <- (Hall z); [done|by right|done].
    + rewrite decide_False.
      * apply IH; [done..|]. intros z Hz. apply Hall. by right.
      * intros HPy. destruct Hy. rewrite (Hall y); [done|by left|].
        by destruct (P y).
Qed.

Lemma keys_unique_NoDup (g : MultiDiGraph) : keys_unique g → NoDup (edges g).
Proof. apply NoDup_fmap_1. Qed.


Lemma matches_by_key (g : MultiDiGraph) (e : edge) :
  keys_unique g → e ∈ edges g →
  (∀ e', e' ∈ edges g → e_u e' = e_u e → e_v e' = e_v e → e' ≠ e →
         py_eq (dict_get (e_data e') "criteria" VNone) VNone = false) →
  filter (transition_matches (e_u e) (e_v e) (Some (e_key e)) VNone) (edges g) = [e].
Proof.
  intros Hu He Hcrit.
  apply filter_only; [by apply keys_unique_NoDup|done| |].
  - apply transition_matches_spec. auto.
  - intros y Hy Hm. apply transition_matches_spec in Hm as (Hyu & Hyv & Hm).
    destruct (decide (edge_id y = edge_id e)) as [Hid|Hid];
      [by apply (unique_edge g)|].
    destruct Hm as [Hm|[= Hm]].
    + rewrite Hcrit in Hm; [done..|]. by intros ->.
    + destruct Hid. unfold edge_id. congruence.
Qed.

(** X7: on a graph whose transitions are told apart by source,
    destination and key, [update_transition] by the key of a transition
    succeeds when every other transition between the same two tasks has
    criteria (the lookup also matches criteria equal to [None]).  The
    transition then holds the new attributes over its old ones; the
    tasks, the graph attributes, the other transitions and the source,
    destination and key of every transition are unchanged. *)
Theorem update_transition_by_key (g : MultiDiGraph) (e : edge)
    (kwargs : gmap string value) :
  keys_unique g → e ∈ edges g →
  (∀ e', e' ∈ edges g → e_u e' = e_u e → e_v e' = e_v e → e' ≠ e →
         py_eq (dict_get (e_data e') "criteria" VNone) VNone = false) →
  ∃ g', update_transition (e_u e) (e_v e) (Some (e_key e)) kwargs g = (Ok tt, g') ∧
        node g' = node g ∧ graph g' = graph g ∧
        map edge_id (edges g') = map edge_id (edges g) ∧
        live_data g' e = kwargs ∪ e_data e ∧
        (∀ x, x ∈ edges g → x ≠ e → x ∈ edges g').
Proof.
  intros Hu He Hcrit.
  pose proof (matches_by_key g e Hu He Hcrit) as Hf.
  rewrite update_transition_cases, Hf. eexists. split; [reflexivity|].
  cbn [node graph edges]. rewrite update_edge_data_ids. repeat split.
  - unfold live_data. cbn [edges].
    set (e' := {| e_u := e_u e; e_v := e_v e; e_key := e_key e;
                  e_data := kwargs ∪ e_data e |}).
    assert (Hse : same_edge (e_u e) (e_v e) (e_key e) e = true)
      by (by apply same_edge_id).
    rewrite (filter_only _ _ e'); [done| | |done|].
    + apply (NoDup_fmap_1 edge_id). by rewrite update_edge_data_ids.
    + unfold update_edge_data. apply list_elem_of_fmap. exists e.
      split; [by rewrite Hse|done].
    + intros y Hy Hs. unfold update_edge_data in Hy.
      apply list_elem_of_fmap in Hy as (x & -> & Hx).
      destruct (same_edge (e_u e) (e_v e) (e_key e) x) eqn:Hsx.
      * apply same_edge_id in Hsx.
        by rewrite (unique_edge g x e Hu Hx He Hsx).
      * congruence.
  - intros x Hx Hne. unfold update_edge_data. apply list_elem_of_fmap.
    exists x. split; [|done].
    destruct (same_edge _ _ _ x) eqn:Hs; [|done].
    destruct Hne. apply same_edge_id in Hs. by apply (unique_edge g).
Qed.

End TransitionLaws.


(** X7 on the sample graph: marking the transition from [b] to [d]. *)
Lemma update_transition_by_key_witness :
  ∃ g', update_transition "b" "d" (Some 0) {["satisfied" := VBool true]} Sample.fan_in
        = (Ok tt, g') ∧
        node g' = node Sample.fan_in ∧ graph g' = graph Sample.fan_in ∧
        map edge_id (edges g') = map edge_id (edges Sample.fan_in) ∧
        live_data g' {| e_u := "b"; e_v := "d"; e_key := 0;
                        e_data := {["criteria" := VList []]} |}
        = {["satisfied" := VBool true]} ∪ {["criteria" := VList []]} ∧
        (∀ x, x ∈ edges Sample.fan_in →
              x ≠ {| e_u := "b"; e_v := "d"; e_key := 0;
                     e_data := {["criteria" := VList []]} |} →
              x ∈ edges g').
Proof.
  refine (update_transition_by_key Sample.fan_in
            {| e_u := "b"; e_v := "d"; e_key := 0;
               e_data := {["criteria" := VList []]} |}
            {["satisfied" := VBool true]} _ _ _).
  - unfold keys_unique. refine (bool_decide_unpack _ _). vm_compute. exact I.
  - apply list_elem_of_In. vm_compute. left. reflexivity.
  - intros e' He' Hu Hv Hne. apply list_elem_of_In in He'. vm_compute in He'.
    destruct He' as [<-|[<-|[]]]; [by destruct Hne|discriminate Hu].
Defined.

(** ** What every operation keeps *)

Section Invariants.

Context `{St : States}.
Variable merge_dicts : value → value → bool → value.
Variable get_evaluators : list (string * Expressions.Evaluator).

Lemma update_transition_evolves_any (u v : string) (key : option Z)
    (g g1 : MultiDiGraph) (r : result unit) :
  update_transition u v key {["satisfied" := VBool true]} g = (r, g1) →
  evolves (fun d => d = v) g g1.
Proof.
  destruct r as [[]|e]; [apply update_transition_evolves|].
  rewrite update_transition_cases.
  destruct (filter _ _) as [|? [|? ?]]; intros [= _ <-]; apply evolves_refl.
Qed.

Lemma collect_evolves (task_id : string) (outbounds : list edge) :
  ∀ (g : MultiDiGraph) (tasks : list task_ref) (r : result (list task_ref))
    (g' : MultiDiGraph),
    collect task_id outbounds tasks g = (r, g') →
    evolves (fun d => d ∈ map e_v outbounds) g g'.
Proof.
  induction outbounds as [|seq outbounds IH]; intros g tasks r g' Hrun.
  - cbn in Hrun. injection Hrun as _ <-. apply evolves_refl.
  - rewrite collect_cons in Hrun.
    set (step := if negb _ then _ else _) in Hrun.
    assert (Hstep : ∀ r1 g1, step = (r1, g1) → evolves (fun d => d = e_v seq) g g1).
    { subst step. intros r1 g1. destruct (negb _).
      - apply update_transition_evolves_any.
      - intros [= _ <-]. apply evolves_refl. }
    destruct step as [r1 g1]. specialize (Hstep r1 g1 eq_refl).
    assert (Hw1 : evolves (fun d => d ∈ map e_v (seq :: outbounds)) g g1).
    { eapply evolves_weaken; [|exact Hstep]. intros d ->. cbn. by left. }
    assert (Hrest : ∀ tasks1 r2 g2, collect task_id outbounds tasks1 g1 = (r2, g2) →
                      evolves (fun d => d ∈ map e_v (seq :: outbounds)) g g2).
    { intros tasks1 r2 g2 Hc. eapply evolves_trans; [exact Hw1|].
      eapply evolves_weaken; [|exact (IH _ _ _ _ Hc)]. intros d Hd. cbn. by right. }
    destruct r1 as [[]|e]; [|by injection Hrun as _ <-].
    destruct (barrier_check g1 (e_v seq)) as [[|]|e];
      [by eapply Hrest| |by injection Hrun as _ <-].
    destruct (node g1 !! e_v seq) as [attrs|]; [|by injection Hrun as _ <-].
    destruct (getitem _ _) as [name|e]; [by eapply Hrest|by injection Hrun as _ <-].
Qed.

Lemma get_next_tasks_evolves (task_id : string) (context : value)
    (g g' : MultiDiGraph) (r : result (list task_ref)) :
  get_next_tasks merge_dicts get_evaluators task_id context g = (r, g') →
  evolves (fun _ => True) g g'.
Proof.
  unfold get_next_tasks, bind, get_task, get, ret, raise, lift. cbn.
  destruct (node g !! task_id) as [attrs|]; [|intros [= _ <-]; apply evolves_refl].
  cbn. destruct (getitem _ "state") as [st|]; [|intros [= _ <-]; apply evolves_refl].
  destruct (negb _); [intros [= _ <-]; apply evolves_refl|].
  destruct (select_outbounds _ _ _) as [outbounds|];
    [|intros [= _ <-]; apply evolves_refl].
  destruct (collect task_id outbounds [] g) as [[tasks|e] g1] eqn:Hcol.
  - intros [= _ <-]. eapply evolves_weaken; [|exact (collect_evolves _ _ _ _ _ _ Hcol)].
    done.
  - intros [= _ <-]. eapply evolves_weaken; [|exact (collect_evolves _ _ _ _ _ _ Hcol)].
    done.
Qed.

Lemma evolves_well_formed (D : string → Prop) (g g' : MultiDiGraph) :
  evolves D g g' → well_formed g → well_formed g'.
Proof.
  intros (Hn & _ & f & He & Hf & _) [Hend Huniq]. split.
  - intros e Hin. rewrite He in Hin. apply list_elem_of_fmap in Hin as (x & -> & Hx).
    destruct (Hf x) as (-> & -> & _). rewrite Hn. by apply Hend.
  - unfold keys_unique in *. rewrite He, map_map.
    erewrite map_ext; [exact Huniq|]. intros x. unfold edge_id.
    by destruct (Hf x) as (-> & -> & ->).
Qed.

Lemma well_formed_node_insert (g : MultiDiGraph) (gr : gmap string value)
    (n : string) (a : gmap string value) :
  well_formed g →
  well_formed {| graph := gr; node := <[n := a]> (node g); edges := edges g |}.
Proof.
  intros [Hend Huniq]. split; [|exact Huniq].
  intros e He. cbn in *. destruct (Hend e He) as [Hu Hv].
  split; apply lookup_insert_is_Some'; by right.
Qed.

Lemma well_formed_touch_node (g : MultiDiGraph) (n : string) :
  well_formed g → well_formed (touch_node g n).
Proof.
  intros Hwf. unfold touch_node. destruct (has_node g n); [done|].
  unfold add_node. by apply well_formed_node_insert.
Qed.

Lemma well_formed_update_edges (g : MultiDiGraph) (u v : string) (k : Z)
    (kw : gmap string value) :
  well_formed g →
  well_formed {| graph := graph g; node := node g;
                 edges := update_edge_data u v k kw (edges g) |}.
Proof.
  intros [Hend Huniq]. split.
  - intros e He. cbn in *. unfold update_edge_data in He.
    apply list_elem_of_fmap in He as (x & -> & Hx).
    destruct (same_edge u v k x); cbn; by apply Hend.
  - unfold keys_unique. cbn. by rewrite update_edge_data_ids.
Qed.

(** X8: the empty graph is well formed (every transition lies between
    two tasks of the graph, and no two transitions have the same source,
    destination and key), and every operation of [WorkflowGraph] that
    writes to the graph leaves a well-formed graph well formed, whether
    it returns or raises. *)
Theorem operations_keep_well_formed :
  well_formed empty_graph ∧
  (∀ v, keeps_well_formed (set_state v)) ∧
  (∀ task_id kwargs, keeps_well_formed (add_task task_id kwargs)) ∧
  (∀ task_id kwargs, keeps_well_formed (update_task task_id kwargs)) ∧
  (∀ task_id, keeps_well_formed (reset_task task_id)) ∧
  (∀ task_id v, keeps_well_formed (set_barrier task_id v)) ∧
  (∀ source destination criteria,
     keeps_well_formed (add_transition source destination criteria)) ∧
  (∀ source destination key kwargs,
     keeps_well_formed (update_transition source destination key kwargs)) ∧
  (∀ task_id context,
     keeps_well_formed (get_next_tasks merge_dicts get_evaluators task_id context)).
Proof.
  assert (Hupd : ∀ task_id kwargs, keeps_well_formed (update_task task_id kwargs)).
  { intros task_id kwargs g r g' Hrun Hwf. rewrite update_task_cases in Hrun.
    destruct (node g !! task_id); [|by injection Hrun as _ <-].
    cbn in Hrun. destruct (is_transition_valid _ _); injection Hrun as _ <-;
      [by apply well_formed_node_insert|done]. }
  assert (Hut : ∀ source destination key kwargs,
            keeps_well_formed (update_transition source destination key kwargs)).
  { intros source destination key kwargs g r g' Hrun Hwf.
    rewrite update_transition_cases in Hrun.
    destruct (filter _ _) as [|? [|? ?]]; injection Hrun as _ <-;
      [done|by apply well_formed_update_edges|done]. }
  refine (conj _ (conj _ (conj _ (conj _ (conj _ (conj _ (conj _ (conj _ _)))))))).
  - split; [|apply NoDup_nil_2].
    intros e He. by apply not_elem_of_nil in He.
  - intros v g r g' Hrun Hwf. unfold set_state, bind, get, raise, put in Hrun.
    cbn in Hrun. destruct (negb (py_in v ALL_STATES)); [by injection Hrun as _ <-|].
    destruct (negb (is_transition_valid _ _)); injection Hrun as _ <-; [done|].
    destruct Hwf as [Hend Huniq]. by split.
  - intros task_id kwargs g r g' Hrun Hwf.
    unfold add_task, bind, get, put in Hrun. cbn in Hrun.
    destruct (negb (has_task g task_id)); [|by eapply Hupd].
    injection Hrun as _ <-. unfold add_node. by apply well_formed_node_insert.
  - exact Hupd.
  - intros task_id g r g' Hrun Hwf. rewrite reset_task_cases in Hrun.
    destruct (node g !! task_id); injection Hrun as _ <-;
      [by apply well_formed_node_insert|done].
  - intros task_id v. apply Hupd.
  - intros source destination criteria g r g' Hrun Hwf.
    rewrite add_transition_cases in Hrun. cbn zeta in Hrun.
    assert (Hwf2 : well_formed (touch_node (touch_node g source) destination))
      by (by do 2 apply well_formed_touch_node).
    destruct (touch_node_spec g source) as (_ & _ & Hs1 & Hk1 & _).
    destruct (touch_node_spec (touch_node g source) destination)
      as (_ & _ & Hs2 & Hk2 & _).
    set (g2 := touch_node (touch_node g source) destination) in *.
    destruct (has_transition g source destination criteria) as [|seq [|? ?]].
    + injection Hrun as _ <-.
      assert (Hsrc : is_Some (node g2 !! source)).
      { destruct Hs1 as [a Ha]. exists a. by apply Hk2. }
      destruct (add_edge_new g2 source destination {["criteria" := criteria]} Hsrc Hs2)
        as (k & -> & Hfresh).
      destruct Hwf2 as [Hend Huniq]. split.
      * intros e He. cbn in He |- *. apply elem_of_app in He as [He|He].
        -- by apply Hend.
        -- apply list_elem_of_singleton in He as ->. by cbn.
      * unfold keys_unique in *. cbn. rewrite map_app. apply NoDup_app.
        repeat split; [done| |apply NoDup_singleton].
        intros x Hx Hin. apply list_elem_of_singleton in Hin as ->. done.
    + by eapply Hut.
    + by injection Hrun as _ <-.
  - exact Hut.
  - intros task_id context g r g' Hrun Hwf.
    eapply evolves_well_formed; [|exact Hwf].
    by eapply get_next_tasks_evolves.
Qed.

End Invariants.

(** X8 on the sample graph, which two calls of [add_transition] build
    from the empty graph. *)
Lemma operations_keep_well_formed_witness : well_formed Sample.fan_in.
Proof.
  pose proof (operations_keep_well_formed Sample.merge_dicts Sample.evaluators)
    as (Hempty & _ & _ & _ & _ & _ & Hadd & _).
  refine (Hadd "a" "d" (VList [])
            (Sample.run (add_transition "b" "d" (VList [])) empty_graph)
            (Ok tt) Sample.fan_in _ _); [vm_compute; reflexivity|].
  refine (Hadd "b" "d" (VList []) empty_graph (Ok tt) _ _ Hempty).
  vm_compute; reflexivity.
Defined.

(** ** What [get_next_tasks] writes and returns *)

Section NextTasksLaws.

Context `{St : States}.
Variable merge_dicts : value → value → bool → value.
Variable get_evaluators : list (string * Expressions.Evaluator).

Lemma mark_mark (e : edge) : mark (mark e) = mark e.
Proof.
  unfold mark. cbn. f_equal. by rewrite (assoc_L (∪)), (idemp_L (∪)).
Qed.

Lemma marked_mark (e : edge) : marked (mark e) = true.
Proof.
  unfold marked, mark, dict_get. cbn.
  by rewrite lookup_union, lookup_singleton_eq, union_Some_l.
Qed.

Lemma only_marks_refl (g : MultiDiGraph) : only_marks g g.
Proof. repeat split. apply Forall2_same_length_lookup_2; [done|]. intros; left; congruence. Qed.

Lemma only_marks_trans (g1 g2 g3 : MultiDiGraph) :
  only_marks g1 g2 → only_marks g2 g3 → only_marks g1 g3.
Proof.
  intros (Hn & Hg & He) (Hn' & Hg' & He'). repeat split; [congruence..|].
  revert He'. generalize (edges g3). induction He as [|e e2 l l2 Hx _ IH];
    intros l3 He'; inversion He' as [|? e3 ? l3' Hy Hl]; subst; constructor.
  - destruct Hx as [->| ->], Hy as [->| ->]; auto. right. apply mark_mark.
  - by apply IH.
Qed.

Lemma update_marks (u v : string) (k : Z) (es : list edge) :
  Forall2 (fun e e' => e' = e ∨ e' = mark e) es
    (update_edge_data u v k {["satisfied" := VBool true]} es).
Proof.
  induction es as [|e es IH]; constructor; [|exact IH].
  destruct (same_edge u v k e); [by right|by left].
Qed.

Lemma update_transition_only_marks (u v : string) (key : option Z)
    (g g1 : MultiDiGraph) (r : result unit) :
  update_transition u v key {["satisfied" := VBool true]} g = (r, g1) →
  only_marks g g1.
Proof.
  rewrite update_transition_cases.
  destruct (filter _ _) as [|? [|? ?]]; intros [= _ <-];
    try apply only_marks_refl.
  repeat split. apply update_marks.
Qed.

Lemma collect_only_marks (task_id : string) (outbounds : list edge) :
  ∀ (g : MultiDiGraph) (tasks : list task_ref) (r : result (list task_ref))
    (g' : MultiDiGraph),
    collect task_id outbounds tasks g = (r, g') → only_marks g g'.
Proof.
  induction outbounds as [|seq outbounds IH]; intros g tasks r g' Hrun.
  - cbn in Hrun. injection Hrun as _ <-. apply only_marks_refl.
  - rewrite collect_cons in Hrun.
    set (step := if negb _ then _ else _) in Hrun.
    assert (Hstep : ∀ r1 g1, step = (r1, g1) → only_marks g g1).
    { subst step. intros r1 g1. destruct (negb _).
      - apply update_transition_only_marks.
      - intros [= _ <-]. apply only_marks_refl. }
    destruct step as [r1 g1]. specialize (Hstep r1 g1 eq_refl).
    assert (Hrest : ∀ tasks1 r2 g2, collect task_id outbounds tasks1 g1 = (r2, g2) →
                      only_marks g g2).
    { intros tasks1 r2 g2 Hc. eapply only_marks_trans; [exact Hstep|].
      exact (IH _ _ _ _ Hc). }
    destruct r1 as [[]|e]; [|by injection Hrun as _ <-].
    destruct (barrier_check g1 (e_v seq)) as [[|]|e];
      [by eapply Hrest| |by injection Hrun as _ <-].
    destruct (node g1 !! e_v seq) as [attrs|]; [|by injection Hrun as _ <-].
    destruct (getitem _ _) as [name|e]; [by eapply Hrest|by injection Hrun as _ <-].
Qed.

(** X9: whatever [get_next_tasks] returns or raises, it leaves the tasks
    and the graph attributes as they were and every transition, in its
    place, either as it was or with [satisfied] set to [True]. *)
Theorem get_next_tasks_only_marks (task_id : string) (context : value)
    (g g' : MultiDiGraph) (r : result (list task_ref)) :
  get_next_tasks merge_dicts get_evaluators task_id context g = (r, g') →
  node g' = node g ∧ graph g' = graph g ∧
  Forall2 (fun e e' => e' = e ∨ e' = mark e) (edges g) (edges g').
Proof.
  unfold get_next_tasks, bind, get_task, get, ret, raise, lift. cbn.
  destruct (node g !! task_id) as [attrs|]; [|intros [= _ <-]; apply only_marks_refl].
  cbn. destruct (getitem _ "state") as [st|]; [|intros [= _ <-]; apply only_marks_refl].
  destruct (negb _); [intros [= _ <-]; apply only_marks_refl|].
  destruct (select_outbounds _ _ _) as [outbounds|];
    [|intros [= _ <-]; apply only_marks_refl].
  destruct (collect task_id outbounds [] g) as [[tasks|e] g1] eqn:Hcol;
    intros [= _ <-]; exact (collect_only_marks _ _ _ _ _ _ Hcol).
Qed.

Lemma only_marks_elem (g g' : MultiDiGraph) (e' : edge) :
  only_marks g g' → e' ∈ edges g' → ∃ e, e ∈ edges g ∧ (e' = e ∨ e' = mark e).
Proof.
  intros (_ & _ & He) Hin.
  induction He as [|e e2 l l2 Hx _ IH]; [by apply not_elem_of_nil in Hin|].
  apply elem_of_cons in Hin as [->|Hin].
  - exists e. split; [by left|done].
  - destruct (IH Hin) as (x & Hx' & Hor). exists x. split; [by right|done].
Qed.

Lemma only_marks_ids (g g' : MultiDiGraph) :
  only_marks g g' → map edge_id (edges g') = map edge_id (edges g).
Proof.
  intros (_ & _ & He).
  induction He as [|e e2 l l2 Hx _ IH]; [done|]. cbn. rewrite IH. f_equal.
  by destruct Hx as [->| ->].
Qed.

Lemma get_next_tasks_ok_inv (task_id : string) (context : value)
    (g g' : MultiDiGraph) (tasks : list task_ref) :
  get_next_tasks merge_dicts get_evaluators task_id context g = (Ok tasks, g') →
  (tasks = [] ∧ g' = g) ∨
  ∃ outbounds collected,
    select_outbounds get_evaluators (task_context merge_dicts g context)
      (get_next_transitions g task_id) = Ok outbounds ∧
    collect task_id outbounds [] g = (Ok collected, g') ∧
    py_sorted collected t_name = Ok tasks.
Proof.
  unfold get_next_tasks, bind, get_task, get, ret, raise, lift. cbn.
  destruct (node g !! task_id) as [attrs|]; [|done].
  cbn. destruct (getitem _ "state") as [st|]; [|done].
  destruct (negb _); [intros [= <- <-]; by left|].
  destruct (select_outbounds _ _ _) as [outbounds|]; [|done].
  destruct (collect task_id outbounds [] g) as [[collected|e] g1] eqn:Hcol; [|done].
  intros [= Hs <-]. right. by exists outbounds, collected.
Qed.

(** After the loop every transition it went through is marked. *)
Lemma collect_marks (task_id : string) (outbounds : list edge) :
  ∀ (g : MultiDiGraph) (tasks tasks' : list task_ref) (g' : MultiDiGraph),
    collect task_id outbounds tasks g = (Ok tasks', g') →
    keys_unique g →
    (∀ seq, seq ∈ outbounds →
            e_u seq = task_id ∧ ∃ x, x ∈ edges g ∧ edge_id x = edge_id seq) →
    ∀ seq e', seq ∈ outbounds → e' ∈ edges g' → edge_id e' = edge_id seq →
              marked e' = true.
Proof.
  induction outbounds as [|seq0 outbounds IH];
    intros g tasks tasks' g' Hrun Huniq Hin seq e' Hseq He' Hid.
  { by apply not_elem_of_nil in Hseq. }
  rewrite collect_cons in Hrun.
  set (step := if negb _ then _ else _) in Hrun.
  destruct (Hin seq0) as (Hu0 & x0 & Hx0 & Hid0); [by left|].
  assert (Hstep : ∀ g1, step = (Ok tt, g1) →
            only_marks g g1 ∧
            ∀ x1, x1 ∈ edges g1 → edge_id x1 = edge_id seq0 → marked x1 = true).
  { subst step. intros g1. destruct (negb _) eqn:Hsat.
    - intros Hup. split; [by eapply update_transition_only_marks|].
      rewrite update_transition_cases in Hup.
      destruct (filter _ (edges g)) as [|x [|? ?]] eqn:Hf; [done| |done].
      injection Hup as <-. cbn [edges].
      assert (x0 ∈ filter (transition_matches task_id (e_v seq0)
                             (Some (e_key seq0)) VNone) (edges g)) as Hx0f.
      { apply list_elem_of_filter. split; [|done]. apply Is_true_true.
        apply transition_matches_spec. unfold edge_id in Hid0.
        injection Hid0 as Hu Hv Hk. repeat split; [congruence..|]. right. by f_equal. }
      rewrite Hf in Hx0f. apply list_elem_of_singleton in Hx0f as Heq. subst x.
      intros x1 Hx1 Hid1. unfold update_edge_data in Hx1.
      apply list_elem_of_fmap in Hx1 as (y & -> & Hy).
      assert (edge_id y = edge_id seq0) as Hidy
        by (by destruct (same_edge task_id (e_v seq0) (e_key x0) y)).
      assert (same_edge task_id (e_v seq0) (e_key x0) y = true) as Hs.
      { apply same_edge_id. rewrite Hidy. unfold edge_id in *.
        injection Hid0 as _ _ ->. by rewrite Hu0. }
      rewrite Hs. apply (marked_mark y).
    - intros [= <-]. split; [apply only_marks_refl|].
      intros x1 Hx1 Hid1.
      assert (x1 = x0) as -> by (apply (unique_edge g); congruence).
      apply negb_false_iff in Hsat. unfold live_data in Hsat.
      rewrite (filter_only _ (edges g) x0) in Hsat.
      + unfold marked, dict_get in *. by destruct (e_data x0 !! "satisfied").
      + by apply keys_unique_NoDup.
      + done.
      + apply same_edge_id. exact Hid0.
      + intros y Hy Hs. apply same_edge_id in Hs.
        apply (unique_edge g); [done..|]. rewrite Hid0. exact Hs. }
  destruct step as [[[]|e] g1]; [|done].
  destruct (Hstep g1 eq_refl) as (Hom & Hmarked). clear Hstep.
  assert (Huniq1 : keys_unique g1)
    by (unfold keys_unique; by rewrite (only_marks_ids _ _ Hom)).
  assert (Hrest : ∀ tasks1, collect task_id outbounds tasks1 g1 = (Ok tasks', g') →
                     marked e' = true).
  { intros tasks1 Hc.
    apply elem_of_cons in Hseq as [->|Hseq].
    - destruct (only_marks_elem g1 g' e' (collect_only_marks _ _ _ _ _ _ Hc) He')
        as (x1 & Hx1 & [->| ->]).
      + by apply Hmarked.
      + apply marked_mark.
    - eapply (IH g1 _ _ _ Hc Huniq1); [|exact Hseq|exact He'|exact Hid].
      intros s Hs. destruct (Hin s) as (Hus & x & Hx & Hidx); [by right|].
      split; [done|].
      assert (edge_id x ∈ map edge_id (edges g1)) as Hm.
      { rewrite (only_marks_ids _ _ Hom). apply list_elem_of_fmap. by exists x. }
      apply list_elem_of_fmap in Hm as (x' & Hidx' & Hx'). exists x'.
      split; [done|congruence]. }
  destruct (barrier_check g1 (e_v seq0)) as [[|]|e]; [by eapply Hrest| |done].
  destruct (node g1 !! e_v seq0) as [attrs|]; [|done].
  destruct (getitem _ _) as [name|e]; [by eapply Hrest|done].
Qed.

(** X10: when [get_next_tasks] returns for a completed task of a graph
    whose transitions are told apart by source, destination and key,
    every outgoing transition whose criteria all evaluated to a true
    value is marked satisfied in the graph, also a transition into a
    task that the barrier holds back. *)
Theorem get_next_tasks_marks_fired (g g' : MultiDiGraph) (task_id : string)
    (context : value) (tasks : list task_ref)
    (tattrs : gmap string value) (st : value) :
  keys_unique g →
  node g !! task_id = Some tattrs → tattrs !! "state" = Some st →
  py_in st COMPLETED_STATES = true →
  get_next_tasks merge_dicts get_evaluators task_id context g = (Ok tasks, g') →
  ∀ seq e',
    seq ∈ get_next_transitions g task_id →
    fires get_evaluators (task_context merge_dicts g context) seq = Ok true →
    e' ∈ edges g' → edge_id e' = edge_id seq → marked e' = true.
Proof.
  intros Huniq Hn Hs Hc Hrun seq e' Hseq Hfire He' Hid.
  destruct (get_next_tasks_completed _ _ _ _ _ _ _ _ _ Hn Hs Hc Hrun)
    as (outbounds & collected & Hsel & Hcol & _).
  pose proof (select_outbounds_spec merge_dicts _ _ _ _ Hsel) as Hspec.
  destruct (get_next_transitions_sorted g task_id) as (_ & Hperm & Hsrc).
  eapply (collect_marks _ _ _ _ _ _ Hcol Huniq); [|by apply Hspec|exact He'|exact Hid].
  intros s Hs'. apply Hspec in Hs' as [Hs' _]. split.
  - rewrite Forall_forall in Hsrc. by apply Hsrc.
  - exists s. split; [|done]. rewrite Hperm in Hs'. unfold out_edges in Hs'.
    destruct (has_node g task_id); [|by apply not_elem_of_nil in Hs'].
    by apply list_elem_of_filter in Hs' as [_ ?].
Qed.

Lemma py_lt_asym (a b : value) : py_lt a b = Ok true → py_lt b a = Ok false.
Proof.
  destruct a as [ |x|x|x| | ], b as [ |y|y|y| | ]; cbn; try done;
    intros [= H]; f_equal.
  - destruct x, y; done.
  - destruct x; cbn in *; lia.
  - destruct y; cbn in *; lia.
  - lia.
  - unfold String.ltb in *. rewrite (String.compare_antisym y x).
    by destruct (String.compare x y).
Qed.

Lemma py_insert_hd {A} (key : A → value) (x y : A) (l r : list A) :
  py_insert key x l = Ok r → name_le key y x → HdRel (name_le key) y l →
  HdRel (name_le key) y r.
Proof.
  destruct l as [|z l]; cbn.
  - intros [= <-] Hyx _. by constructor.
  - destruct (py_lt (key z) (key x)) as [[|]|]; cbn; [| |done].
    + destruct (py_insert key x l); cbn; [|done]. intros [= <-] _ Hhd.
      constructor. by inversion Hhd.
    + intros [= <-] Hyx _. by constructor.
Qed.

Lemma py_insert_Sorted {A} (key : A → value) (x : A) (l : list A) :
  Sorted (name_le key) l → ∀ r, py_insert key x l = Ok r → Sorted (name_le key) r.
Proof.
  induction 1 as [|y l Hs IH Hhd]; intros r Hr; cbn in Hr.
  - injection Hr as <-. by repeat constructor.
  - destruct (py_lt (key y) (key x)) as [[|]|] eqn:Hlt; cbn in Hr; [| |done].
    + destruct (py_insert key x l) as [r'|] eqn:Hi; [|done]. cbn in Hr.
      injection Hr as <-. constructor; [by apply IH|].
      eapply py_insert_hd; [exact Hi| |exact Hhd]. by apply py_lt_asym.
    + injection Hr as <-. constructor; [by constructor|]. by constructor.
Qed.

Lemma py_sorted_Sorted {A} (key : A → value) (l : list A) :
  ∀ r, py_sorted l key = Ok r → Sorted (name_le key) r.
Proof.
  induction l as [|x l IH]; intros r Hr; cbn in Hr.
  - injection Hr as <-. constructor.
  - destruct (py_sorted l key) as [r'|]; [|done]. cbn in Hr.
    eapply py_insert_Sorted; [|exact Hr]. by apply IH.
Qed.

(** The loop appends tasks only for destinations it goes through, each
    with the name the task has. *)
Lemma collect_sound (task_id : string) (outbounds : list edge) :
  ∀ (g : MultiDiGraph) (tasks tasks' : list task_ref) (g' : MultiDiGraph),
    collect task_id outbounds tasks g = (Ok tasks', g') →
    ∃ new, tasks' = tasks ++ new ∧
           ∀ t, t ∈ new →
                ∃ seq attrs, seq ∈ outbounds ∧ e_v seq = t_id t ∧
                             node g !! t_id t = Some attrs ∧
                             attrs !! "name" = Some (t_name t).
Proof.
  induction outbounds as [|seq outbounds IH]; intros g tasks tasks' g' Hrun.
  - cbn in Hrun. injection Hrun as <- <-. exists []. rewrite app_nil_r.
    split; [done|]. intros t Ht. by apply not_elem_of_nil in Ht.
  - rewrite collect_cons in Hrun.
    set (step := if negb _ then _ else _) in Hrun.
    assert (Hstep : ∀ r1 g1, step = (r1, g1) → only_marks g g1).
    { subst step. intros r1 g1. destruct (negb _).
      - apply update_transition_only_marks.
      - intros [= _ <-]. apply only_marks_refl. }
    destruct step as [[[]|e] g1]; [|done].
    destruct (Hstep _ _ eq_refl) as (Hn & _). clear Hstep.
    destruct (barrier_check g1 (e_v seq)) as [[|]|e]; [| |done].
    + destruct (IH _ _ _ _ Hrun) as (new & -> & Hnew). exists new.
      split; [done|]. intros t Ht.
      destruct (Hnew t Ht) as (s & attrs & Hs & Hv & Hnode & Hname).
      exists s, attrs. rewrite <- Hn. repeat split; [by right|done..].
    + destruct (node g1 !! e_v seq) as [attrs|] eqn:Hnode; [|done].
      destruct (getitem _ _) as [name|e] eqn:Hname; [|done].
      destruct (IH _ _ _ _ Hrun) as (new & -> & Hnew).
      exists ({| t_id := e_v seq; t_name := name |} :: new).
      split; [by rewrite <- app_assoc|]. intros t Ht.
      apply elem_of_cons in Ht as [->|Ht].
      * exists seq, attrs. cbn. rewrite <- Hn. repeat split; [by left|done|].
        unfold getitem in Hname.
        rewrite lookup_union, lookup_singleton_ne in Hname by discriminate.
        destruct (attrs !! "name"); cbn in Hname; congruence.
      * destruct (Hnew t Ht) as (s & attrs' & Hs & Hv & Hnode' & Hname').
        exists s, attrs'. rewrite <- Hn. repeat split; [by right|done..].
Qed.

(** X11: the tasks that [get_next_tasks] returns are sorted by name, and
    each of them is the destination of an outgoing transition of the
    task whose criteria all evaluated to a true value, returned under
    the ['name'] attribute it has in the graph. *)
Theorem get_next_tasks_sound (g g' : MultiDiGraph) (task_id : string)
    (context : value) (tasks : list task_ref) :
  get_next_tasks merge_dicts get_evaluators task_id context g = (Ok tasks, g') →
  Sorted (name_le t_name) tasks ∧
  ∀ t, t ∈ tasks →
       ∃ seq attrs,
         seq ∈ get_next_transitions g task_id ∧
         fires get_evaluators (task_context merge_dicts g context) seq = Ok true ∧
         e_v seq = t_id t ∧
         node g !! t_id t = Some attrs ∧ attrs !! "name" = Some (t_name t).
Proof.
  intros Hrun. destruct (get_next_tasks_ok_inv _ _ _ _ _ Hrun)
    as [[-> _]|(outbounds & collected & Hsel & Hcol & Hsort)].
  - split; [constructor|]. intros t Ht. by apply not_elem_of_nil in Ht.
  - split; [by eapply py_sorted_Sorted|]. intros t Ht.
    rewrite (py_sorted_perm _ _ _ Hsort) in Ht.
    destruct (collect_sound _ _ _ _ _ _ Hcol) as (new & Hnew & Hsound).
    cbn in Hnew. subst new.
    destruct (Hsound t Ht) as (seq & attrs & Hseq & Hv & Hnode & Hname).
    apply (select_outbounds_spec merge_dicts _ _ _ _ Hsel) in Hseq as [Hseq Hfire].
    by exists seq, attrs.
Qed.

Lemma py_insert_strings {A} (key : A → value) (x : A) (l : list A) :
  (∃ s, key x = VStr s) → Forall (fun t => ∃ s, key t = VStr s) l →
  ∃ r, py_insert key x l = Ok r.
Proof.
  intros [sx Hx]. induction 1 as [|y l [sy Hy] _ [r IH]]; cbn; [by eexists|].
  rewrite Hy, Hx. cbn. destruct (String.ltb sy sx); [|by eexists].
  rewrite IH. cbn. by eexists.
Qed.

Lemma py_sorted_strings {A} (key : A → value) (l : list A) :
  Forall (fun t => ∃ s, key t = VStr s) l → ∃ r, py_sorted l key = Ok r.
Proof.
  induction 1 as [|x l Hx Hl [r IH]]; cbn; [by eexists|].
  rewrite IH. cbn. apply py_insert_strings; [done|].
  by rewrite (py_sorted_perm _ _ _ IH).
Qed.

Lemma barrier_check_comparable (g : MultiDiGraph) (d : string)
    (attrs : gmap string value) :
  node g !! d = Some attrs →
  barrier_comparable (dict_get attrs "barrier" VNone) →
  ∃ b, barrier_check g d = Ok b.
Proof.
  intros Hn Hb. unfold barrier_check. rewrite Hn. cbn zeta.
  destruct (dict_get attrs "barrier" VNone) as [ |b|z|s| | ]; cbn in *;
    try done; try by eexists.
  destruct Hb as [-> | ->]; cbn; by eexists.
Qed.

(** The loop returns on a graph with unique keys when every transition
    out of the task has criteria other than [None] and every destination
    it goes through has a string for a name and a barrier it can compare. *)
Lemma collect_returns (task_id : string) (outbounds : list edge) :
  ∀ (g : MultiDiGraph) (tasks : list task_ref),
    keys_unique g →
    (∀ seq, seq ∈ outbounds →
            e_u seq = task_id ∧ ∃ x, x ∈ edges g ∧ edge_id x = edge_id seq) →
    (∀ y, y ∈ edges g → e_u y = task_id →
          py_eq (dict_get (e_data y) "criteria" VNone) VNone = false) →
    (∀ seq, seq ∈ outbounds →
            ∃ attrs s, node g !! e_v seq = Some attrs ∧
                       attrs !! "name" = Some (VStr s) ∧
                       barrier_comparable (dict_get attrs "barrier" VNone)) →
    Forall (fun t => ∃ s, t_name t = VStr s) tasks →
    ∃ tasks' g', collect task_id outbounds tasks g = (Ok tasks', g') ∧
                 Forall (fun t => ∃ s, t_name t = VStr s) tasks'.
Proof.
  induction outbounds as [|seq outbounds IH];
    intros g tasks Huniq Hin Hcrit Hdst Htasks.
  { by exists tasks, g. }
  rewrite collect_cons.
  set (step := if negb _ then _ else _).
  destruct (Hin seq) as (Hu0 & x0 & Hx0 & Hid0); [by left|].
  assert (Hstep : ∃ g1, step = (Ok tt, g1) ∧ only_marks g g1).
  { subst step. destruct (negb _); [|exists g; split; [done|apply only_marks_refl]].
    assert (Hq : update_transition task_id (e_v seq) (Some (e_key seq))
                   {["satisfied" := VBool true]} g
                 = update_transition (e_u x0) (e_v x0) (Some (e_key x0))
                     {["satisfied" := VBool true]} g).
    { unfold edge_id in Hid0. injection Hid0 as -> -> ->. by rewrite Hu0. }
    rewrite Hq.
    destruct (update_transition (e_u x0) (e_v x0) (Some (e_key x0))
                {["satisfied" := VBool true]} g) as [r g1] eqn:Hup.
    pose proof (update_transition_only_marks _ _ _ _ _ _ Hup) as Hom.
    rewrite update_transition_cases, (matches_by_key g x0 Huniq Hx0) in Hup.
    - injection Hup as <- <-. eexists. split; [reflexivity|exact Hom].
    - intros e' He' Hu' _ _. apply Hcrit; [done|].
      unfold edge_id in Hid0. injection Hid0 as Hux _ _. congruence. }
  destruct Hstep as (g1 & -> & Hom).
  pose proof Hom as (Hn & _ & _).
  assert (Huniq1 : keys_unique g1)
    by (unfold keys_unique; by rewrite (only_marks_ids _ _ Hom)).
  assert (Hin1 : ∀ s, s ∈ outbounds →
            e_u s = task_id ∧ ∃ x, x ∈ edges g1 ∧ edge_id x = edge_id s).
  { intros s Hs. destruct (Hin s) as (Hus & x & Hx & Hidx); [by right|].
    split; [done|].
    assert (edge_id x ∈ map edge_id (edges g1)) as Hm.
    { rewrite (only_marks_ids _ _ Hom). apply list_elem_of_fmap. by exists x. }
    apply list_elem_of_fmap in Hm as (x' & Hidx' & Hx'). exists x'.
    split; [done|congruence]. }
  assert (Hcrit1 : ∀ y, y ∈ edges g1 → e_u y = task_id →
            py_eq (dict_get (e_data y) "criteria" VNone) VNone = false).
  { intros y Hy Huy. destruct (only_marks_elem g g1 y Hom Hy) as (x & Hx & [->| ->]).
    - by apply Hcrit.
    - unfold mark, dict_get in *. cbn in *.
      rewrite lookup_union, lookup_singleton_ne by discriminate.
      rewrite (left_id_L None (∪)). by apply Hcrit. }
  assert (Hdst1 : ∀ s, s ∈ outbounds →
            ∃ attrs n, node g1 !! e_v s = Some attrs ∧
                       attrs !! "name" = Some (VStr n) ∧
                       barrier_comparable (dict_get attrs "barrier" VNone)).
  { intros s Hs. rewrite Hn. apply Hdst. by right. }
  destruct (Hdst seq) as (attrs & n & Hnode & Hname & Hbar); [by left|].
  rewrite <- Hn in Hnode.
  destruct (barrier_check_comparable g1 (e_v seq) attrs Hnode Hbar) as [[|] ->].
  - by apply IH.
  - rewrite Hnode. unfold getitem.
    rewrite lookup_union, lookup_singleton_ne, Hname by discriminate. cbn.
    apply IH; try done. apply Forall_app. split; [done|].
    constructor; [by exists n|constructor].
Qed.

Lemma select_outbounds_fires (context : value) (seqs outbounds : list edge) :
  select_outbounds get_evaluators context seqs = Ok outbounds →
  ∀ y, y ∈ seqs → ∃ b, fires get_evaluators context y = Ok b.
Proof.
  revert outbounds. induction seqs as [|s seqs IH]; intros outbounds Hsel y Hy.
  - by apply not_elem_of_nil in Hy.
  - cbn in Hsel. destruct (fires get_evaluators context s) as [b|] eqn:Hf; [|done].
    cbn in Hsel.
    destruct (select_outbounds get_evaluators context seqs) as [rest|]; [|done].
    apply elem_of_cons in Hy as [->|Hy]; [by exists b|]. by eapply IH.
Qed.

Lemma fires_criteria (context : value) (y : edge) (b : bool) :
  fires get_evaluators context y = Ok b →
  py_eq (dict_get (e_data y) "criteria" VNone) VNone = false.
Proof.
  unfold fires, getitem, dict_get.
  destruct (e_data y !! "criteria") as [c|]; [|done]. cbn.
  by destruct c.
Qed.

(** X12: [get_next_tasks] returns (it does not raise) for a completed
    task of a graph whose transitions are told apart by source,
    destination and key, when the criteria of the outgoing transitions
    evaluate and the destination of every transition that fired is a
    task with a string for a name and a barrier that is absent, [None],
    the empty string, ['*'] or a number. *)
Theorem get_next_tasks_returns (g : MultiDiGraph) (task_id : string)
    (context : value) (tattrs : gmap string value) (st : value)
    (outbounds : list edge) :
  keys_unique g →
  node g !! task_id = Some tattrs → tattrs !! "state" = Some st →
  py_in st COMPLETED_STATES = true →
  select_outbounds get_evaluators (task_context merge_dicts g context)
    (get_next_transitions g task_id) = Ok outbounds →
  (∀ seq, seq ∈ outbounds →
          ∃ attrs s, node g !! e_v seq = Some attrs ∧
                     attrs !! "name" = Some (VStr s) ∧
                     barrier_comparable (dict_get attrs "barrier" VNone)) →
  ∃ tasks g',
    get_next_tasks merge_dicts get_evaluators task_id context g = (Ok tasks, g').
Proof.
  intros Huniq Hn Hs Hc Hsel Hdst.
  destruct (get_task_item g task_id tattrs "state" Hn) as (task & Ht & Hk);
    [discriminate|].
  unfold get_next_tasks, bind. rewrite Ht. cbn.
  unfold lift at 1, getitem at 1. rewrite Hk, Hs, Hc. cbn.
  fold (task_context merge_dicts g context). rewrite Hsel. cbn.
  pose proof (select_outbounds_spec merge_dicts _ _ _ _ Hsel) as Hspec.
  destruct (get_next_transitions_sorted g task_id) as (_ & Hperm & Hsrc).
  assert (Hout : ∀ y, y ∈ get_next_transitions g task_id →
                      y ∈ edges g ∧ e_u y = task_id).
  { intros y Hy. split; [|rewrite Forall_forall in Hsrc; by apply Hsrc].
    rewrite Hperm in Hy. unfold out_edges in Hy.
    destruct (has_node g task_id); [|by apply not_elem_of_nil in Hy].
    by apply list_elem_of_filter in Hy as [_ ?]. }
  destruct (collect_returns task_id outbounds g [] Huniq) as (tasks & g' & -> & Hstr).
  - intros seq Hseq. apply Hspec in Hseq as [Hseq _].
    destruct (Hout seq Hseq). split; [done|]. by exists seq.
  - intros y Hy Huy.
    assert (y ∈ get_next_transitions g task_id) as Hyn.
    { rewrite Hperm. unfold out_edges, has_node.
      rewrite bool_decide_eq_true_2 by eauto.
      apply list_elem_of_filter. split; [|done]. rewrite Huy.
      by rewrite String.eqb_refl. }
    destruct (select_outbounds_fires _ _ _ Hsel y Hyn) as [b Hb].
    by eapply fires_criteria.
  - exact Hdst.
  - constructor.
  - destruct (py_sorted_strings t_name tasks Hstr) as [r Hr].
    exists r, g'. unfold lift. by rewrite Hr.
Qed.

End NextTasksLaws.

(** X9 on the three-way join, for the call on [b]. *)
Lemma get_next_tasks_only_marks_witness :
  node (Sample.run (get_next_tasks Sample.merge_dicts Sample.evaluators "b" VNone)
          Sample.join2) = node Sample.join2 ∧
  graph (Sample.run (get_next_tasks Sample.merge_dicts Sample.evaluators "b" VNone)
           Sample.join2) = graph Sample.join2 ∧
  Forall2 (fun e e' => e' = e ∨ e' = mark e) (edges Sample.join2)
    (edges (Sample.run (get_next_tasks Sample.merge_dicts Sample.evaluators "b" VNone)
              Sample.join2)).
Proof.
  refine (get_next_tasks_only_marks Sample.merge_dicts Sample.evaluators "b" VNone
            Sample.join2 _ (Ok [{| t_id := "d"; t_name := VStr "d" |}]) _).
  vm_compute. reflexivity.
Defined.

(** X10 on the three-way join: after the call on [b] the transition from
    [b] to [d] is marked. *)
Lemma get_next_tasks_marks_fired_witness :
  Forall (fun e' => edge_id e' = ("b", "d", 0) → marked e' = true)
    (edges (Sample.run (get_next_tasks Sample.merge_dicts Sample.evaluators "b" VNone)
              Sample.join2)).
Proof.
  apply Forall_forall. intros e' He' Hid.
  refine (get_next_tasks_marks_fired Sample.merge_dicts Sample.evaluators
            Sample.join2 _ "b" VNone [{| t_id := "d"; t_name := VStr "d" |}]
            {["name" := VStr "b"; "state" := VStr "succeeded"]} (VStr "succeeded")
            _ _ _ _ _
            {| e_u := "b"; e_v := "d"; e_key := 0;
               e_data := {["criteria" := VList [VStr "<% ok %>"]]} |}
            e' _ _ He' Hid);
    try (vm_compute; reflexivity).
  - unfold keys_unique. refine (bool_decide_unpack _ _). vm_compute. exact I.
  - apply list_elem_of_In. vm_compute. left. reflexivity.
Defined.

(** X11 on the three-way join: the call on [b] returns [d]. *)
Lemma get_next_tasks_sound_witness :
  Sorted (name_le t_name) [{| t_id := "d"; t_name := VStr "d" |}] ∧
  ∀ t, t ∈ [{| t_id := "d"; t_name := VStr "d" |}] →
       ∃ seq attrs,
         seq ∈ get_next_transitions Sample.join2 "b" ∧
         fires Sample.evaluators
           (task_context Sample.merge_dicts Sample.join2 VNone) seq = Ok true ∧
         e_v seq = t_id t ∧
         node Sample.join2 !! t_id t = Some attrs ∧ attrs !! "name" = Some (t_name t).
Proof.
  refine (get_next_tasks_sound Sample.merge_dicts Sample.evaluators
            Sample.join2 _ "b" VNone [{| t_id := "d"; t_name := VStr "d" |}] _).
  vm_compute. reflexivity.
Defined.

(** X12 on the three-way join, for the call on [b]. *)
Lemma get_next_tasks_returns_witness :
  ∃ tasks g',
    get_next_tasks Sample.merge_dicts Sample.evaluators "b" VNone Sample.join2
    = (Ok tasks, g').
Proof.
  refine (get_next_tasks_returns Sample.merge_dicts Sample.evaluators
            Sample.join2 "b" VNone
            {["name" := VStr "b"; "state" := VStr "succeeded"]} (VStr "succeeded")
            [{| e_u := "b"; e_v := "d"; e_key := 0;
                e_data := {["criteria" := VList [VStr "<% ok %>"]]} |}]
            _ _ _ _ _ _);
    try (vm_compute; reflexivity).
  - unfold keys_unique. refine (bool_decide_unpack _ _). vm_compute. exact I.
  - intros seq Hseq. apply list_elem_of_In in Hseq. destruct Hseq as [<-|[]].
    exists {["name" := VStr "d"; "barrier" := VInt 2]}, "d".
    repeat split; vm_compute; reflexivity.
Defined.

(** ** The start tasks *)

Section StartTasks.

Lemma start_candidates (g : MultiDiGraph) (n : string) :
  n ∈ map fst (filter (fun nd => Nat.eqb (snd nd) 0) (in_degree g)) ↔
  is_Some (node g !! n) ∧ ∀ e, e ∈ edges g → e_v e ≠ n.
Proof.
  rewrite list_elem_of_fmap. split.
  - intros ([n' d] & -> & Hin). apply list_elem_of_filter in Hin as [Hd Hin].
    cbn in *. unfold in_degree in Hin.
    apply list_elem_of_fmap in Hin as ([m a] & [= -> ->] & Hm). cbn in *.
    apply elem_of_map_to_list in Hm. split; [eauto|].
    intros e He Hv. apply Is_true_true, Nat.eqb_eq in Hd.
    assert (e ∈ filter (fun e => String.eqb (e_v e) m) (edges g)) as Hf.
    { apply list_elem_of_filter. split; [|done]. rewrite Hv.
      by rewrite String.eqb_refl. }
    destruct (filter _ (edges g)); [by apply not_elem_of_nil in Hf|done].
  - intros [[a Ha] Hnone].
    exists (n, length (filter (fun e => String.eqb (e_v e) n) (edges g))).
    split; [done|]. apply list_elem_of_filter. split.
    + cbn. rewrite filter_none; [done|]. intros e He.
      apply String.eqb_neq. by apply Hnone.
    + unfold in_degree. apply list_elem_of_fmap. exists (n, a).
      split; [done|]. by apply elem_of_map_to_list.
Qed.

(** X13: [get_start_tasks] returns, each once, exactly the tasks that no
    transition points to (a transition from a task to itself counts),
    sorted by name, the name being the ['name'] attribute of the task
    or, without one, its id. *)
Theorem get_start_tasks_spec (g : MultiDiGraph) (tasks : list task_ref) :
  get_start_tasks g = Ok tasks →
  (∀ n, n ∈ map t_id tasks ↔
        is_Some (node g !! n) ∧ ∀ e, e ∈ edges g → e_v e ≠ n) ∧
  NoDup (map t_id tasks) ∧
  Sorted (name_le t_name) tasks ∧
  ∀ t, t ∈ tasks →
       ∃ attrs, node g !! t_id t = Some attrs ∧
                t_name t = dict_get attrs "name" (VStr (t_id t)).
Proof.
  unfold get_start_tasks. intros Hs.
  pose proof (py_sorted_perm _ _ _ Hs) as Hperm.
  assert (Hids : map t_id tasks
                 ≡ₚ map fst (filter (fun nd => Nat.eqb (snd nd) 0) (in_degree g))).
  { rewrite Hperm, map_map. done. }
  split; [|split; [|split]].
  - intros n. rewrite Hids. apply start_candidates.
  - rewrite Hids. eapply sublist_NoDup; [|apply fmap_sublist, sublist_filter].
    unfold in_degree. rewrite map_map. cbn. apply NoDup_fst_map_to_list.
  - by eapply py_sorted_Sorted.
  - intros t Ht. rewrite Hperm in Ht.
    apply list_elem_of_fmap in Ht as ([n d] & -> & Hin). cbn.
    assert (n ∈ map fst (filter (fun nd => Nat.eqb (snd nd) 0) (in_degree g))) as Hn
      by (apply list_elem_of_fmap; by exists (n, d)).
    apply start_candidates in Hn as [[a Ha] _]. exists a. by rewrite Ha.
Qed.

(** X14: [get_start_tasks] returns (the sort does not raise) when every
    ['name'] attribute in the graph is a string. *)
Theorem get_start_tasks_returns (g : MultiDiGraph) :
  (∀ n attrs v, node g !! n = Some attrs → attrs !! "name" = Some v →
                ∃ s, v = VStr s) →
  ∃ tasks, get_start_tasks g = Ok tasks.
Proof.
  intros Hnames. unfold get_start_tasks. apply py_sorted_strings.
  apply Forall_forall. intros t Ht.
  apply list_elem_of_fmap in Ht as ([n d] & -> & Hin). cbn.
  unfold dict_get. destruct (node g !! n) as [a|] eqn:Ha; cbn.
  - destruct (a !! "name") as [v|] eqn:Hv; [by eapply Hnames|by eexists].
  - rewrite lookup_empty. by eexists.
Qed.

End StartTasks.

(** X13 on the diamond: [A] is the start task. *)
Lemma get_start_tasks_spec_witness :
  (∀ n, n ∈ map t_id [{| t_id := "A"; t_name := VStr "A" |}] ↔
        is_Some (node Sample.diamond !! n) ∧
        ∀ e, e ∈ edges Sample.diamond → e_v e ≠ n) ∧
  NoDup (map t_id [{| t_id := "A"; t_name := VStr "A" |}]) ∧
  Sorted (name_le t_name) [{| t_id := "A"; t_name := VStr "A" |}] ∧
  ∀ t, t ∈ [{| t_id := "A"; t_name := VStr "A" |}] →
       ∃ attrs, node Sample.diamond !! t_id t = Some attrs ∧
                t_name t = dict_get attrs "name" (VStr (t_id t)).
Proof.
  refine (get_start_tasks_spec Sample.diamond
            [{| t_id := "A"; t_name := VStr "A" |}] _).
  vm_compute. reflexivity.
Defined.

(** X14 on the diamond, where every task has its id for a name. *)
Lemma get_start_tasks_returns_witness :
  ∃ tasks, get_start_tasks Sample.diamond = Ok tasks.
Proof.
  apply get_start_tasks_returns.
  assert (H : map_Forall (fun _ attrs => ∀ v, attrs !! "name" = Some v →
                                        ∃ s, v = VStr s) (node Sample.diamond)).
  { apply map_Forall_to_list.
    let l := eval vm_compute in (map_to_list (node Sample.diamond)) in
    change (map_to_list (node Sample.diamond)) with l.
    repeat constructor; intros v Hv; vm_compute in Hv; injection Hv as <-;
      eexists; reflexivity. }
  intros n attrs v Hn. exact (H n attrs Hn v).
Defined.

(** ** The transitions of a task *)

Section OrderLaws.

Lemma insert_sorted_filter {A} (key : A → string) (d : string) (x : A) (l : list A) :
  filter (fun a => key a = d) (insert_sorted key x l)
  = filter (fun a => key a = d) (x :: l).
Proof.
  induction l as [|y l IH]; [done|]. cbn [insert_sorted].
  destruct (String.ltb (key y) (key x)) eqn:Hlt; [|done].
  rewrite filter_cons, IH, !filter_cons.
  destruct (decide (key x = d)) as [Hx|Hx]; [|done].
  assert (Hy : key y ≠ d).
  { intros Hy. rewrite Hx, Hy in Hlt. pose proof (ltb_irrefl d) as Hirr. congruence. }
  by rewrite !decide_False by done.
Qed.

Lemma sorted_stable {A} (key : A → string) (d : string) (l : list A) :
  filter (fun a => key a = d) (sorted l key) = filter (fun a => key a = d) l.
Proof.
  induction l as [|x l IH]; [done|]. cbn. fold (sorted l key).
  by rewrite insert_sorted_filter, !filter_cons, IH.
Qed.

(** X15: [get_next_transitions] returns exactly the transitions out of
    the task, none for a task that does not exist, as many as the graph
    has, sorted by destination; the transitions to one destination come
    in the order the graph lists them. *)
Theorem get_next_transitions_order (g : MultiDiGraph) (task_id : string) :
  Sorted (key_le e_v) (get_next_transitions g task_id) ∧
  (∀ e, e ∈ get_next_transitions g task_id ↔
        is_Some (node g !! task_id) ∧ e ∈ edges g ∧ e_u e = task_id) ∧
  length (get_next_transitions g task_id) = length (out_edges g task_id) ∧
  (∀ d, filter (fun e => e_v e = d) (get_next_transitions g task_id)
        = filter (fun e => e_v e = d) (out_edges g task_id)).
Proof.
  unfold get_next_transitions. split; [apply sorted_Sorted|]. split; [|split].
  - intros e. rewrite sorted_perm. unfold out_edges, has_node.
    case_bool_decide as Hn.
    + rewrite list_elem_of_filter. split.
      * intros [Hu He]. repeat split; [done..|].
        apply String.eqb_eq. by apply Is_true_true.
      * intros (_ & He & Hu). split; [|done]. rewrite Hu.
        by rewrite String.eqb_refl.
    + split; [by intros ?%not_elem_of_nil|]. by intros [? _].
  - by rewrite sorted_perm.
  - intros d. apply sorted_stable.
Qed.

(** X16: [get_prev_transitions] returns exactly the transitions into the
    task, each as often as the graph has it, and the empty list, not an
    error, for a task that does not exist. *)
Theorem get_prev_transitions_inbound (g : MultiDiGraph) (task_id : string) :
  (∀ e, e ∈ get_prev_transitions g task_id ↔
        is_Some (node g !! task_id) ∧ e ∈ edges g ∧ e_v e = task_id) ∧
  get_prev_transitions g task_id
  ≡ₚ (if has_task g task_id
      then filter (fun e => e_v e = task_id) (edges g) else []).
Proof.
  unfold get_prev_transitions. split.
  - intros e. rewrite sorted_perm. unfold in_edges, has_node.
    case_bool_decide as Hn.
    + rewrite list_elem_of_filter. split.
      * intros [Hu He]. repeat split; [done..|].
        apply String.eqb_eq. by apply Is_true_true.
      * intros (_ & He & Hu). split; [|done]. rewrite Hu.
        by rewrite String.eqb_refl.
    + split; [by intros ?%not_elem_of_nil|]. by intros [? _].
  - rewrite sorted_perm. unfold in_edges, has_task.
    destruct (has_node g task_id); [|done].
    apply reflexive_eq, list_filter_iff. intros e. split.
    + intros He. apply String.eqb_eq. by apply Is_true_true.
    + intros ->. by rewrite String.eqb_refl.
Qed.

End OrderLaws.


(** ** Looking up the transition that was added *)

Section MoreTransitionLaws.

Context `{St : States}.

Lemma get_transition_by_criteria (g : MultiDiGraph) (source destination : string)
    (criteria : value) :
  get_transition source destination None criteria g =
  match has_transition g source destination criteria with
  | [] => (Raise TransitionDoesNotExist, g)
  | [seq] => (Ok seq, g)
  | _ :: _ :: _ => (Raise MoreThanOneTransition, g)
  end.
Proof.
  rewrite get_transition_cases. unfold has_transition.
  assert (Hf : filter (transition_matches source destination None criteria) (edges g)
               = filter (fun e => String.eqb (e_u e) source && String.eqb (e_v e) destination &&
                                  py_eq (dict_get (e_data e) "criteria" VNone) criteria)
                        (edges g)).
  { apply list_filter_iff. intros e. unfold transition_matches, key_eq.
    by rewrite orb_false_r. }
  by rewrite Hf.
Qed.

Lemma add_transition_then_get (g g' : MultiDiGraph) (source destination : string)
    (criteria : value) :
  has_transition g source destination criteria = [] →
  add_transition source destination criteria g = (Ok tt, g') →
  ∃ new, get_transition source destination None criteria g' = (Ok new, g') ∧
         new ∈ edges g' ∧ (new ∉ edges g) ∧
         e_u new = source ∧ e_v new = destination ∧
         e_data new = {["criteria" := criteria]}.
Proof.
  intros Hnone. rewrite add_transition_cases, Hnone. cbn zeta.
  destruct (touch_node_spec g source) as (_ & He1 & Hs1 & _).
  destruct (touch_node_spec (touch_node g source) destination)
    as (_ & He2 & Hs2 & Hk2 & _).
  set (g2 := touch_node (touch_node g source) destination) in *.
  assert (Hsrc : is_Some (node g2 !! source)).
  { destruct Hs1 as [a Ha]. exists a. by apply Hk2. }
  destruct (add_edge_new g2 source destination {["criteria" := criteria]} Hsrc Hs2)
    as (k & -> & Hfresh).
  intros [= <-]. rewrite He2, He1 in Hfresh.
  exists {| e_u := source; e_v := destination; e_key := k;
            e_data := {["criteria" := criteria]} |}.
  rewrite get_transition_by_criteria. unfold has_transition in *.
  cbn [edges]. rewrite He2, He1, filter_app, Hnone, app_nil_l.
  rewrite (filter_only _ _ {| e_u := source; e_v := destination; e_key := k;
                              e_data := {["criteria" := criteria]} |}).
  - repeat split.
    + apply elem_of_app. right. by left.
    + intros Hin. apply Hfresh. apply list_elem_of_fmap.
      eexists. split; [|exact Hin]. reflexivity.
  - apply NoDup_singleton.
  - by left.
  - cbn. rewrite !String.eqb_refl. unfold dict_get.
    by rewrite lookup_singleton_eq, py_eq_refl.
  - intros y Hy _. by apply list_elem_of_singleton in Hy.
Qed.

(** X18: [get_transition] without a key finds what [has_transition]
    lists for the same criteria: it raises when there is no such
    transition and when there are several, and returns the transition
    when there is one.  So the transition that [add_transition] has just
    added for criteria no transition had is found again by its criteria:
    a new edge of the graph between the two tasks, with the criteria as
    its only attribute. *)
Theorem get_transition_without_key (g : MultiDiGraph) (source destination : string)
    (criteria : value) :
  get_transition source destination None criteria g =
  match has_transition g source destination criteria with
  | [] => (Raise TransitionDoesNotExist, g)
  | [seq] => (Ok seq, g)
  | _ :: _ :: _ => (Raise MoreThanOneTransition, g)
  end ∧
  ∀ g', has_transition g source destination criteria = [] →
        add_transition source destination criteria g = (Ok tt, g') →
        ∃ new, get_transition source destination None criteria g' = (Ok new, g') ∧
               new ∈ edges g' ∧ (new ∉ edges g) ∧
               e_u new = source ∧ e_v new = destination ∧
               e_data new = {["criteria" := criteria]}.
Proof.
  split; [apply get_transition_by_criteria|].
  intros g'. apply add_transition_then_get.
Qed.

End MoreTransitionLaws.

(** X18 on the sample graph: a transition from [a] to [b] is added and
    found again. *)
Lemma get_transition_without_key_witness :
  ∃ new, get_transition "a" "b" None (VList [])
           (Sample.run (add_transition "a" "b" (VList [])) Sample.fan_in)
         = (Ok new, Sample.run (add_transition "a" "b" (VList [])) Sample.fan_in) ∧
         new ∈ edges (Sample.run (add_transition "a" "b" (VList [])) Sample.fan_in) ∧
         (new ∉ edges Sample.fan_in) ∧
         e_u new = "a" ∧ e_v new = "b" ∧
         e_data new = {["criteria" := VList []]}.
Proof.
  apply (proj2 (get_transition_without_key Sample.fan_in "a" "b" (VList [])));
    vm_compute; reflexivity.
Defined.

(** ** The next tasks without barriers, without names, and asked for again *)

Section MoreNextTasksLaws.

Context `{St : States}.
Variable merge_dicts : value → value → bool → value.
Variable get_evaluators : list (string * Expressions.Evaluator).

(** Marking a transition out of the task succeeds when the transitions
    out of the task all have criteria. *)
Lemma mark_step_returns (task_id : string) (seq : edge) (g : MultiDiGraph) :
  keys_unique g → e_u seq = task_id →
  (∃ x, x ∈ edges g ∧ edge_id x = edge_id seq) →
  (∀ y, y ∈ edges g → e_u y = task_id →
        py_eq (dict_get (e_data y) "criteria" VNone) VNone = false) →
  ∃ g1, (if negb (truthy (dict_get (live_data g seq) "satisfied" (VBool false)))
         then update_transition task_id (e_v seq) (Some (e_key seq))
                {["satisfied" := VBool true]} g
         else (Ok tt, g)) = (Ok tt, g1) ∧ only_marks g g1.
Proof.
  intros Huniq Hu0 (x0 & Hx0 & Hid0) Hcrit.
  destruct (negb _); [|exists g; split; [done|apply only_marks_refl]].
  assert (Hq : update_transition task_id (e_v seq) (Some (e_key seq))
                 {["satisfied" := VBool true]} g
               = update_transition (e_u x0) (e_v x0) (Some (e_key x0))
                   {["satisfied" := VBool true]} g).
  { unfold edge_id in Hid0. injection Hid0 as -> -> ->. by rewrite Hu0. }
  rewrite Hq.
  destruct (update_transition (e_u x0) (e_v x0) (Some (e_key x0))
              {["satisfied" := VBool true]} g) as [r g1] eqn:Hup.
  pose proof (update_transition_only_marks _ _ _ _ _ _ Hup) as Hom.
  rewrite update_transition_cases, (matches_by_key g x0 Huniq Hx0) in Hup.
  - injection Hup as <- <-. eexists. split; [reflexivity|exact Hom].
  - intros e' He' Hu' _ _. apply Hcrit; [done|].
    unfold edge_id in Hid0. injection Hid0 as Hux _ _. congruence.
Qed.

Lemma collect_no_barrier (task_id : string) (outbounds : list edge) :
  ∀ (g : MultiDiGraph) (tasks tasks' : list task_ref) (g' : MultiDiGraph),
    collect task_id outbounds tasks g = (Ok tasks', g') →
    (∀ seq, seq ∈ outbounds →
            ∃ attrs, node g !! e_v seq = Some attrs ∧ attrs !! "barrier" = None) →
    tasks' = tasks ++ map (next_entry g) outbounds ∧
    ∀ seq, seq ∈ outbounds →
           ∃ attrs name, node g !! e_v seq = Some attrs ∧ attrs !! "name" = Some name.
Proof.
  induction outbounds as [|seq outbounds IH]; intros g tasks tasks' g' Hrun Hnb.
  - cbn in Hrun. injection Hrun as <- <-. rewrite app_nil_r. split; [done|].
    intros seq Hseq. by apply not_elem_of_nil in Hseq.
  - rewrite collect_cons in Hrun.
    set (step := if negb _ then _ else _) in Hrun.
    assert (Hstep : ∀ r1 g1, step = (r1, g1) → only_marks g g1).
    { subst step. intros r1 g1. destruct (negb _).
      - apply update_transition_only_marks.
      - intros [= _ <-]. apply only_marks_refl. }
    destruct step as [[[]|e] g1]; [|done].
    destruct (Hstep _ _ eq_refl) as (Hn & _). clear Hstep.
    destruct (Hnb seq) as (attrs & Hnode & Hbar); [by left|].
    rewrite <- Hn in Hnode.
    rewrite (barrier_check_none g1 (e_v seq) attrs Hnode Hbar), Hnode in Hrun.
    destruct (getitem _ _) as [name|e] eqn:Hname; [|done].
    unfold getitem in Hname.
    rewrite lookup_union, lookup_singleton_ne in Hname by discriminate.
    destruct (attrs !! "name") as [name'|] eqn:Hnm; cbn in Hname; [|done].
    injection Hname as ->.
    destruct (IH _ _ _ _ Hrun) as (-> & Hnames).
    { intros s Hs. rewrite Hn. apply Hnb. by right. }
    rewrite Hn in Hnode. split.
    + rewrite <- app_assoc. cbn. do 2 f_equal.
      * unfold next_entry. rewrite Hnode. cbn. unfold dict_get. by rewrite Hnm.
      * apply map_ext. intros s. unfold next_entry. by rewrite Hn.
    + intros s Hs. apply elem_of_cons in Hs as [->|Hs].
      * by exists attrs, name.
      * rewrite <- Hn. by apply Hnames.
Qed.

(** X19: when no destination of a transition that fired has a barrier
    and [get_next_tasks] returns for a completed task, the result is the
    sorted list with one entry for every transition that fired, in the
    order of the transitions for equal names: a task that two of them
    lead to is returned twice.  Every such destination has a name. *)
Theorem get_next_tasks_without_barriers (g g' : MultiDiGraph) (task_id : string)
    (context : value) (tasks : list task_ref)
    (tattrs : gmap string value) (st : value) (outbounds : list edge) :
  node g !! task_id = Some tattrs → tattrs !! "state" = Some st →
  py_in st COMPLETED_STATES = true →
  select_outbounds get_evaluators (task_context merge_dicts g context)
    (get_next_transitions g task_id) = Ok outbounds →
  (∀ seq, seq ∈ outbounds →
          ∃ attrs, node g !! e_v seq = Some attrs ∧ attrs !! "barrier" = None) →
  get_next_tasks merge_dicts get_evaluators task_id context g = (Ok tasks, g') →
  py_sorted (map (next_entry g) outbounds) t_name = Ok tasks ∧
  length tasks = length outbounds ∧
  ∀ seq, seq ∈ outbounds →
         ∃ attrs name, node g !! e_v seq = Some attrs ∧ attrs !! "name" = Some name.
Proof.
  intros Hn Hs Hc Hsel Hnb Hrun.
  destruct (get_next_tasks_completed _ _ _ _ _ _ _ _ _ Hn Hs Hc Hrun)
    as (outbounds' & collected & Hsel' & Hcol & Hsort).
  rewrite Hsel in Hsel'. injection Hsel' as <-.
  destruct (collect_no_barrier _ _ _ _ _ _ Hcol Hnb) as (Hcollected & Hnames).
  cbn in Hcollected. subst collected. repeat split; [done| |done].
  rewrite (Permutation_length (py_sorted_perm _ _ _ Hsort)).
  apply length_map.
Qed.

(** X20: [get_next_tasks] does not return when a transition that fired
    leads to a task without a barrier and without a ['name'] attribute,
    as [add_transition] creates it.  When that transition is the first
    one that fired, on a graph whose transitions are told apart by
    source, destination and key, the call raises [KeyError('name')],
    after it has marked the transition and written nothing else. *)
Theorem get_next_tasks_unnamed_destination (g : MultiDiGraph) (task_id : string)
    (context : value) (tattrs : gmap string value) (st : value)
    (seq : edge) (attrs : gmap string value) :
  node g !! task_id = Some tattrs → tattrs !! "state" = Some st →
  py_in st COMPLETED_STATES = true →
  seq ∈ get_next_transitions g task_id →
  fires get_evaluators (task_context merge_dicts g context) seq = Ok true →
  node g !! e_v seq = Some attrs →
  attrs !! "barrier" = None → attrs !! "name" = None →
  (∀ tasks g',
     get_next_tasks merge_dicts get_evaluators task_id context g ≠ (Ok tasks, g')) ∧
  (keys_unique g →
   ∀ rest,
     select_outbounds get_evaluators (task_context merge_dicts g context)
       (get_next_transitions g task_id) = Ok (seq :: rest) →
     ∃ g', get_next_tasks merge_dicts get_evaluators task_id context g
           = (Raise (KeyError "name"), g') ∧
           node g' = node g ∧ graph g' = graph g ∧
           Forall2 (fun e e' => e' = e ∨ e' = mark e) (edges g) (edges g')).
Proof.
  intros Hn Hs Hc Hseq Hfire Hd Hbar Hname. split.
  - intros tasks g' Hrun.
    destruct (get_next_tasks_completed _ _ _ _ _ _ _ _ _ Hn Hs Hc Hrun)
      as (outbounds & collected & Hsel & Hcol & Hsort).
    destruct (collect_spec merge_dicts _ _ _ _ _ _ Hcol) as (Hev & new & Hnew & _ & Hiff).
    cbn in Hnew. subst new.
    assert (Hout : e_v seq ∈ map e_v outbounds).
    { apply list_elem_of_fmap. exists seq. split; [done|].
      by apply (select_outbounds_spec merge_dicts _ _ _ _ Hsel). }
    assert (Hd' : node g' !! e_v seq = Some attrs) by (by destruct Hev as (-> & _)).
    assert (Hin : e_v seq ∈ map t_id collected).
    { apply (Hiff _ Hout). by apply barrier_check_none with attrs. }
    apply list_elem_of_fmap in Hin as (t & Ht & Hin).
    destruct (collect_sound _ _ _ _ _ _ Hcol) as (new & Hnew & Hsound).
    cbn in Hnew. subst new.
    destruct (Hsound t Hin) as (_ & attrs' & _ & _ & Hnode & Hnm).
    rewrite <- Ht, Hd in Hnode. injection Hnode as <-. congruence.
  - intros Huniq rest Hsel.
    destruct (get_task_item g task_id tattrs "state" Hn) as (task & Ht & Hk);
      [discriminate|].
    unfold get_next_tasks, bind. rewrite Ht. cbn.
    unfold lift at 1, getitem at 1. rewrite Hk, Hs, Hc. cbn.
    fold (task_context merge_dicts g context).
    remember (seq :: rest) as outs eqn:Houts. rewrite Hsel. cbn.
    subst outs. rewrite collect_cons.
    destruct (get_next_transitions_sorted g task_id) as (_ & Hperm & Hsrc).
    assert (Hout : ∀ y, y ∈ get_next_transitions g task_id →
                        y ∈ edges g ∧ e_u y = task_id).
    { intros y Hy. split; [|rewrite Forall_forall in Hsrc; by apply Hsrc].
      rewrite Hperm in Hy. unfold out_edges in Hy.
      destruct (has_node g task_id); [|by apply not_elem_of_nil in Hy].
      by apply list_elem_of_filter in Hy as [_ ?]. }
    destruct (Hout seq Hseq) as [Hsin Hsu].
    destruct (mark_step_returns task_id seq g Huniq Hsu) as (g1 & -> & Hom).
    + by exists seq.
    + intros y Hy Huy.
      assert (y ∈ get_next_transitions g task_id) as Hyn.
      { rewrite Hperm. unfold out_edges, has_node.
        rewrite bool_decide_eq_true_2 by eauto.
        apply list_elem_of_filter. split; [|done]. rewrite Huy.
        by rewrite String.eqb_refl. }
      destruct (select_outbounds_fires _ _ _ _ Hsel y Hyn) as [b Hb].
      by eapply fires_criteria.
    + pose proof Hom as (Hnode & _ & _). rewrite <- Hnode in Hd.
      rewrite (barrier_check_none g1 (e_v seq) attrs Hd Hbar), Hd.
      unfold getitem. rewrite lookup_union, lookup_singleton_ne, Hname by discriminate.
      cbn. exists g1. split; [done|]. exact Hom.
Qed.

Lemma next_transitions_elem (g : MultiDiGraph) (task_id : string) (e : edge) :
  e ∈ get_next_transitions g task_id ↔
  is_Some (node g !! task_id) ∧ e ∈ edges g ∧ e_u e = task_id.
Proof.
  unfold get_next_transitions. rewrite sorted_perm. unfold out_edges, has_node.
  case_bool_decide as Hn.
  - rewrite list_elem_of_filter. split.
    + intros [Hu He]. repeat split; [done..|].
      apply String.eqb_eq. by apply Is_true_true.
    + intros (_ & He & Hu). split; [|done]. rewrite Hu.
      by rewrite String.eqb_refl.
  - split; [by intros ?%not_elem_of_nil|]. by intros [? _].
Qed.

Lemma task_context_nodes (g g' : MultiDiGraph) (context : value) :
  node g' = node g →
  task_context merge_dicts g' context = task_context merge_dicts g context.
Proof.
  intros Hn. unfold task_context, get_task_attributes. by rewrite Hn.
Qed.

Lemma fires_mark (context : value) (e : edge) :
  fires get_evaluators context (mark e) = fires get_evaluators context e.
Proof.
  unfold fires, mark, getitem. cbn.
  rewrite lookup_union, lookup_singleton_ne by discriminate.
  by rewrite (left_id_L None (∪)).
Qed.

Lemma only_marks_elem_rev (g g' : MultiDiGraph) (e : edge) :
  only_marks g g' → e ∈ edges g → ∃ e', e' ∈ edges g' ∧ (e' = e ∨ e' = mark e).
Proof.
  intros (_ & _ & He) Hin.
  induction He as [|x x2 l l2 Hx _ IH]; [by apply not_elem_of_nil in Hin|].
  apply elem_of_cons in Hin as [->|Hin].
  - exists x2. split; [by left|done].
  - destruct (IH Hin) as (x' & Hx' & Hor). exists x'. split; [by right|done].
Qed.

(** The loop writes nothing when the transitions it goes through are
    marked already. *)
Lemma collect_no_write (task_id : string) (outbounds : list edge) :
  ∀ (g : MultiDiGraph) (tasks : list task_ref) (r : result (list task_ref))
    (g' : MultiDiGraph),
    (∀ seq, seq ∈ outbounds →
            truthy (dict_get (live_data g seq) "satisfied" (VBool false)) = true) →
    collect task_id outbounds tasks g = (r, g') → g' = g.
Proof.
  induction outbounds as [|seq outbounds IH]; intros g tasks r g' Hm Hrun.
  - cbn in Hrun. by injection Hrun as _ <-.
  - rewrite collect_cons, Hm in Hrun by (by left). cbn [negb] in Hrun.
    assert (Hrest : ∀ tasks1, collect task_id outbounds tasks1 g = (r, g') → g' = g).
    { intros tasks1 Hc. eapply IH; [|exact Hc]. intros s Hs. apply Hm. by right. }
    destruct (barrier_check g (e_v seq)) as [[|]|e];
      [by eapply Hrest| |by injection Hrun as _ <-].
    destruct (node g !! e_v seq) as [attrs|]; [|by injection Hrun as _ <-].
    destruct (getitem _ _) as [name|e]; [by eapply Hrest|by injection Hrun as _ <-].
Qed.

Lemma live_data_stored (g : MultiDiGraph) (e : edge) :
  keys_unique g → e ∈ edges g → live_data g e = e_data e.
Proof.
  intros Hu He. unfold live_data. rewrite (filter_only _ (edges g) e); [done| | | |].
  - by apply keys_unique_NoDup.
  - done.
  - by apply same_edge_id.
  - intros y Hy Hs. apply same_edge_id in Hs. by apply (unique_edge g).
Qed.

Lemma marked_truthy (e : edge) :
  marked e = true → truthy (dict_get (e_data e) "satisfied" (VBool false)) = true.
Proof.
  unfold marked, dict_get. by destruct (e_data e !! "satisfied").
Qed.

(** X21: asking for the next tasks of a completed task a second time,
    right after a call that returned, writes nothing to the graph, and
    when the second call returns it offers the same tasks as the first
    (possibly a different number of times). *)
Theorem get_next_tasks_again (g g' g'' : MultiDiGraph) (task_id : string)
    (context : value) (tasks : list task_ref) (r : result (list task_ref))
    (tattrs : gmap string value) (st : value) :
  keys_unique g →
  node g !! task_id = Some tattrs → tattrs !! "state" = Some st →
  py_in st COMPLETED_STATES = true →
  get_next_tasks merge_dicts get_evaluators task_id context g = (Ok tasks, g') →
  get_next_tasks merge_dicts get_evaluators task_id context g' = (r, g'') →
  g'' = g' ∧
  ∀ tasks2, r = Ok tasks2 → ∀ d, d ∈ map t_id tasks2 ↔ d ∈ map t_id tasks.
Proof.
  intros Huniq Hn Hs Hc Hrun Hrun2.
  destruct (get_next_tasks_completed _ _ _ _ _ _ _ _ _ Hn Hs Hc Hrun)
    as (outbounds & collected & Hsel & Hcol & Hsort).
  pose proof (collect_only_marks _ _ _ _ _ _ Hcol) as Hom.
  pose proof Hom as (Hnode & _ & _).
  assert (Huniq' : keys_unique g')
    by (unfold keys_unique; by rewrite (only_marks_ids _ _ Hom)).
  pose proof (select_outbounds_spec merge_dicts _ _ _ _ Hsel) as Hspec.
  assert (Hmarks : ∀ seq e', seq ∈ outbounds → e' ∈ edges g' →
                             edge_id e' = edge_id seq → marked e' = true).
  { apply (collect_marks _ _ _ _ _ _ Hcol Huniq).
    intros s Hs'. apply Hspec in Hs' as [Hs' _].
    apply next_transitions_elem in Hs' as (_ & Hin & Hu).
    split; [done|]. by exists s. }
  (* the second call *)
  assert (Hn' : node g' !! task_id = Some tattrs) by (by rewrite Hnode).
  destruct (get_task_item g' task_id tattrs "state" Hn') as (task & Ht & Hk);
    [discriminate|].
  unfold get_next_tasks, bind in Hrun2. rewrite Ht in Hrun2. cbn in Hrun2.
  unfold lift at 1, getitem at 1 in Hrun2. rewrite Hk, Hs, Hc in Hrun2.
  cbn in Hrun2. fold (task_context merge_dicts g' context) in Hrun2.
  rewrite (task_context_nodes g g' context Hnode) in Hrun2.
  destruct (select_outbounds get_evaluators (task_context merge_dicts g context)
              (get_next_transitions g' task_id)) as [outbounds2|e] eqn:Hsel2;
    [|cbn in Hrun2; injection Hrun2 as <- <-; by split].
  cbn in Hrun2.
  pose proof (select_outbounds_spec merge_dicts _ _ _ _ Hsel2) as Hspec2.
  (* a transition that fires in the second call fired in the first *)
  assert (Hback : ∀ seq2, seq2 ∈ outbounds2 →
            seq2 ∈ edges g' ∧ ∃ seq, seq ∈ outbounds ∧ edge_id seq2 = edge_id seq).
  { intros seq2 H2. apply Hspec2 in H2 as [H2 Hf2].
    apply next_transitions_elem in H2 as (Hsome & Hin2 & Hu2).
    split; [done|].
    destruct (only_marks_elem g g' seq2 Hom Hin2) as (e & He & Hor).
    exists e. split.
    - apply Hspec. split.
      + apply next_transitions_elem. rewrite <- Hnode. repeat split; [done..|].
        by destruct Hor as [->| ->].
      + destruct Hor as [->| ->]; [done|]. by rewrite fires_mark in Hf2.
    - by destruct Hor as [->| ->]. }
  assert (Hforth : ∀ seq, seq ∈ outbounds →
            ∃ seq2, seq2 ∈ outbounds2 ∧ edge_id seq2 = edge_id seq).
  { intros seq H1. apply Hspec in H1 as [H1 Hf1].
    apply next_transitions_elem in H1 as (Hsome & Hin1 & Hu1).
    destruct (only_marks_elem_rev g g' seq Hom Hin1) as (e' & He' & Hor).
    exists e'. split.
    - apply Hspec2. split.
      + apply next_transitions_elem. rewrite Hnode. repeat split; [done..|].
        by destruct Hor as [->| ->].
      + destruct Hor as [->| ->]; [done|]. by rewrite fires_mark.
    - by destruct Hor as [->| ->]. }
  destruct (collect task_id outbounds2 [] g') as [r2 g2] eqn:Hcol2.
  assert (Hg2 : g2 = g').
  { eapply collect_no_write; [|exact Hcol2]. intros seq2 H2.
    destruct (Hback seq2 H2) as (Hin2 & seq & Hseq & Hid).
    rewrite (live_data_stored g' seq2 Huniq' Hin2).
    apply marked_truthy. by eapply Hmarks. }
  subst g2.
  destruct r2 as [collected2|e]; cbn in Hrun2;
    [|injection Hrun2 as <- <-; by split].
  unfold lift in Hrun2. injection Hrun2 as Hsort2 <-. split; [done|].
  intros tasks2 -> d.
  destruct (collect_spec merge_dicts _ _ _ _ _ _ Hcol) as (_ & new & Hnew & Hsub & Hiff).
  cbn in Hnew. subst new.
  destruct (collect_spec merge_dicts _ _ _ _ _ _ Hcol2) as (_ & new & Hnew & Hsub2 & Hiff2).
  cbn in Hnew. subst new.
  rewrite (py_sorted_perm _ _ _ Hsort), (py_sorted_perm _ _ _ Hsort2).
  assert (Hdst : d ∈ map e_v outbounds2 ↔ d ∈ map e_v outbounds).
  { rewrite !list_elem_of_fmap. split.
    - intros (seq2 & -> & H2). destruct (Hback seq2 H2) as (_ & seq & Hseq & Hid).
      exists seq. split; [|done]. unfold edge_id in Hid. congruence.
    - intros (seq & -> & H1). destruct (Hforth seq H1) as (seq2 & Hseq2 & Hid).
      exists seq2. split; [|done]. unfold edge_id in Hid. congruence. }
  split.
  - intros Hd. pose proof (Hsub2 d Hd) as Ho2.
    apply (Hiff d); [by apply Hdst|]. by apply (Hiff2 d Ho2).
  - intros Hd. pose proof (Hsub d Hd) as Ho.
    apply (Hiff2 d); [by apply Hdst|]. by apply (Hiff d Ho).
Qed.

End MoreNextTasksLaws.

(** X19 on the diamond: the next tasks of [A] are [B] and [C]. *)
Lemma get_next_tasks_without_barriers_witness :
  py_sorted
    (map (next_entry Sample.diamond)
       [ {| e_u := "A"; e_v := "B"; e_key := 0;
            e_data := {["satisfied" := VBool true]} ∪ {["criteria" := VList []]} |};
         {| e_u := "A"; e_v := "C"; e_key := 0;
            e_data := {["satisfied" := VBool true]} ∪ {["criteria" := VList []]} |} ])
    t_name
  = Ok [ {| t_id := "B"; t_name := VStr "B" |}; {| t_id := "C"; t_name := VStr "C" |} ].
Proof.
  refine (proj1 (get_next_tasks_without_barriers Sample.merge_dicts Sample.evaluators
            Sample.diamond Sample.diamond "A" VNone _
            {["name" := VStr "A"; "state" := VStr "succeeded"]} (VStr "succeeded")
            _ _ _ _ _ _ _));
    try (vm_compute; reflexivity).
  intros seq Hseq. apply list_elem_of_In in Hseq.
  destruct Hseq as [<-|[<-|[]]].
  - exists {["name" := VStr "B"; "state" := VStr "succeeded"]}.
    split; vm_compute; reflexivity.
  - exists {["name" := VStr "C"; "state" := VStr "running"]}.
    split; vm_compute; reflexivity.
Defined.

(** X20 on two tasks that [add_transition] created. *)
Lemma get_next_tasks_unnamed_destination_witness :
  ∃ g', get_next_tasks Sample.merge_dicts Sample.evaluators "b" VNone Sample.unnamed
        = (Raise (KeyError "name"), g') ∧
        node g' = node Sample.unnamed ∧ graph g' = graph Sample.unnamed ∧
        Forall2 (fun e e' => e' = e ∨ e' = mark e) (edges Sample.unnamed) (edges g').
Proof.
  refine (proj2 (get_next_tasks_unnamed_destination Sample.merge_dicts Sample.evaluators
            Sample.unnamed "b" VNone {["state" := VStr "succeeded"]} (VStr "succeeded")
            {| e_u := "b"; e_v := "d"; e_key := 0;
               e_data := {["criteria" := VList []]} |} ∅
            _ _ _ _ _ _ _ _) _ [] _);
    try (vm_compute; reflexivity).
  - apply list_elem_of_In. vm_compute. left. reflexivity.
  - unfold keys_unique. refine (bool_decide_unpack _ _). vm_compute. exact I.
Defined.

(** X21 on the three-way join: a second call on [b]. *)
Lemma get_next_tasks_again_witness :
  Sample.run (get_next_tasks Sample.merge_dicts Sample.evaluators "b" VNone)
    (Sample.run (get_next_tasks Sample.merge_dicts Sample.evaluators "b" VNone)
       Sample.join2)
  = Sample.run (get_next_tasks Sample.merge_dicts Sample.evaluators "b" VNone)
      Sample.join2 ∧
  ∀ tasks2, Ok [{| t_id := "d"; t_name := VStr "d" |}] = Ok tasks2 →
            ∀ d, d ∈ map t_id tasks2 ↔ d ∈ map t_id [{| t_id := "d"; t_name := VStr "d" |}].
Proof.
  refine (get_next_tasks_again Sample.merge_dicts Sample.evaluators
            Sample.join2 _ _ "b" VNone [{| t_id := "d"; t_name := VStr "d" |}]
            (Ok [{| t_id := "d"; t_name := VStr "d" |}])
            {["name" := VStr "b"; "state" := VStr "succeeded"]} (VStr "succeeded")
            _ _ _ _ _ _);
    try (vm_compute; reflexivity).
  unfold keys_unique. refine (bool_decide_unpack _ _). vm_compute. exact I.
Defined.

(** ** Validation, string by string *)

Section DispatchLaws.

Variable get_evaluators : list (string * Expressions.Evaluator).
Variable format_error : value → value → string → value.

Lemma validate_flattens (v : value) :
  Expressions.errors (Expressions.validate get_evaluators format_error v)
  = flat_map (Expressions.validate_string get_evaluators format_error) (strings_of v).
Proof.
  induction v as [ | | |s|l IH|kv IH] using value_nested_ind; try reflexivity.
  - cbn. by rewrite app_nil_r.
  - cbn. induction IH as [|x l Hx _ IHl]; [done|].
    cbn. rewrite flat_map_app, Hx. f_equal. exact IHl.
  - cbn. induction IH as [|[k v] kv [Hk Hv] _ IHkv]; [done|].
    cbn in *. rewrite !flat_map_app, Hk, Hv, IHkv, <- app_assoc. reflexivity.
Qed.

Lemma matching_perm (reg reg' : list (string * Expressions.Evaluator)) (s : string) :
  reg ≡ₚ reg' → Expressions.matching reg s ≡ₚ Expressions.matching reg' s.
Proof.
  intros Hp. unfold Expressions.matching.
  apply Permutation_map. by apply filter_Permutation.
Qed.

(** With at most one evaluator matching, the matching evaluators do not
    depend on the order of the registry. *)
Lemma matching_perm_unambiguous (reg reg' : list (string * Expressions.Evaluator))
    (s : string) :
  reg ≡ₚ reg' → (length (Expressions.matching reg s) ≤ 1)%nat →
  Expressions.matching reg' s = Expressions.matching reg s.
Proof.
  intros Hp Hlen. pose proof (matching_perm reg reg' s Hp) as Hm.
  destruct (Expressions.matching reg s) as [|ev [|? ?]]; cbn in Hlen; [| |lia].
  - symmetry. by apply Permutation_nil_l.
  - symmetry. by apply Permutation_singleton_l.
Qed.

Lemma validate_string_perm (reg reg' : list (string * Expressions.Evaluator)) (s : string) :
  reg ≡ₚ reg' →
  Expressions.validate_string reg format_error s
  = Expressions.validate_string reg' format_error s.
Proof.
  intros Hp. pose proof (matching_perm reg reg' s Hp) as Hm.
  unfold Expressions.validate_string.
  destruct (Expressions.matching reg s) as [|ev [|ev2 l]].
  - apply Permutation_nil_l in Hm. by rewrite <- Hm.
  - apply Permutation_singleton_l in Hm. by rewrite <- Hm.
  - apply Permutation_length in Hm.
    destruct (Expressions.matching reg' s) as [|? [|? ?]]; cbn in Hm; [lia..|done].
Qed.

End DispatchLaws.

(** X22: the errors of [validate] are the errors of the strings of the
    statement, one string after the other in the order of the traversal
    (the items of a list in order; of a dictionary entry the key, then
    the value); numbers, booleans and [None] contribute nothing.  So a
    statement none of whose strings holds an expression has no errors. *)
Theorem validate_per_string (reg : list (string * Expressions.Evaluator))
    (format_error : value → value → string → value) (v : value) :
  Expressions.errors (Expressions.validate reg format_error v)
  = concat (map (Expressions.validate_string reg format_error) (strings_of v)) ∧
  ((∀ s, s ∈ strings_of v → Expressions.matching reg s = []) →
   Expressions.errors (Expressions.validate reg format_error v) = []).
Proof.
  rewrite validate_flattens, flat_map_concat_map. split; [done|].
  intros Hplain. induction (strings_of v) as [|s l IH]; [done|]. cbn.
  unfold Expressions.validate_string at 1. rewrite Hplain by (by left). cbn.
  apply IH. intros s' Hs'. apply Hplain. by right.
Qed.

(** X23: [validate] does not depend on the order in which the registry
    lists the evaluators. *)
Theorem validate_registry_order (reg reg' : list (string * Expressions.Evaluator))
    (format_error : value → value → string → value) (v : value) :
  reg ≡ₚ reg' →
  Expressions.validate reg format_error v = Expressions.validate reg' format_error v.
Proof.
  intros Hp.
  assert (He : Expressions.errors (Expressions.validate reg format_error v)
               = Expressions.errors (Expressions.validate reg' format_error v)).
  { rewrite !validate_flattens. apply flat_map_ext. intros s.
    by apply validate_string_perm. }
  by destruct (Expressions.validate reg format_error v),
              (Expressions.validate reg' format_error v); cbn in He; subst.
Qed.

(** X22 on a statement without expressions. *)
Lemma validate_per_string_witness :
  Expressions.errors
    (Expressions.validate Sample.evaluators Sample.format_error
       (VDict [(VStr "k", VList [VStr "plain"; VInt 1])])) = [].
Proof.
  apply (proj2 (validate_per_string Sample.evaluators Sample.format_error
                  (VDict [(VStr "k", VList [VStr "plain"; VInt 1])]))).
  intros s Hs. apply list_elem_of_In in Hs. vm_compute in Hs.
  destruct Hs as [<-|[<-|[]]]; vm_compute; reflexivity.
Defined.

(** X23 on the sample registry and the registry in the other order, for
    a statement with a string that both evaluators match. *)
Lemma validate_registry_order_witness :
  Expressions.validate Sample.evaluators Sample.format_error
    (VList [VStr "<% a %>"; VStr "<% a %> {{ b }}"])
  = Expressions.validate [("curly", Sample.curly); ("angle", Sample.angle)]
      Sample.format_error (VList [VStr "<% a %>"; VStr "<% a %> {{ b }}"]).
Proof.
  apply validate_registry_order. apply perm_swap.
Defined.

(** ** Evaluation through the registry *)

Section EvaluateLaws.

Variable data : value.

(** X24: [evaluate] does not depend on the order in which the registry
    lists the evaluators, provided no string of the statement holds the
    expressions of two evaluators. *)
Theorem evaluate_registry_order (reg reg' : list (string * Expressions.Evaluator))
    (v : value) :
  reg ≡ₚ reg' →
  (∀ s, s ∈ strings_of v → (length (Expressions.matching reg s) ≤ 1)%nat) →
  Expressions.evaluate reg v data = Expressions.evaluate reg' v data.
Proof.
  intros Hp. induction v as [ | | |s|l IH|kv IH] using value_nested_ind;
    intros Hs; try reflexivity.
  - cbn. unfold Expressions.evaluate_string.
    rewrite (matching_perm_unambiguous reg reg' s Hp); [done|].
    apply Hs. cbn. by left.
  - cbn. f_equal. cbn in Hs.
    induction IH as [|x l Hx _ IHl]; [done|].
    rewrite Hx by (intros s Hin; apply Hs; cbn; apply elem_of_app; by left).
    rewrite IHl by (intros s Hin; apply Hs; cbn; apply elem_of_app; by right).
    reflexivity.
  - cbn. f_equal. cbn in Hs. generalize (@nil (value * value)).
    induction IH as [|[k v] kv [Hk Hv] _ IHkv]; intros acc; [done|].
    cbn in Hk, Hv.
    rewrite Hk by (intros s Hin; apply Hs; cbn; rewrite !elem_of_app; auto).
    rewrite Hv by (intros s Hin; apply Hs; cbn; rewrite !elem_of_app; auto).
    destruct (Expressions.evaluate reg' k data) as [k'|]; [|done]. cbn.
    destruct (Expressions.evaluate reg' v data) as [v'|]; [|done]. cbn.
    destruct (Expressions.hashable k'); [|done].
    apply IHkv. intros s Hin. apply Hs. cbn. rewrite !elem_of_app. auto.
Qed.

Lemma dict_set_new (d : list (value * value)) (k v : value) :
  forallb (fun k' => negb (py_eq k' k)) (map fst d) = true →
  Expressions.dict_set d k v = d ++ [(k, v)].
Proof.
  induction d as [|[k' v'] d IH]; [done|]. cbn.
  intros [Hk Hd]%andb_true_iff. destruct (py_eq k' k); [done|].
  by rewrite IH.
Qed.

(** X25: [evaluate] returns the statement itself when none of its strings
    holds an expression of a registered evaluator (for a statement that
    Python can hold: dictionary keys hashable and different). *)
Theorem evaluate_plain (reg : list (string * Expressions.Evaluator)) (v : value) :
  python_value v = true →
  (∀ s, s ∈ strings_of v → Expressions.matching reg s = []) →
  Expressions.evaluate reg v data = Ok v.
Proof.
  induction v as [ | | |s|l IH|kv IH] using value_nested_ind;
    intros Hpy Hs; try reflexivity.
  - cbn. unfold Expressions.evaluate_string. rewrite Hs; [done|]. cbn. by left.
  - cbn in *.
    assert (Hl : (fix items (l : list value) : result (list value) :=
                    match l with
                    | [] => Ok []
                    | item :: l' =>
                        rbind (Expressions.evaluate reg item data) (fun x =>
                        rbind (items l') (fun xs => Ok (x :: xs)))
                    end) l = Ok l).
    { induction IH as [|x l Hx _ IHl]; [done|].
      cbn in Hpy. apply andb_true_iff in Hpy as [Hpx Hpl].
      rewrite Hx; [|done|intros s Hin; apply Hs; cbn; apply elem_of_app; by left].
      cbn. rewrite IHl; [done|done|].
      intros s Hin; apply Hs; cbn; apply elem_of_app; by right. }
    by rewrite Hl.
  - cbn in *. apply andb_true_iff in Hpy as [Hpy Hdk].
    assert (Hkv : ∀ acc,
      forallb (fun k' => forallb (fun k => negb (py_eq k' k)) (map fst kv))
              (map fst acc) = true →
      (fix items (kv : list (value * value)) (acc : list (value * value))
          : result (list (value * value)) :=
          match kv with
          | [] => Ok acc
          | (k, v) :: kv' =>
              rbind (Expressions.evaluate reg k data) (fun k' =>
              rbind (Expressions.evaluate reg v data) (fun v' =>
              if Expressions.hashable k' then items kv' (Expressions.dict_set acc k' v')
              else Raise TypeError))
          end) kv acc = Ok (acc ++ kv)).
    { induction IH as [|[k v] kv [Hk Hv] _ IHkv]; intros acc Hacc.
      - by rewrite app_nil_r.
      - cbn in Hpy, Hdk, Hk, Hv.
        apply andb_true_iff in Hpy as [Hp1 Hpkv].
        apply andb_true_iff in Hp1 as [Hp1 Hh].
        apply andb_true_iff in Hp1 as [Hpk Hpv].
        apply andb_true_iff in Hdk as [Hk1 Hdk].
        rewrite Hk; [|done|intros s Hin; apply Hs; cbn; rewrite !elem_of_app; auto].
        cbn. rewrite Hv; [|done|intros s Hin; apply Hs; cbn; rewrite !elem_of_app; auto].
        cbn. rewrite Hh. rewrite dict_set_new.
        + rewrite IHkv; [by rewrite <- app_assoc|done|done| |].
          * intros s Hin. apply Hs. cbn. rewrite !elem_of_app. auto.
          * rewrite map_app, forallb_app. cbn. rewrite Hk1. cbn.
            rewrite andb_true_r. clear -Hacc.
            induction acc as [|[a b] acc IHa]; [done|]. cbn in *.
            apply andb_true_iff in Hacc as [Ha Hacc].
            apply andb_true_iff in Ha as [_ Ha]. by rewrite Ha, IHa.
        + clear -Hacc. induction acc as [|[a b] acc IHa]; [done|]. cbn in *.
          apply andb_true_iff in Hacc as [Ha Hacc].
          apply andb_true_iff in Ha as [Ha _]. by rewrite Ha, IHa. }
    by rewrite Hkv.
Qed.

End EvaluateLaws.

(** X25 on a statement without expressions. *)
Lemma evaluate_plain_witness :
  Expressions.evaluate Sample.evaluators
    (VDict [(VStr "k", VList [VStr "plain"; VInt 1]); (VInt 2, VNone)]) VNone
  = Ok (VDict [(VStr "k", VList [VStr "plain"; VInt 1]); (VInt 2, VNone)]).
Proof.
  apply evaluate_plain; [vm_compute; reflexivity|].
  intros s Hs. apply list_elem_of_In in Hs. vm_compute in Hs.
  destruct Hs as [<-|[<-|[]]]; vm_compute; reflexivity.
Defined.

(** X24 on the sample registry and the registry in the other order. *)
Lemma evaluate_registry_order_witness :
  Expressions.evaluate Sample.evaluators
    (VList [VStr "<% a %>"; VStr "{{ b }}"; VStr "c"]) VNone
  = Expressions.evaluate [("curly", Sample.curly); ("angle", Sample.angle)]
      (VList [VStr "<% a %>"; VStr "{{ b }}"; VStr "c"]) VNone.
Proof.
  apply evaluate_registry_order; [apply perm_swap|].
  intros s Hs. apply list_elem_of_In in Hs. vm_compute in Hs.
  destruct Hs as [<-|[<-|[<-|[]]]]; vm_compute; lia.
Defined.

(** The condition of X24 is needed: the first evaluator of the registry
    that finds its expressions in a string evaluates it. *)
Lemma evaluate_first_match_decides :
  Expressions.evaluate Sample.evaluators (VStr "<% a %> {{ b }}") VNone
  = Ok (VBool true) ∧
  Expressions.evaluate [("curly", Sample.curly); ("angle", Sample.angle)]
    (VStr "<% a %> {{ b }}") VNone
  = Ok (VStr "<% a %> {{ b }}").
Proof. split; vm_compute; reflexivity. Qed.
